(** * SwarmCog C++ core: knowledge store and cognitive microkernel

    A shallow embedding of [swarmcog_core] (types.h, agentspace.h/.cpp,
    microkernel.h/.cpp, the string, number and validation helpers of
    utils.cpp, and the goal, belief and trust methods of
    cognitive_agent.cpp) together with the properties of the specification
    that are checked against it and further properties of the code.

    Modelling conventions.
    - [std::shared_ptr<Atom>] is an address into an explicit object heap
      ([Heap]); [nullptr] is [None].  Objects are never freed: an object
      that is still referenced stays alive in C++ as well, and an
      unreferenced one cannot be observed.
    - [double] is modelled by exact rational arithmetic ([Q]); rounding is
      not modelled.
    - Values obtained from the environment (clock readings, generated
      UUIDs, measured durations) are explicit arguments of the operation
      that asks for them.
    - Locks are not modelled: every operation is one atomic step, and a
      task is processed in one step by the worker that dequeued it.
    - Logging is left out, and so are the operations no property below
      touches ([getStatistics], [getSystemStatus], the phase-processor
      factory, serialization, the capabilities and memories of an
      agent). *)

From Stdlib Require Import QArith Qabs Qpower Lqa Lia ZArith Ascii.
From stdpp Require Import base gmap sets list strings pretty sorting.

Set Warnings "-clear-no-such-hyp".
Close Scope Q_scope.
Open Scope string_scope.
Open Scope list_scope.

(** ** types.h *)

Abbreviation AtomId := string (only parsing).
Abbreviation AgentId := string (only parsing).
Abbreviation Timestamp := Z (only parsing).
Abbreviation ptr := positive (only parsing).
Abbreviation AtomPtr := (option positive) (only parsing).

Inductive AtomType :=
  | NODE | LINK | AGENT_NODE | CAPABILITY_NODE | GOAL_NODE | BELIEF_NODE
  | MEMORY_NODE | COLLABORATION_LINK | DELEGATION_LINK | TRUST_LINK
  | KNOWLEDGE_LINK | EVALUATION_LINK.

Inductive CognitivePhase :=
  | PERCEPTION | ATTENTION | REASONING | PLANNING | EXECUTION | LEARNING
  | REFLECTION.

#[global] Instance AtomType_eq_dec : EqDecision AtomType.
Proof. solve_decision. Defined.

#[global] Instance CognitivePhase_eq_dec : EqDecision CognitivePhase.
Proof. solve_decision. Defined.

(** [static_cast<int>] on the two enumerations. *)
Definition AtomType_to_int (t : AtomType) : nat :=
  match t with
  | NODE => 0 | LINK => 1 | AGENT_NODE => 2 | CAPABILITY_NODE => 3
  | GOAL_NODE => 4 | BELIEF_NODE => 5 | MEMORY_NODE => 6
  | COLLABORATION_LINK => 7 | DELEGATION_LINK => 8 | TRUST_LINK => 9
  | KNOWLEDGE_LINK => 10 | EVALUATION_LINK => 11
  end.

Definition AtomType_of_int (n : nat) : AtomType :=
  match n with
  | 0 => NODE | 1 => LINK | 2 => AGENT_NODE | 3 => CAPABILITY_NODE
  | 4 => GOAL_NODE | 5 => BELIEF_NODE | 6 => MEMORY_NODE
  | 7 => COLLABORATION_LINK | 8 => DELEGATION_LINK | 9 => TRUST_LINK
  | 10 => KNOWLEDGE_LINK | _ => EVALUATION_LINK
  end.

#[global] Instance AtomType_countable : Countable AtomType :=
  inj_countable' AtomType_to_int AtomType_of_int
    (λ t, match t with
          | NODE | LINK | AGENT_NODE | CAPABILITY_NODE | GOAL_NODE
          | BELIEF_NODE | MEMORY_NODE | COLLABORATION_LINK | DELEGATION_LINK
          | TRUST_LINK | KNOWLEDGE_LINK | EVALUATION_LINK => eq_refl
          end).

Definition CognitivePhase_to_int (p : CognitivePhase) : nat :=
  match p with
  | PERCEPTION => 0 | ATTENTION => 1 | REASONING => 2 | PLANNING => 3
  | EXECUTION => 4 | LEARNING => 5 | REFLECTION => 6
  end.

(** [std::clamp(v, lo, hi)]. *)
Definition clamp (v lo hi : Q) : Q :=
  if Qlt_le_dec v lo then lo else if Qlt_le_dec hi v then hi else v.

Record TruthValue := mkTruthValue { strength : Q; confidence : Q }.

(** [TruthValue() = default]. *)
Definition TruthValue_default : TruthValue :=
  {| strength := 1 # 2; confidence := 0 |}.

(** [TruthValue(double s, double c)]: both components are clamped. *)
Definition TruthValue_ctor (s c : Q) : TruthValue :=
  {| strength := clamp s 0 1; confidence := clamp c 0 1 |}.

Record AttentionValue := mkAttentionValue { sti : Q; lti : Q; vlti : Q }.

Definition AttentionValue_default : AttentionValue :=
  {| sti := 0; lti := 0; vlti := 0 |}.

Definition AttentionValue_ctor (s l v : Q) : AttentionValue :=
  {| sti := clamp s (-1) 1; lti := clamp l (-1) 1; vlti := clamp v 0 1 |}.

Record CognitiveState := mkCognitiveState {
  agent_id : AgentId;
  current_phase : CognitivePhase;
  goals : list string;
  beliefs : gmap string string;
  intentions : list string;
  current_focus : list string;
  last_update : Timestamp
}.

(** [CognitiveState()] and [CognitiveState(id)]; the constructor reads the
    clock. *)
Definition CognitiveState_ctor (now : Timestamp) (id : AgentId)
  : CognitiveState :=
  {| agent_id := id; current_phase := PERCEPTION; goals := [];
     beliefs := ∅; intentions := []; current_focus := [];
     last_update := now |}.

Definition CognitiveState_default (now : Timestamp) : CognitiveState :=
  CognitiveState_ctor now "".

Definition set_current_phase (p : CognitivePhase) (st : CognitiveState) :=
  {| agent_id := agent_id st; current_phase := p; goals := goals st;
     beliefs := beliefs st; intentions := intentions st;
     current_focus := current_focus st; last_update := last_update st |}.

Definition set_goals (g : list string) (st : CognitiveState) :=
  {| agent_id := agent_id st; current_phase := current_phase st; goals := g;
     beliefs := beliefs st; intentions := intentions st;
     current_focus := current_focus st; last_update := last_update st |}.

Definition set_beliefs (b : gmap string string) (st : CognitiveState) :=
  {| agent_id := agent_id st; current_phase := current_phase st;
     goals := goals st; beliefs := b; intentions := intentions st;
     current_focus := current_focus st; last_update := last_update st |}.

Definition set_intentions (i : list string) (st : CognitiveState) :=
  {| agent_id := agent_id st; current_phase := current_phase st;
     goals := goals st; beliefs := beliefs st; intentions := i;
     current_focus := current_focus st; last_update := last_update st |}.

Definition set_current_focus (f : list string) (st : CognitiveState) :=
  {| agent_id := agent_id st; current_phase := current_phase st;
     goals := goals st; beliefs := beliefs st; intentions := intentions st;
     current_focus := f; last_update := last_update st |}.

Definition set_last_update (t : Timestamp) (st : CognitiveState) :=
  {| agent_id := agent_id st; current_phase := current_phase st;
     goals := goals st; beliefs := beliefs st; intentions := intentions st;
     current_focus := current_focus st; last_update := t |}.

(** ** agentspace.h: atoms *)

(** The three concrete classes of the hierarchy: a bare [Atom], a [Node]
    with its value, a [Link] with its outgoing vector of shared pointers. *)
Inductive AtomPayload :=
  | BaseData
  | NodeData (value_ : string)
  | LinkData (outgoing_ : list AtomPtr).

Record Atom := mkAtom {
  id_ : AtomId;
  type_ : AtomType;
  name_ : string;
  truth_value_ : TruthValue;
  attention_value_ : AttentionValue;
  timestamp_ : Timestamp;
  metadata_ : gmap string string;
  payload_ : AtomPayload
}.

(** [Atom::Atom(type, name)]; [uuid] is what [generateId()] returned. *)
Definition Atom_ctor (uuid : AtomId) (now : Timestamp) (type : AtomType)
    (name : string) (pl : AtomPayload) : Atom :=
  {| id_ := uuid; type_ := type;
     name_ := if decide (name = "") then "atom_" +:+ String.substring 0 8 uuid
              else name;
     truth_value_ := TruthValue_default;
     attention_value_ := AttentionValue_default;
     timestamp_ := now; metadata_ := ∅; payload_ := pl |}.

Definition Node_ctor (uuid : AtomId) (now : Timestamp) (type : AtomType)
    (name value : string) : Atom :=
  Atom_ctor uuid now type name (NodeData value).

Definition Link_ctor (uuid : AtomId) (now : Timestamp) (type : AtomType)
    (outgoing : list AtomPtr) (name : string) : Atom :=
  Atom_ctor uuid now type name (LinkData outgoing).

Definition Atom_setName (name : string) (a : Atom) : Atom :=
  {| id_ := id_ a; type_ := type_ a; name_ := name;
     truth_value_ := truth_value_ a; attention_value_ := attention_value_ a;
     timestamp_ := timestamp_ a; metadata_ := metadata_ a;
     payload_ := payload_ a |}.

Definition Atom_setTruthValue (tv : TruthValue) (a : Atom) : Atom :=
  {| id_ := id_ a; type_ := type_ a; name_ := name_ a;
     truth_value_ := tv; attention_value_ := attention_value_ a;
     timestamp_ := timestamp_ a; metadata_ := metadata_ a;
     payload_ := payload_ a |}.

Definition Atom_setAttentionValue (av : AttentionValue) (a : Atom) : Atom :=
  {| id_ := id_ a; type_ := type_ a; name_ := name_ a;
     truth_value_ := truth_value_ a; attention_value_ := av;
     timestamp_ := timestamp_ a; metadata_ := metadata_ a;
     payload_ := payload_ a |}.

Definition Atom_setMetadata (key value : string) (a : Atom) : Atom :=
  {| id_ := id_ a; type_ := type_ a; name_ := name_ a;
     truth_value_ := truth_value_ a; attention_value_ := attention_value_ a;
     timestamp_ := timestamp_ a; metadata_ := <[key := value]> (metadata_ a);
     payload_ := payload_ a |}.

Definition Atom_getMetadata (key : string) (a : Atom) : string :=
  default "" (metadata_ a !! key).

(** [Link::getOutgoing]; the dynamic cast fails on atoms that are no Link. *)
Definition Link_getOutgoing (a : Atom) : option (list AtomPtr) :=
  match payload_ a with LinkData out => Some out | _ => None end.

Definition set_payload (pl : AtomPayload) (a : Atom) : Atom :=
  {| id_ := id_ a; type_ := type_ a; name_ := name_ a;
     truth_value_ := truth_value_ a; attention_value_ := attention_value_ a;
     timestamp_ := timestamp_ a; metadata_ := metadata_ a;
     payload_ := pl |}.

(** [Link::addOutgoing]: null pointers are not appended. *)
Definition Link_addOutgoing (p : AtomPtr) (a : Atom) : Atom :=
  match payload_ a, p with
  | LinkData out, Some _ => set_payload (LinkData (out ++ [p])) a
  | _, _ => a
  end.

Definition Link_removeOutgoing (p : AtomPtr) (a : Atom) : Atom :=
  match payload_ a with
  | LinkData out => set_payload (LinkData (filter (λ q, q ≠ p) out)) a
  | _ => a
  end.

(** ** The object heap *)

Abbreviation Heap := (gmap positive Atom) (only parsing).

(** [std::make_shared]: the object is put at an unused address. *)
Definition heap_alloc (a : Atom) (h : Heap) : ptr * Heap :=
  let p := fresh (dom h) in (p, <[p := a]> h).

(** Applying a method that mutates the object behind a pointer. *)
Definition heap_update (p : ptr) (f : Atom → Atom) (h : Heap) : Heap :=
  match h !! p with Some a => <[p := f a]> h | None => h end.

Definition deref (h : Heap) (p : AtomPtr) : option Atom :=
  p ≫= λ q, h !! q.

(** ** agentspace.h: the store *)

Record AgentSpace := mkAgentSpace {
  space_name_ : string;
  atoms_ : gmap string positive;
  atoms_by_type_ : gmap AtomType (gset string);
  atoms_by_name_ : gmap string (gset string);
  atom_counter_ : nat;
  attentional_focus_ : list string
}.

Definition AgentSpace_ctor (name : string) : AgentSpace :=
  {| space_name_ := name; atoms_ := ∅; atoms_by_type_ := ∅;
     atoms_by_name_ := ∅; atom_counter_ := 0; attentional_focus_ := [] |}.

(** The set held under a key of an index; an absent key holds nothing. *)
Definition index_set {K} `{Countable K} (m : gmap K (gset string)) (k : K)
  : gset string := default ∅ (m !! k).

(** [index[k].insert(id)] and [index[k].erase(id)]; [operator[]] creates
    the entry when it is absent. *)
Definition index_insert {K} `{Countable K} (k : K) (id : AtomId)
    (m : gmap K (gset string)) : gmap K (gset string) :=
  <[k := index_set m k ∪ {[id]}]> m.

Definition index_erase {K} `{Countable K} (k : K) (id : AtomId)
    (m : gmap K (gset string)) : gmap K (gset string) :=
  <[k := index_set m k ∖ {[id]}]> m.

Definition addAtomToIndices (a : Atom) (s : AgentSpace) : AgentSpace :=
  {| space_name_ := space_name_ s; atoms_ := atoms_ s;
     atoms_by_type_ := index_insert (type_ a) (id_ a) (atoms_by_type_ s);
     atoms_by_name_ := index_insert (name_ a) (id_ a) (atoms_by_name_ s);
     atom_counter_ := atom_counter_ s;
     attentional_focus_ := attentional_focus_ s |}.

Definition removeAtomFromIndices (a : Atom) (s : AgentSpace) : AgentSpace :=
  {| space_name_ := space_name_ s; atoms_ := atoms_ s;
     atoms_by_type_ := index_erase (type_ a) (id_ a) (atoms_by_type_ s);
     atoms_by_name_ := index_erase (name_ a) (id_ a) (atoms_by_name_ s);
     atom_counter_ := atom_counter_ s;
     attentional_focus_ := attentional_focus_ s |}.

Definition set_atoms (m : gmap string positive) (s : AgentSpace)
  : AgentSpace :=
  {| space_name_ := space_name_ s; atoms_ := m;
     atoms_by_type_ := atoms_by_type_ s; atoms_by_name_ := atoms_by_name_ s;
     atom_counter_ := atom_counter_ s;
     attentional_focus_ := attentional_focus_ s |}.

Definition set_atom_counter (n : nat) (s : AgentSpace) : AgentSpace :=
  {| space_name_ := space_name_ s; atoms_ := atoms_ s;
     atoms_by_type_ := atoms_by_type_ s; atoms_by_name_ := atoms_by_name_ s;
     atom_counter_ := n; attentional_focus_ := attentional_focus_ s |}.

Definition set_attentional_focus (f : list string) (s : AgentSpace)
  : AgentSpace :=
  {| space_name_ := space_name_ s; atoms_ := atoms_ s;
     atoms_by_type_ := atoms_by_type_ s; atoms_by_name_ := atoms_by_name_ s;
     atom_counter_ := atom_counter_ s; attentional_focus_ := f |}.

(** [AgentSpace::addAtom].  A null pointer is handed back as it is and the
    store is left alone.  (A non-null shared pointer always points to a
    live object; the [None] branch of the heap lookup is unreachable for
    well-formed arguments.) *)
Definition addAtom (h : Heap) (atom : AtomPtr) (s : AgentSpace)
  : AtomPtr * AgentSpace :=
  match atom with
  | None => (None, s)
  | Some p =>
    match h !! p with
    | None => (None, s)
    | Some a =>
      let s1 := set_atoms (<[id_ a := p]> (atoms_ s)) s in
      let s2 := addAtomToIndices a s1 in
      (Some p, set_atom_counter (S (atom_counter_ s2)) s2)
    end
  end.

(** [AgentSpace::removeAtom]. *)
Definition removeAtom (h : Heap) (id : AtomId) (s : AgentSpace)
  : bool * AgentSpace :=
  match atoms_ s !! id with
  | None => (false, s)
  | Some p =>
    let s1 := match h !! p with
              | Some a => removeAtomFromIndices a s
              | None => s
              end in
    (true, set_atoms (delete id (atoms_ s1)) s1)
  end.

(** [AgentSpace::getAtom]: [nullptr] when the id is unknown. *)
Definition getAtom (id : AtomId) (s : AgentSpace) : AtomPtr :=
  atoms_ s !! id.

(** [AgentSpace::getAtoms]; the iteration order of the unordered map is
    unspecified, the model takes the order of [map_to_list]. *)
Definition getAtoms (s : AgentSpace) : list ptr :=
  (map_to_list (atoms_ s)).*2.

Definition getAtomsByType (type : AtomType) (s : AgentSpace) : list ptr :=
  omap (λ id, atoms_ s !! id) (elements (index_set (atoms_by_type_ s) type)).

Definition getAtomsByName (name : string) (s : AgentSpace) : list ptr :=
  omap (λ id, atoms_ s !! id) (elements (index_set (atoms_by_name_ s) name)).

Definition getAtomCount (s : AgentSpace) : nat := size (atoms_ s).

(** ** Attentional focus *)

Definition max_focus_size : nat := 20.

(** [std::remove] + [erase] of every occurrence of [atom_id]. *)
Definition focus_erase (atom_id : AtomId) (f : list string) : list string :=
  filter (λ x, x ≠ atom_id) f.

Definition addToAttentionalFocus (atom_id : AtomId) (s : AgentSpace)
  : AgentSpace :=
  let f1 := focus_erase atom_id (attentional_focus_ s) in
  let f2 := f1 ++ [atom_id] in
  let f3 := if decide (max_focus_size < length f2) then tail f2 else f2 in
  set_attentional_focus f3 s.

Definition removeFromAttentionalFocus (atom_id : AtomId) (s : AgentSpace)
  : AgentSpace :=
  set_attentional_focus (focus_erase atom_id (attentional_focus_ s)) s.

Definition getAttentionalFocus (s : AgentSpace) : list string :=
  attentional_focus_ s.

(** [AgentSpace::clear]. *)
Definition clear (s : AgentSpace) : AgentSpace :=
  {| space_name_ := space_name_ s; atoms_ := ∅; atoms_by_type_ := ∅;
     atoms_by_name_ := ∅; atom_counter_ := 0; attentional_focus_ := [] |}.

(** ** utils.cpp: the helpers the core calls *)

(** [std::to_string] on integers: decimal digits. *)
Definition to_string_nat (n : nat) : string := pretty n.
Definition to_string_Z (z : Z) : string := pretty z.

Arguments to_string_nat : simpl never.
Arguments to_string_Z : simpl never.

(** [std::to_string(double)] prints with [%f]: six digits after the point,
    rounded to nearest (ties to even). *)
Definition round_half_even (n : Z) (d : positive) : Z :=
  let q := (n / Zpos d)%Z in
  let r := (n mod Zpos d)%Z in
  if decide (2 * r < Zpos d)%Z then q
  else if decide (Zpos d < 2 * r)%Z then (q + 1)%Z
  else if Z.even q then q else (q + 1)%Z.

(** [setw(width)] with fill character ['0']. *)
Definition pad_left (width : nat) (s : string) : string :=
  String.concat "" (replicate (width - String.length s) "0") +:+ s.

Definition to_string_double (x : Q) : string :=
  let m := round_half_even (Z.abs (Qnum x) * 1000000) (Qden x) in
  (if decide (Qnum x < 0)%Z then "-" else "")
    +:+ pretty (m / 1000000)%Z +:+ "."
    +:+ pad_left 6 (pretty (m mod 1000000)%Z).

Arguments to_string_double : simpl never.

(** [StringUtils::split]: [std::getline] in a loop.  A token ends at the
    delimiter; at the end of the input a token is produced only when at
    least one character was read. *)
Fixpoint split_go (delimiter : ascii) (s : string) (token : string)
  : list string :=
  match s with
  | EmptyString => if decide (token = "") then [] else [token]
  | String c s' =>
    if decide (c = delimiter) then token :: split_go delimiter s' ""
    else split_go delimiter s' (token +:+ String c "")
  end.

Definition split (str : string) (delimiter : ascii) : list string :=
  split_go delimiter str "".

(** [StringUtils::join]. *)
Definition join (strings : list string) (separator : string) : string :=
  match strings with
  | [] => ""
  | s0 :: rest => foldl (λ acc s, acc +:+ separator +:+ s) s0 rest
  end.

(** The characters of [" \t\n\r\f\v"]. *)
Definition is_space (c : ascii) : bool :=
  let n := Ascii.N_of_ascii c in
  (n =? 32)%N || ((9 <=? n)%N && (n <=? 13)%N).

Fixpoint skip_space (s : string) : string :=
  match s with
  | String c s' => if is_space c then skip_space s' else s
  | EmptyString => ""
  end.

(** [StringUtils::trim]. *)
Definition trim (str : string) : string :=
  String.rev (skip_space (String.rev (skip_space str))).

Definition is_digit (c : ascii) : bool :=
  let n := Ascii.N_of_ascii c in (48 <=? n)%N && (n <=? 57)%N.

Definition digit_value (c : ascii) : Z :=
  Z.of_N (Ascii.N_of_ascii c) - 48.

Fixpoint read_digits (s : string) (acc : option Z) : option Z :=
  match s with
  | String c s' =>
    if is_digit c
    then read_digits s' (Some (10 * default 0%Z acc + digit_value c)%Z)
    else acc
  | EmptyString => acc
  end.

Definition INT_MIN : Z := (-2147483648)%Z.
Definition INT_MAX : Z := 2147483647%Z.

(** [std::stoi]: leading white space, an optional sign, decimal digits up
    to the first other character.  [None] stands for the exception thrown
    when there is no digit or the value does not fit an [int]. *)
Definition stoi (s : string) : option Z :=
  let s1 := skip_space s in
  let '(neg, s2) :=
    match s1 with
    | String "-"%char r => (true, r)
    | String "+"%char r => (false, r)
    | _ => (false, s1)
    end in
  v ← read_digits s2 None;
  let z := if (neg : bool) then (- v)%Z else v in
  if decide (INT_MIN ≤ z ≤ INT_MAX)%Z then Some z else None.

(** [ConfigUtils::parseInt]: the default value when [stoi] throws. *)
Definition parseInt (str : string) (default_value : Z) : Z :=
  default default_value (stoi (trim str)).

(** ** agentspace.cpp: operations that create or inspect objects *)

(** The heap of atom objects together with the store that refers to it. *)
Record World := mkWorld { heap : gmap positive Atom; space : AgentSpace }.

Definition set_space (s : AgentSpace) (w : World) : World :=
  {| heap := heap w; space := s |}.

Definition set_heap (h : gmap positive Atom) (w : World) : World :=
  {| heap := h; space := space w |}.

(** [std::make_shared<...>(...)] followed by [addAtom]. *)
Definition make_and_add (a : Atom) (w : World) : ptr * World :=
  let '(p, h) := heap_alloc a (heap w) in
  (p, {| heap := h; space := (addAtom h (Some p) (space w)).2 |}).

Definition addCapabilityNode (uuid : AtomId) (now : Timestamp)
    (name description : string) (w : World) : ptr * World :=
  make_and_add (Node_ctor uuid now CAPABILITY_NODE name description) w.

Definition addGoalNode (uuid : AtomId) (now : Timestamp) (goal : string)
    (priority : Q) (w : World) : ptr * World :=
  make_and_add
    (Atom_setTruthValue (TruthValue_ctor priority (8 # 10))
       (Node_ctor uuid now GOAL_NODE goal "")) w.

Definition addBeliefNode (uuid : AtomId) (now : Timestamp)
    (belief value : string) (w : World) : ptr * World :=
  make_and_add
    (Atom_setTruthValue (TruthValue_ctor (8 # 10) (7 # 10))
       (Node_ctor uuid now BELIEF_NODE belief value)) w.

(** [addMemoryNode]; [short] is what [generateShort()] returned. *)
Definition addMemoryNode (uuid short : string) (now : Timestamp)
    (content type : string) (w : World) : ptr * World :=
  make_and_add
    (Atom_setAttentionValue (AttentionValue_ctor (1 # 2) 0 (3 # 10))
       (Atom_setMetadata "memory_type" type
          (Node_ctor uuid now MEMORY_NODE ("memory_" +:+ short) content))) w.

(** The three link constructors of the store share their shape: both
    endpoints are looked up, and nothing is created when one is unknown. *)
Definition add_link (a : AtomPtr → AtomPtr → Atom) (id1 id2 : AtomId)
    (w : World) : AtomPtr * World :=
  match getAtom id1 (space w), getAtom id2 (space w) with
  | Some p1, Some p2 =>
    let '(p, w') := make_and_add (a (Some p1) (Some p2)) w in (Some p, w')
  | _, _ => (None, w)
  end.

Definition addTrustRelationship (uuid : AtomId) (now : Timestamp)
    (agent1 agent2 : AgentId) (trust_level : Q) (w : World)
  : AtomPtr * World :=
  add_link (λ p1 p2,
    Atom_setMetadata "trust_level" (to_string_double trust_level)
      (Atom_setTruthValue (TruthValue_ctor trust_level (1 # 2))
         (Link_ctor uuid now TRUST_LINK [p1; p2] ""))) agent1 agent2 w.

(** The timestamp string written to the metadata is the rendering of the
    clock reading; calendar formatting is not modelled. *)
Definition timestampToString (t : Timestamp) : string := pretty t.

Arguments timestampToString : simpl never.

Definition addCollaborationLink (uuid : AtomId) (now : Timestamp)
    (agent1 agent2 : AgentId) (type : string) (w : World)
  : AtomPtr * World :=
  add_link (λ p1 p2,
    Atom_setMetadata "created_time" (timestampToString now)
      (Atom_setMetadata "collaboration_type" type
         (Link_ctor uuid now COLLABORATION_LINK [p1; p2] "")))
    agent1 agent2 w.

Definition addKnowledgeLink (uuid : AtomId) (now : Timestamp)
    (source target : AtomId) (relation : string) (w : World)
  : AtomPtr * World :=
  add_link (λ p1 p2,
    Atom_setMetadata "relation" relation
      (Link_ctor uuid now KNOWLEDGE_LINK [p1; p2] "")) source target w.

(** The free factory [createTrustLink]: the link is built from whatever
    pointers the caller passes and is not added to any store. *)
Definition createTrustLink (uuid : AtomId) (now : Timestamp)
    (agent1 agent2 : AtomPtr) (trust_level : Q) : Atom :=
  Atom_setTruthValue (TruthValue_ctor trust_level (1 # 2))
    (Link_ctor uuid now TRUST_LINK [agent1; agent2] "").

(** The ids of the two endpoints of an arity-2 link, read through the
    pointers the link holds ([outgoing[i]->getId()]).  The outer [None]
    means the atom is skipped (no Link, or another arity); an inner [None]
    is the dereference of a null pointer. *)
Definition link_endpoints (h : Heap) (a : Atom)
  : option (option (AtomId * AtomId)) :=
  match Link_getOutgoing a with
  | Some [o0; o1] =>
    Some (a0 ← deref h o0; a1 ← deref h o1; Some (id_ a0, id_ a1))
  | _ => None
  end.

(** [AgentSpace::getCollaborators]; [None] is a null dereference. *)
Fixpoint collaborators_go (h : Heap) (agent_id : AgentId) (links : list ptr)
  : option (list string) :=
  match links with
  | [] => Some []
  | l :: rest =>
    match (h !! l) ≫= link_endpoints h with
    | None => collaborators_go h agent_id rest
    | Some None => None
    | Some (Some (i0, i1)) =>
      tl ← collaborators_go h agent_id rest;
      Some (if decide (i0 = agent_id) then i1 :: tl
            else if decide (i1 = agent_id) then i0 :: tl else tl)
    end
  end.

Definition getCollaborators (agent_id : AgentId) (w : World)
  : option (list string) :=
  match getAtom agent_id (space w) with
  | None => Some []
  | Some _ =>
    collaborators_go (heap w) agent_id
      (getAtomsByType COLLABORATION_LINK (space w))
  end.

(** [AgentSpace::getTrustLevel]; 0.0 when no link matches. *)
Fixpoint trust_go (h : Heap) (agent1 agent2 : AgentId) (links : list ptr)
  : option Q :=
  match links with
  | [] => Some 0%Q
  | l :: rest =>
    match h !! l with
    | None => trust_go h agent1 agent2 rest
    | Some a =>
      match link_endpoints h a with
      | None => trust_go h agent1 agent2 rest
      | Some None => None
      | Some (Some (i0, i1)) =>
        if decide ((i0 = agent1 ∧ i1 = agent2) ∨ (i0 = agent2 ∧ i1 = agent1))
        then Some (strength (truth_value_ a))
        else trust_go h agent1 agent2 rest
      end
    end
  end.

Definition getTrustLevel (agent1 agent2 : AgentId) (w : World) : option Q :=
  trust_go (heap w) agent1 agent2 (getAtomsByType TRUST_LINK (space w)).

(** ** Attention values *)

Definition importance (h : Heap) (p : ptr) : Q :=
  match h !! p with
  | Some a =>
    let av := attention_value_ a in (sti av + lti av + vlti av)%Q
  | None => 0%Q
  end.

(** The order [std::sort] is asked to produce: more important first. *)
Definition more_important (h : Heap) (p q : ptr) : Prop :=
  (importance h q <= importance h p)%Q.

#[global] Instance more_important_dec h p q : Decision (more_important h p q).
Proof.
  unfold more_important.
  destruct (Qlt_le_dec (importance h p) (importance h q)) as [Hlt|Hle].
  - right. by apply Qlt_not_le.
  - by left.
Defined.

(** [AgentSpace::getMostImportantAtoms].  [std::sort] leaves the order of
    equally important atoms open; the model sorts with a merge sort. *)
Definition getMostImportantAtoms (limit : nat) (w : World) : list ptr :=
  take limit (merge_sort (more_important (heap w)) (getAtoms (space w))).

(** The body of the decay loop: the three assignments in sequence. *)
Definition decay (av : AttentionValue) : AttentionValue :=
  let s := (sti av * (99 # 100))%Q in
  let l := (lti av * (999 # 1000) + s * (1 # 1000))%Q in
  let v := (vlti av * (9999 # 10000) + l * (1 # 10000))%Q in
  {| sti := s; lti := l; vlti := v |}.

Definition decay_atom (a : Atom) : Atom :=
  Atom_setAttentionValue (decay (attention_value_ a)) a.

(** [AgentSpace::updateAttentionValues]. *)
Definition updateAttentionValues (w : World) : World :=
  set_heap
    (foldl (λ h p, heap_update p decay_atom h) (heap w) (getAtoms (space w)))
    w.

(** ** microkernel.h *)

Inductive ProcessingMode := SYNCHRONOUS | ASYNCHRONOUS | DISTRIBUTED.

(** [execution_function] is never assigned nor called and is left out. *)
Record CognitiveTask := mkCognitiveTask {
  task_id : string;
  task_agent_id : AgentId;
  task_phase : CognitivePhase;
  description : string;
  parameters : gmap string string;
  created_at : Timestamp;
  scheduled_at : Timestamp;
  priority : Z
}.

(** [CognitiveTask::operator<]. *)
Definition task_lt (a b : CognitiveTask) : Prop := (priority a < priority b)%Z.

Record CognitiveContext := mkCognitiveContext {
  ctx_agent_id : AgentId;
  variables : gmap string string;
  focus_atoms : list string;
  processing_time : nat
}.

Definition CognitiveContext_ctor (id : AgentId) : CognitiveContext :=
  {| ctx_agent_id := id; variables := ∅; focus_atoms := [];
     processing_time := 0 |}.

Definition set_variables (v : gmap string string) (c : CognitiveContext) :=
  {| ctx_agent_id := ctx_agent_id c; variables := v;
     focus_atoms := focus_atoms c; processing_time := processing_time c |}.

Definition set_focus_atoms (f : list string) (c : CognitiveContext) :=
  {| ctx_agent_id := ctx_agent_id c; variables := variables c;
     focus_atoms := f; processing_time := processing_time c |}.

(** [context.variables[key] = value]. *)
Definition set_var (key value : string) (c : CognitiveContext) :=
  set_variables (<[key := value]> (variables c)) c.

(** Reading [context.variables[key]]: [operator[]] inserts an empty string
    under a key that is absent. *)
Definition get_var (key : string) (c : CognitiveContext)
  : string * CognitiveContext :=
  let v := default "" (variables c !! key) in (v, set_var key v c).

Record ProcessingStats := mkProcessingStats {
  total_cycles : nat;
  completed_tasks : nat;
  failed_tasks : nat;
  total_processing_time : nat;
  start_time : Timestamp
}.

Definition ProcessingStats_ctor (now : Timestamp) : ProcessingStats :=
  {| total_cycles := 0; completed_tasks := 0; failed_tasks := 0;
     total_processing_time := 0; start_time := now |}.

(** The microkernel.  Observers are [std::function] objects; the model
    names each one by a number and records, in [notified_], every call
    made to one together with the state it was given.  What an observer
    does, throwing included, is outside the model. *)
Record Kernel := mkKernel {
  processing_mode_ : ProcessingMode;
  cycle_interval_ : Q;
  num_workers_ : nat;
  agent_states_ : gmap string CognitiveState;
  agent_callbacks_ : gmap string (list nat);
  task_queue_ : list CognitiveTask;
  running_ : bool;
  stats_ : ProcessingStats;
  notified_ : list (nat * CognitiveState)
}.

Definition Kernel_ctor (mode : ProcessingMode) (num_workers optimal : nat)
    (now : Timestamp) : Kernel :=
  {| processing_mode_ := mode; cycle_interval_ := 1;
     num_workers_ := if decide (0 < num_workers) then num_workers
                     else optimal;
     agent_states_ := ∅; agent_callbacks_ := ∅; task_queue_ := [];
     running_ := false; stats_ := ProcessingStats_ctor now;
     notified_ := [] |}.

Definition set_agent_states (m : gmap string CognitiveState) (k : Kernel) :=
  {| processing_mode_ := processing_mode_ k;
     cycle_interval_ := cycle_interval_ k; num_workers_ := num_workers_ k;
     agent_states_ := m; agent_callbacks_ := agent_callbacks_ k;
     task_queue_ := task_queue_ k; running_ := running_ k;
     stats_ := stats_ k; notified_ := notified_ k |}.

Definition set_agent_callbacks (m : gmap string (list nat)) (k : Kernel) :=
  {| processing_mode_ := processing_mode_ k;
     cycle_interval_ := cycle_interval_ k; num_workers_ := num_workers_ k;
     agent_states_ := agent_states_ k; agent_callbacks_ := m;
     task_queue_ := task_queue_ k; running_ := running_ k;
     stats_ := stats_ k; notified_ := notified_ k |}.

Definition set_task_queue (q : list CognitiveTask) (k : Kernel) :=
  {| processing_mode_ := processing_mode_ k;
     cycle_interval_ := cycle_interval_ k; num_workers_ := num_workers_ k;
     agent_states_ := agent_states_ k;
     agent_callbacks_ := agent_callbacks_ k;
     task_queue_ := q; running_ := running_ k;
     stats_ := stats_ k; notified_ := notified_ k |}.

Definition set_running (b : bool) (k : Kernel) :=
  {| processing_mode_ := processing_mode_ k;
     cycle_interval_ := cycle_interval_ k; num_workers_ := num_workers_ k;
     agent_states_ := agent_states_ k;
     agent_callbacks_ := agent_callbacks_ k;
     task_queue_ := task_queue_ k; running_ := b;
     stats_ := stats_ k; notified_ := notified_ k |}.

Definition set_stats (s : ProcessingStats) (k : Kernel) :=
  {| processing_mode_ := processing_mode_ k;
     cycle_interval_ := cycle_interval_ k; num_workers_ := num_workers_ k;
     agent_states_ := agent_states_ k;
     agent_callbacks_ := agent_callbacks_ k;
     task_queue_ := task_queue_ k; running_ := running_ k;
     stats_ := s; notified_ := notified_ k |}.

Definition set_notified (n : list (nat * CognitiveState)) (k : Kernel) :=
  {| processing_mode_ := processing_mode_ k;
     cycle_interval_ := cycle_interval_ k; num_workers_ := num_workers_ k;
     agent_states_ := agent_states_ k;
     agent_callbacks_ := agent_callbacks_ k;
     task_queue_ := task_queue_ k; running_ := running_ k;
     stats_ := stats_ k; notified_ := n |}.

(** ** microkernel.cpp: the agent state table *)

Definition addCognitiveAgent (now : Timestamp) (id : AgentId)
    (goals0 : list string) (beliefs0 : gmap string string) (k : Kernel)
  : CognitiveState * Kernel :=
  match agent_states_ k !! id with
  | Some st => (st, k)
  | None =>
    let st := set_last_update now
                (set_current_phase PERCEPTION
                   (set_beliefs beliefs0
                      (set_goals goals0 (CognitiveState_ctor now id)))) in
    (st, set_agent_states (<[id := st]> (agent_states_ k)) k)
  end.

Definition removeCognitiveAgent (id : AgentId) (k : Kernel) : bool * Kernel :=
  match agent_states_ k !! id with
  | None => (false, k)
  | Some _ =>
    (true, set_agent_callbacks (delete id (agent_callbacks_ k))
             (set_agent_states (delete id (agent_states_ k)) k))
  end.

Definition hasAgent (id : AgentId) (k : Kernel) : bool :=
  bool_decide (is_Some (agent_states_ k !! id)).

(** [getActiveAgents]: the keys of the table, in its iteration order. *)
Definition getActiveAgents (k : Kernel) : list string :=
  (map_to_list (agent_states_ k)).*1.

(** [getCognitiveState]: the stored state, or a default-constructed one. *)
Definition getCognitiveState (now : Timestamp) (id : AgentId) (k : Kernel)
  : CognitiveState :=
  default (CognitiveState_default now) (agent_states_ k !! id).

(** [notifyCallbacks]: every observer of the agent is called in turn. *)
Definition notifyCallbacks (id : AgentId) (st : CognitiveState) (k : Kernel)
  : Kernel :=
  set_notified
    (notified_ k ++ map (λ cb, (cb, st)) (default [] (agent_callbacks_ k !! id)))
    k.

Definition updateCognitiveState (now : Timestamp) (id : AgentId)
    (st : CognitiveState) (k : Kernel) : bool * Kernel :=
  match agent_states_ k !! id with
  | None => (false, k)
  | Some _ =>
    (true,
     notifyCallbacks id st
       (set_agent_states
          (<[id := set_last_update now st]> (agent_states_ k)) k))
  end.

Definition addGoal (now : Timestamp) (id : AgentId) (goal : string)
    (k : Kernel) : Kernel :=
  match agent_states_ k !! id with
  | None => k
  | Some st =>
    if decide (goal ∈ goals st) then k
    else set_agent_states
           (<[id := set_last_update now (set_goals (goals st ++ [goal]) st)]>
              (agent_states_ k)) k
  end.

Definition updateBelief (now : Timestamp) (id : AgentId) (key value : string)
    (k : Kernel) : Kernel :=
  match agent_states_ k !! id with
  | None => k
  | Some st =>
    set_agent_states
      (<[id := set_last_update now
                 (set_beliefs (<[key := value]> (beliefs st)) st)]>
         (agent_states_ k)) k
  end.

Definition registerCallback (id : AgentId) (cb : nat) (k : Kernel) : Kernel :=
  set_agent_callbacks
    (<[id := default [] (agent_callbacks_ k !! id) ++ [cb]]>
       (agent_callbacks_ k)) k.

Definition unregisterCallbacks (id : AgentId) (k : Kernel) : Kernel :=
  set_agent_callbacks (delete id (agent_callbacks_ k)) k.

(** [start] and [stop]; the threads themselves are the worker steps
    below. *)
Definition start (now : Timestamp) (k : Kernel) : Kernel :=
  if running_ k then k
  else set_stats
         {| total_cycles := total_cycles (stats_ k);
            completed_tasks := completed_tasks (stats_ k);
            failed_tasks := failed_tasks (stats_ k);
            total_processing_time := total_processing_time (stats_ k);
            start_time := now |}
         (set_running true k).

Definition stop (k : Kernel) : Kernel :=
  if running_ k then set_running false k else k.

(** ** microkernel.cpp: scheduling *)

(** [scheduleTask]: a push on the priority queue.  The model keeps the
    queue as the list of its tasks in the order they were pushed. *)
Definition scheduleTask (task : CognitiveTask) (k : Kernel) : Kernel :=
  set_task_queue (task_queue_ k ++ [task]) k.

(** [scheduleCognitivePhase]; [short] is the output of [generateShort(8)]
    used for the task id.  No statement assigns [priority]: it keeps the
    value 0 of its member initialiser. *)
Definition make_phase_task (short : string) (now : Timestamp) (id : AgentId)
    (phase : CognitivePhase) (params : gmap string string) : CognitiveTask :=
  {| task_id := "task_" +:+ short; task_agent_id := id; task_phase := phase;
     description :=
       "Cognitive phase: " +:+ to_string_nat (CognitivePhase_to_int phase);
     parameters := params; created_at := now; scheduled_at := now;
     priority := 0 |}.

Definition scheduleCognitivePhase (short : string) (now : Timestamp)
    (id : AgentId) (phase : CognitivePhase) (params : gmap string string)
    (k : Kernel) : Kernel :=
  scheduleTask (make_phase_task short now id phase params) k.

(** The initializer list of [runCognitiveCycle]. *)
Definition cycle_phases : list CognitivePhase :=
  [PERCEPTION; ATTENTION; REASONING; PLANNING; EXECUTION; LEARNING;
   REFLECTION].

Definition bump_total_cycles (s : ProcessingStats) : ProcessingStats :=
  {| total_cycles := S (total_cycles s);
     completed_tasks := completed_tasks s; failed_tasks := failed_tasks s;
     total_processing_time := total_processing_time s;
     start_time := start_time s |}.

(** [runCognitiveCycle]; [short phase] is the id generated for the task of
    [phase]. *)
Definition runCognitiveCycle (short : CognitivePhase → string)
    (now : Timestamp) (id : AgentId) (k : Kernel) : Kernel :=
  if hasAgent id k then
    let k' := foldl (λ k0 phase,
                       scheduleCognitivePhase (short phase) now id phase ∅ k0)
                    k cycle_phases in
    set_stats (bump_total_cycles (stats_ k')) k'
  else k.

Definition runAllAgentsCycles (short : AgentId → CognitivePhase → string)
    (now : Timestamp) (k : Kernel) : Kernel :=
  foldl (λ k0 id, runCognitiveCycle (short id) now id k0) k
        (getActiveAgents k).

(** ** microkernel.cpp: phase handlers *)

(** The microkernel holds a shared pointer to the store: a phase handler
    works on the kernel and on the world behind that pointer. *)
Record Sys := mkSys { world : World; kernel : Kernel }.

Definition set_world (w : World) (s : Sys) : Sys :=
  {| world := w; kernel := kernel s |}.

Definition set_kernel (k : Kernel) (s : Sys) : Sys :=
  {| world := world s; kernel := k |}.

(** What one task run obtains from its environment: the clock reading, the
    identifiers the generator hands out, and the measured duration. *)
Record Env := mkEnv {
  env_now : Timestamp;
  env_uuid : string;
  env_short : string;
  env_elapsed : nat
}.

(** The tail every handler shares: read the state, set the next phase,
    write the state back (which notifies the observers). *)
Definition advance_phase (e : Env) (id : AgentId)
    (f : CognitiveState → CognitiveState) (s : Sys) : Sys :=
  let st := f (getCognitiveState (env_now e) id (kernel s)) in
  set_kernel (updateCognitiveState (env_now e) id st (kernel s)).2 s.

Definition gatherEnvironmentalData (e : Env) (id : AgentId)
    (c : CognitiveContext) (s : Sys) : CognitiveContext :=
  let focus := getAttentionalFocus (space (world s)) in
  set_var "environment_state" "active"
    (set_var "perception_timestamp" (timestampToString (env_now e))
       (set_focus_atoms (focus_atoms c ++ focus) c)).

Definition processPerceptionPhase (e : Env) (id : AgentId)
    (c : CognitiveContext) (s : Sys) : CognitiveContext * Sys :=
  let c1 := gatherEnvironmentalData e id c s in
  (c1, advance_phase e id (set_current_phase ATTENTION) s).

(** [selectAttentionalFocus]: the five most important atoms are listed in
    the context and pushed into the attentional focus of the store. *)
Definition selectAttentionalFocus (id : AgentId) (c : CognitiveContext)
    (s : Sys) : CognitiveContext * Sys :=
  let important := getMostImportantAtoms 5 (world s) in
  let ids := omap (λ p, id_ <$> heap (world s) !! p) important in
  (set_focus_atoms ids c,
   set_world
     (set_space (foldl (λ sp i, addToAttentionalFocus i sp)
                       (space (world s)) ids) (world s)) s).

Definition processAttentionPhase (e : Env) (id : AgentId)
    (c : CognitiveContext) (s : Sys) : CognitiveContext * Sys :=
  let '(c1, s1) := selectAttentionalFocus id c s in
  let s2 := set_world (updateAttentionValues (world s1)) s1 in
  (c1, advance_phase e id
         (λ st, set_current_focus (focus_atoms c1)
                  (set_current_phase REASONING st)) s2).

Definition performReasoning (e : Env) (id : AgentId) (c : CognitiveContext)
    (s : Sys) : CognitiveContext :=
  let st := getCognitiveState (env_now e) id (kernel s) in
  set_var "reasoning_confidence" "0.8"
    (set_var "reasoning_result" "goal_analysis_complete"
       (set_var "active_goals" (join (goals st) ",") c)).

Definition processReasoningPhase (e : Env) (id : AgentId)
    (c : CognitiveContext) (s : Sys) : CognitiveContext * Sys :=
  let c1 := performReasoning e id c s in
  (c1, advance_phase e id (set_current_phase PLANNING) s).

(** [createActionPlans]: one plan per goal; the plans become the agent's
    intentions and are also written, joined, to the context. *)
Definition createActionPlans (e : Env) (id : AgentId) (c : CognitiveContext)
    (s : Sys) : CognitiveContext * Sys :=
  let st := getCognitiveState (env_now e) id (kernel s) in
  let plans := map (λ goal, "plan_for_" +:+ goal) (goals st) in
  (set_var "action_plans" (join plans ",") c,
   set_kernel
     (updateCognitiveState (env_now e) id (set_intentions plans st)
        (kernel s)).2 s).

Definition processPlanningPhase (e : Env) (id : AgentId)
    (c : CognitiveContext) (s : Sys) : CognitiveContext * Sys :=
  let '(c1, s1) := createActionPlans e id c s in
  (c1, advance_phase e id (set_current_phase EXECUTION) s1).

(** [executeActions]: the plans are read back from the context variable
    [action_plans]; every one of them is visited (the loop body only logs)
    and their number is recorded. *)
Definition executeActions (id : AgentId) (c : CognitiveContext)
  : CognitiveContext :=
  let '(plans_str, c1) := get_var "action_plans" c in
  let plans := split plans_str ","%char in
  set_var "actions_executed" (to_string_nat (length plans)) c1.

Definition processExecutionPhase (e : Env) (id : AgentId)
    (c : CognitiveContext) (s : Sys) : CognitiveContext * Sys :=
  let c1 := executeActions id c in
  (c1, advance_phase e id (set_current_phase LEARNING) s).

(** [updateKnowledge]: a procedural memory node is added when the count
    read from the context variable [actions_executed] is positive. *)
Definition updateKnowledge (e : Env) (id : AgentId) (c : CognitiveContext)
    (s : Sys) : CognitiveContext * Sys :=
  let '(str, c1) := get_var "actions_executed" c in
  let actions_executed := parseInt str 0 in
  if decide (0 < actions_executed)%Z then
    let memory_content :=
      "Executed " +:+ to_string_Z actions_executed
        +:+ " actions successfully" in
    (set_var "learning_outcome" "knowledge_updated" c1,
     set_world
       (addMemoryNode (env_uuid e) (env_short e) (env_now e)
          memory_content "procedural" (world s)).2 s)
  else (c1, s).

Definition processLearningPhase (e : Env) (id : AgentId)
    (c : CognitiveContext) (s : Sys) : CognitiveContext * Sys :=
  let '(c1, s1) := updateKnowledge e id c s in
  (c1, advance_phase e id (set_current_phase REFLECTION) s1).

Definition evaluatePerformance (id : AgentId) (c : CognitiveContext)
  : CognitiveContext :=
  let '(str, c1) := get_var "actions_executed" c in
  let actions_executed := parseInt str 0 in
  let performance_score :=
    if decide (0 < actions_executed)%Z then (8 # 10)%Q else (3 # 10)%Q in
  set_var "reflection_complete" "true"
    (set_var "performance_score" (to_string_double performance_score) c1).

Definition processReflectionPhase (e : Env) (id : AgentId)
    (c : CognitiveContext) (s : Sys) : CognitiveContext * Sys :=
  let c1 := evaluatePerformance id c in
  (c1, advance_phase e id (set_current_phase PERCEPTION) s).

Definition executePhaseFunction (e : Env) (id : AgentId)
    (phase : CognitivePhase) (c : CognitiveContext) (s : Sys)
  : CognitiveContext * Sys :=
  match phase with
  | PERCEPTION => processPerceptionPhase e id c s
  | ATTENTION => processAttentionPhase e id c s
  | REASONING => processReasoningPhase e id c s
  | PLANNING => processPlanningPhase e id c s
  | EXECUTION => processExecutionPhase e id c s
  | LEARNING => processLearningPhase e id c s
  | REFLECTION => processReflectionPhase e id c s
  end.

Definition updateStats (success : bool) (duration : nat)
    (s : ProcessingStats) : ProcessingStats :=
  {| total_cycles := total_cycles s;
     completed_tasks :=
       if success then S (completed_tasks s) else completed_tasks s;
     failed_tasks := if success then failed_tasks s else S (failed_tasks s);
     total_processing_time := total_processing_time s + duration;
     start_time := start_time s |}.

(** The scratch context a task starts from: [processTask] constructs a new
    [CognitiveContext] for every task and copies the task's parameters
    into it. *)
Definition task_context (task : CognitiveTask) : CognitiveContext :=
  set_variables (parameters task) (CognitiveContext_ctor (task_agent_id task)).

(** [processTask].  No statement of the handlers throws in the model, so
    the [catch] branches are not taken and [success] is [true]. *)
Definition processTask (e : Env) (task : CognitiveTask) (s : Sys)
  : CognitiveContext * Sys :=
  let '(c, s1) :=
    executePhaseFunction e (task_agent_id task) (task_phase task)
      (task_context task) s in
  (c, set_kernel
        (set_stats (updateStats true (env_elapsed e) (stats_ (kernel s1)))
           (kernel s1)) s1).

(** ** The worker loop *)

(** [task_queue_.top()] is an element that no other element exceeds under
    [operator<]; which of several such elements it is, the priority queue
    does not say. *)
Definition is_top (q : list CognitiveTask) (t : CognitiveTask) : Prop :=
  Forall (λ t', ¬ task_lt t t') q.

#[global] Instance is_top_dec q t : Decision (is_top q t).
Proof. unfold is_top, task_lt. apply Forall_dec. intros t'. apply _. Defined.

(** One iteration of [workerThread]: the task at position [i] of the queue
    is popped, provided it may be the top, and processed. *)
Definition worker_step (e : Env) (i : nat) (s : Sys) : option Sys :=
  if running_ (kernel s) then
    t ← task_queue_ (kernel s) !! i;
    if decide (is_top (task_queue_ (kernel s)) t) then
      Some (processTask e t
              (set_kernel
                 (set_task_queue (delete i (task_queue_ (kernel s)))
                    (kernel s)) s)).2
    else None
  else None.

(** A run of the workers: each entry is one dequeue, with the environment
    of that task run. *)
Fixpoint run_workers (steps : list (Env * nat)) (s : Sys) : option Sys :=
  match steps with
  | [] => Some s
  | (e, i) :: rest => worker_step e i s ≫= run_workers rest
  end.

(** ** Histories of the store *)

(** The setters of [Atom], applied through a pointer. *)
Inductive AtomMutation :=
  | SetName (name : string)
  | SetTruthValue (tv : TruthValue)
  | SetAttentionValue (av : AttentionValue)
  | SetMetadata (key value : string).

Definition mutate (m : AtomMutation) : Atom → Atom :=
  match m with
  | SetName n => Atom_setName n
  | SetTruthValue tv => Atom_setTruthValue tv
  | SetAttentionValue av => Atom_setAttentionValue av
  | SetMetadata k v => Atom_setMetadata k v
  end.

(** What a client of the store can do to a world, one call at a time. *)
Inductive StoreOp :=
  | OpMake (a : Atom)
  | OpAddAtom (p : AtomPtr)
  | OpRemoveAtom (id : AtomId)
  | OpMutate (p : ptr) (m : AtomMutation)
  | OpAddToFocus (id : AtomId)
  | OpRemoveFromFocus (id : AtomId)
  | OpUpdateAttentionValues
  | OpClear.

Definition apply_op (op : StoreOp) (w : World) : World :=
  match op with
  | OpMake a => set_heap (heap_alloc a (heap w)).2 w
  | OpAddAtom p => set_space (addAtom (heap w) p (space w)).2 w
  | OpRemoveAtom id => set_space (removeAtom (heap w) id (space w)).2 w
  | OpMutate p m => set_heap (heap_update p (mutate m) (heap w)) w
  | OpAddToFocus id => set_space (addToAttentionalFocus id (space w)) w
  | OpRemoveFromFocus id =>
    set_space (removeFromAttentionalFocus id (space w)) w
  | OpUpdateAttentionValues => updateAttentionValues w
  | OpClear => set_space (clear (space w)) w
  end.

Definition run_ops (ops : list StoreOp) (w : World) : World :=
  foldl (λ w0 op, apply_op op w0) w ops.

Definition empty_world (name : string) : World :=
  {| heap := ∅; space := AgentSpace_ctor name |}.

(** An atom is live when the store maps its id to it. *)
Definition live (w : World) (p : ptr) : Prop :=
  match heap w !! p with
  | Some a => atoms_ (space w) !! id_ a = Some p
  | None => False
  end.

#[global] Instance live_dec w p : Decision (live w p).
Proof. unfold live. destruct (heap w !! p); apply _. Defined.

(** The discipline under which the indices stay exact: a new object gets
    an id no other object has (what the UUID generator is for), and the
    name of an atom is not changed while the atom is in the store. *)
Definition op_disciplined (w : World) (op : StoreOp) : Prop :=
  match op with
  | OpMake a => map_Forall (λ _ b, id_ b ≠ id_ a) (heap w)
  | OpMutate p (SetName _) => ¬ live w p
  | _ => True
  end.

#[global] Instance op_disciplined_dec w op : Decision (op_disciplined w op).
Proof. destruct op as [| | |? []| | | |]; simpl; apply _. Defined.

Fixpoint disciplined (w : World) (ops : list StoreOp) : Prop :=
  match ops with
  | [] => True
  | op :: rest => op_disciplined w op ∧ disciplined (apply_op op w) rest
  end.

#[global] Instance disciplined_dec w ops : Decision (disciplined w ops).
Proof. revert w. induction ops; simpl; intros w; apply _. Defined.

(** ** Invariants of the store *)

(** Index consistency, as the specification words it: a live atom's id is
    in the index set of its type and of its name and in no other, and an
    id that is not live is in no index set. *)
Definition index_consistent (w : World) : Prop :=
  (∀ id p a, atoms_ (space w) !! id = Some p → heap w !! p = Some a →
     (∀ t, id ∈ index_set (atoms_by_type_ (space w)) t ↔ t = type_ a) ∧
     (∀ n, id ∈ index_set (atoms_by_name_ (space w)) n ↔ n = name_ a)) ∧
  (∀ id, atoms_ (space w) !! id = None →
     (∀ t, id ∉ index_set (atoms_by_type_ (space w)) t) ∧
     (∀ n, id ∉ index_set (atoms_by_name_ (space w)) n)).

(** Every entry of the atom map points to an object carrying that id. *)
Definition store_wf (w : World) : Prop :=
  ∀ id p, atoms_ (space w) !! id = Some p →
    ∃ a, heap w !! p = Some a ∧ id_ a = id.

#[global] Instance store_wf_dec w : Decision (store_wf w).
Proof.
  refine (cast_if (decide (map_Forall (λ id p, id_ <$> heap w !! p = Some id)
                             (atoms_ (space w)))));
    unfold store_wf.
  - intros id p Hp. specialize (m id p Hp). simpl in m.
    destruct (heap w !! p) as [a|]; simpl in m; [|done].
    exists a. split; [done|congruence].
  - intros Hwf. apply n. intros id p Hp. simpl.
    destruct (Hwf id p Hp) as (a & -> & <-). done.
Defined.

Definition ids_unique (h : gmap positive Atom) : Prop :=
  ∀ p q a b, h !! p = Some a → h !! q = Some b → id_ a = id_ b → p = q.

(** The three facts that travel together through a history. *)
Definition index_inv (w : World) : Prop :=
  ids_unique (heap w) ∧ store_wf w ∧ index_consistent w.

(** Two heaps that agree on what the indices are keyed by, except that an
    object which is not in the store may have been renamed. *)
Definition same_keys (w : World) (h' : gmap positive Atom) : Prop :=
  ∀ q, match heap w !! q, h' !! q with
       | Some a, Some b =>
         id_ a = id_ b ∧ type_ a = type_ b ∧
         (name_ a = name_ b ∨ ¬ live w q)
       | None, None => True
       | _, _ => False
       end.


(** ** Notions the properties are stated with *)

(** [n] calls of [updateAttentionValues] in a row. *)
Definition updateAttentionValues_n (n : nat) (w : World) : World :=
  Nat.iter n updateAttentionValues w.

(** Resolving a link entry by id through the store: the id is read from
    the entry and looked up with [getAtom]. *)
Definition resolve (w : World) (e : AtomPtr) : option Atom :=
  a ← deref (heap w) e; p ← getAtom (id_ a) (space w); heap w !! p.

(** The world after [removeAtom(id)]. *)
Definition after_removeAtom (id : AtomId) (w : World) : World :=
  set_space (removeAtom (heap w) id (space w)).2 w.

(** The link at [pl] is in the store and lists the entry [e], behind which
    is the atom [A]. *)
Definition link_lists (w : World) (pl : ptr) (L : Atom) (e : AtomPtr)
    (A : Atom) : Prop :=
  heap w !! pl = Some L ∧ atoms_ (space w) !! id_ L = Some pl ∧
  (∃ out, Link_getOutgoing L = Some out ∧ e ∈ out) ∧
  deref (heap w) e = Some A.

(** C2 in the words of the specification: the removal succeeds, the link
    stays as it was, the id no longer resolves, and the entry, being a
    reference by id and not an owning one, does not yield the removed
    object either. *)
Definition no_cascade_by_id (w : World) (pl : ptr) (L : Atom) (e : AtomPtr)
    (A : Atom) : Prop :=
  let w' := after_removeAtom (id_ A) w in
  (removeAtom (heap w) (id_ A) (space w)).1 = true ∧
  (heap w' !! pl = Some L ∧ atoms_ (space w') !! id_ L = Some pl) ∧
  resolve w' e = None ∧
  deref (heap w') e = None.

(** The successor of a phase in the cycle of the microkernel's handlers:
    the value each [process...Phase] writes to [current_phase]. *)
Definition next_phase (p : CognitivePhase) : CognitivePhase :=
  match p with
  | PERCEPTION => ATTENTION
  | ATTENTION => REASONING
  | REASONING => PLANNING
  | PLANNING => EXECUTION
  | EXECUTION => LEARNING
  | LEARNING => REFLECTION
  | REFLECTION => PERCEPTION
  end.

(** The tasks one call of [runCognitiveCycle] pushes. *)
Definition cycle_tasks (short : CognitivePhase → string) (now : Timestamp)
    (id : AgentId) : list CognitiveTask :=
  map (λ phase, make_phase_task (short phase) now id phase ∅) cycle_phases.

(** What the specification asks of the priorities of queued tasks: an
    earlier task of the list has a strictly higher priority. *)
Definition priorities_strictly_decrease (q : list CognitiveTask) : Prop :=
  ∀ i j ti tj, i < j → q !! i = Some ti → q !! j = Some tj →
    (priority tj < priority ti)%Z.

(** The phase an agent is in; [None] for an unknown agent. *)
Definition phase_of (id : AgentId) (s : Sys) : option CognitivePhase :=
  current_phase <$> agent_states_ (kernel s) !! id.

(** Workers that always take the task pushed first. *)
Definition fifo_steps (es : list Env) : list (Env * nat) :=
  map (λ e, (e, 0)) es.

(** What a task run does to the microkernel, whatever the phase: the
    agent's entry is rewritten with the successor phase, the queue and the
    running flag are left alone, one completed task is counted. *)
Definition kernel_step (e : Env) (id : AgentId) (ph : CognitivePhase)
    (k k' : Kernel) : Prop :=
  (∀ st, agent_states_ k !! id = Some st →
     ∃ st', agent_states_ k' = <[id := st']> (agent_states_ k) ∧
            current_phase st' = next_phase ph ∧
            agent_id st' = agent_id st ∧ goals st' = goals st ∧
            beliefs st' = beliefs st) ∧
  (agent_states_ k !! id = None → agent_states_ k' = agent_states_ k) ∧
  task_queue_ k' = task_queue_ k ∧
  running_ k' = running_ k ∧
  agent_callbacks_ k' = agent_callbacks_ k ∧
  stats_ k' = updateStats true (env_elapsed e) (stats_ k).

(** The store holds the same atoms and the heap the same objects. *)
Definition same_atoms (w w' : World) : Prop :=
  atoms_ (space w') = atoms_ (space w) ∧ dom (heap w') = dom (heap w).

(** Does the character occur in the string? *)
Fixpoint mentions (d : ascii) (s : string) : bool :=
  match s with
  | EmptyString => false
  | String c s' => bool_decide (c = d) || mentions d s'
  end.

(** A plan that survives a round trip through the comma-separated context
    variable: not empty, no comma in it. *)
Definition plain_plan (p : string) : Prop :=
  p ≠ "" ∧ mentions ","%char p = false.

(** What [join] appends after its first string. *)
Fixpoint join_tail (separator : string) (rest : list string) : string :=
  match rest with
  | [] => ""
  | r :: rest' => separator +:+ r +:+ join_tail separator rest'
  end.

(** The count the Execution handler leaves in the scratch context. *)
Definition executed_count (c : CognitiveContext) : option string :=
  variables c !! "actions_executed".

(** C3 in the words of the specification: the count the Execution handler
    records is the number of the agent's intentions, capped at 3. *)
Definition execution_capped (e : Env) (t : CognitiveTask) (s : Sys) : Prop :=
  ∀ st, task_phase t = EXECUTION →
    agent_states_ (kernel s) !! task_agent_id t = Some st →
    executed_count (processTask e t s).1
    = Some (to_string_nat (length (intentions st) `min` 3)).

(** C5 in the words of the specification: a trust level outside [0,1]
    makes the operation fail and nothing is stored. *)
Definition trust_level_rejected (uuid : AtomId) (now : Timestamp)
    (id1 id2 : AgentId) (v : Q) (w : World) : Prop :=
  ((v < 0)%Q ∨ (1 < v)%Q) →
  addTrustRelationship uuid now id1 id2 v w = (None, w).

(** ** Concrete scenarios *)

(** A store whose attentional focus is full: twenty distinct ids, pushed
    in the order [f1], [f2], ... *)
Definition twenty_ids : list string :=
  ["f1"; "f2"; "f3"; "f4"; "f5"; "f6"; "f7"; "f8"; "f9"; "f10";
   "f11"; "f12"; "f13"; "f14"; "f15"; "f16"; "f17"; "f18"; "f19"; "f20"].

Definition full_focus_space : AgentSpace :=
  foldl (λ s id, addToAttentionalFocus id s) (AgentSpace_ctor "default_space")
        twenty_ids.

(** Two agent nodes and the addresses [std::make_shared] gives them in an
    empty heap. *)
Definition alice : Atom :=
  Node_ctor "6f1c2a90-0000-4000-8000-000000000001" 0 AGENT_NODE "alice" "".

Definition bob : Atom :=
  Node_ctor "6f1c2a90-0000-4000-8000-000000000002" 0 AGENT_NODE "bob" "".

Definition alice_ptr : ptr := (heap_alloc alice ∅).1.

Definition bob_ptr : ptr := (heap_alloc bob (heap_alloc alice ∅).2).1.

(** An atom is renamed while it is in the store. *)
Definition rename_history : list StoreOp :=
  [OpMake alice; OpAddAtom (Some alice_ptr);
   OpMutate alice_ptr (SetName "alicia")].

(** An atom is added, taken out, renamed and added again; another one
    stays in the store throughout. *)
Definition readd_history : list StoreOp :=
  [OpMake alice; OpAddAtom (Some alice_ptr); OpMake bob;
   OpAddAtom (Some bob_ptr); OpRemoveAtom (id_ alice);
   OpMutate alice_ptr (SetName "alicia"); OpAddAtom (Some alice_ptr);
   OpUpdateAttentionValues].

(** A memory node in an otherwise empty world. *)
Definition memory_uuid : string := "6f1c2a90-0000-4000-8000-00000000000a".

Definition memory_world : World :=
  (addMemoryNode memory_uuid "0a1b2c3d" 0 "first contact" "episodic"
     (empty_world "default_space")).2.

Definition memory_ptr : ptr :=
  (addMemoryNode memory_uuid "0a1b2c3d" 0 "first contact" "episodic"
     (empty_world "default_space")).1.

(** Two agents in the store and a trust link between them. *)
Definition agents_world : World :=
  (make_and_add bob (make_and_add alice (empty_world "default_space")).2).2.

Definition trust_uuid : string := "6f1c2a90-0000-4000-8000-000000000003".

Definition trust_world : World :=
  (addTrustRelationship trust_uuid 0 (id_ alice) (id_ bob) (8 # 10)
     agents_world).2.

Definition trust_ptr : ptr :=
  default 1%positive
    (addTrustRelationship trust_uuid 0 (id_ alice) (id_ bob) (8 # 10)
       agents_world).1.

(** The same world after [removeAtom] of bob's id. *)
Definition trust_world_without_bob : World :=
  set_space (removeAtom (heap trust_world) (id_ bob) (space trust_world)).2
    trust_world.

(** The link object [addTrustRelationship] built in [trust_world]. *)
Definition trust_link : Atom :=
  Atom_setMetadata "trust_level" (to_string_double (8 # 10))
    (Atom_setTruthValue (TruthValue_ctor (8 # 10) (1 # 2))
       (Link_ctor trust_uuid 0 TRUST_LINK [Some alice_ptr; Some bob_ptr] "")).

(** A microkernel with one worker, and the same after agent [a1] with the
    single goal [g1] was registered at time 5. *)
Definition base_kernel : Kernel := Kernel_ctor ASYNCHRONOUS 1 1 0.

Definition a1_kernel : Kernel :=
  (addCognitiveAgent 5 "a1" ["g1"] ∅ base_kernel).2.

Definition a1_state : CognitiveState :=
  (addCognitiveAgent 5 "a1" ["g1"] ∅ base_kernel).1.

(** The microkernel started, one cycle of [a1] scheduled on an empty
    queue, over an empty store. *)
Definition a1_short (phase : CognitivePhase) : string :=
  "0000000" +:+ to_string_nat (CognitivePhase_to_int phase).

Definition running_kernel : Kernel := start 6 a1_kernel.

Definition cycle_sys : Sys :=
  {| world := empty_world "default_space";
     kernel := runCognitiveCycle a1_short 7 "a1" running_kernel |}.

(** The environment of the [n]-th task run. *)
Definition env_at (n : nat) : Env :=
  {| env_now := 10 + Z.of_nat n;
     env_uuid := "6f1c2a90-0000-4000-8000-0000000000f" +:+ to_string_nat n;
     env_short := "f00000" +:+ to_string_nat n;
     env_elapsed := 1 |}.

Definition seven_envs : list Env := map env_at [0; 1; 2; 3; 4; 5; 6].

(** A drain in the order Perception, Reasoning, Learning, Reflection,
    Execution, Attention, Planning: an order in which a binary heap can
    hand out seven elements of equal priority.  Each number is the
    position, in the remaining queue, of the task dequeued. *)
Definition out_of_order_steps : list (Env * nat) :=
  zip seven_envs [0; 1; 3; 3; 2; 0; 0].

(** An agent that holds five intentions, and two Execution tasks for it:
    one as [runCognitiveCycle] makes it, one whose parameters carry four
    plans. *)
Definition five_intentions : list string :=
  ["plan_a"; "plan_b"; "plan_c"; "plan_d"; "plan_e"].

Definition busy_sys : Sys :=
  {| world := empty_world "default_space";
     kernel :=
       (updateCognitiveState 8 "a1"
          (set_intentions five_intentions
             (set_current_phase EXECUTION a1_state)) running_kernel).2 |}.

Definition execution_task : CognitiveTask :=
  make_phase_task "00000004" 9 "a1" EXECUTION ∅.

Definition execution_task_four_plans : CognitiveTask :=
  make_phase_task "00000004" 9 "a1" EXECUTION
    {[ "action_plans" := "plan_a,plan_b,plan_c,plan_d" ]}.

(** ** agentspace.cpp: further queries *)

(** [AgentSpace::findAtoms]: by type alone when the name is empty, else the
    atoms of that name filtered by type. *)
Definition findAtoms (type : AtomType) (name : string) (w : World)
  : list ptr :=
  if decide (name = "") then getAtomsByType type (space w)
  else filter (λ p, type_ <$> heap w !! p = Some type)
              (getAtomsByName name (space w)).

(** [Link::getArity]; 0 for an atom that is no Link. *)
Definition Link_getArity (a : Atom) : nat :=
  match payload_ a with LinkData out => length out | _ => 0 end.

(** [AgentSpace::generateUniqueNodeName].  The loop tries [base], then
    [base_1], [base_2], ... until a name is met under which
    [getAtomsByName] finds nothing.  [fuel] bounds the number of names
    tried; [None] means the bound was reached.  The counter is an [int] in
    the source and a natural number here. *)
Fixpoint unique_name_go (fuel : nat) (base : string) (counter : nat)
    (candidate : string) (s : AgentSpace) : option string :=
  match fuel with
  | O => None
  | S fuel' =>
    match getAtomsByName candidate s with
    | [] => Some candidate
    | _ :: _ =>
      unique_name_go fuel' base (S counter)
        (base +:+ "_" +:+ to_string_nat counter) s
    end
  end.

Definition generateUniqueNodeName (fuel : nat) (base : string)
    (s : AgentSpace) : option string :=
  unique_name_go fuel base 1 base s.

(** [AgentSpace::addAgentNode]; [None] when the name search ran out of
    fuel. *)
Definition addAgentNode (fuel : nat) (uuid : AtomId) (now : Timestamp)
    (name : string) (capabilities : list string) (w : World)
  : option (ptr * World) :=
  agent_name ← generateUniqueNodeName fuel name (space w);
  Some (make_and_add
          (Atom_setMetadata "capabilities" (join capabilities ",")
             (Atom_setMetadata "creation_time" (timestampToString now)
                (Atom_setMetadata "type" "cognitive_agent"
                   (Node_ctor uuid now AGENT_NODE agent_name "")))) w).

(** ** Notions of the further properties *)

(** The names [generateUniqueNodeName] tries, in order: [base], [base_1],
    [base_2], ... *)
Definition candidate_name (base : string) (k : nat) : string :=
  match k with
  | O => base
  | S _ => base +:+ "_" +:+ to_string_nat k
  end.

(** The ranges the comments of [AttentionValue] give its fields, and the
    range that survives decay. *)
Definition attention_in_range (av : AttentionValue) : Prop :=
  (-1 <= sti av <= 1)%Q ∧ (-1 <= lti av <= 1)%Q ∧ (0 <= vlti av <= 1)%Q.

Definition attention_bounded (av : AttentionValue) : Prop :=
  (-1 <= sti av <= 1)%Q ∧ (-1 <= lti av <= 1)%Q ∧ (-1 <= vlti av <= 1)%Q.

(** The string without its last character when that is the delimiter:
    [std::getline] yields no token for what follows a final delimiter. *)
Fixpoint without_final_delimiter (d : ascii) (s : string) : string :=
  match s with
  | EmptyString => ""
  | String c s' =>
    match s' with
    | EmptyString => if decide (c = d) then "" else s
    | String _ _ => String c (without_final_delimiter d s')
    end
  end.

(** A string of white space only, and a string that does not begin with
    white space. *)
Fixpoint all_space (s : string) : bool :=
  match s with
  | EmptyString => true
  | String c s' => is_space c && all_space s'
  end.

Definition no_leading_space (s : string) : Prop :=
  match s with
  | EmptyString => True
  | String c _ => is_space c = false
  end.

(** A string of decimal digits only, and the number it denotes when read
    after the digits of [acc]. *)
Fixpoint all_digits (s : string) : bool :=
  match s with
  | EmptyString => true
  | String c s' => is_digit c && all_digits s'
  end.

Fixpoint digits_value (s : string) (acc : Z) : Z :=
  match s with
  | EmptyString => acc
  | String c s' => digits_value s' (10 * acc + digit_value c)%Z
  end.

(** ** utils.cpp: MathUtils and ValidationUtils *)

(** [std::min] and [std::max] on doubles. *)
Definition std_min (a b : Q) : Q := if Qlt_le_dec b a then b else a.
Definition std_max (a b : Q) : Q := if Qlt_le_dec a b then b else a.

(** [MathUtils::clamp]. *)
Definition MathUtils_clamp (value min_val max_val : Q) : Q :=
  std_max min_val (std_min value max_val).

(** [ValidationUtils::isValidTrustLevel]. *)
Definition isValidTrustLevel (trust_level : Q) : bool :=
  Qle_bool 0 trust_level && Qle_bool trust_level 1.

(** ** cognitive_agent.h and cognitive_agent.cpp *)

(** [struct TrustRelationship]. *)
Record TrustRelationship := mkTrustRelationship {
  tr_target_agent : AgentId;
  tr_trust_level : Q;
  tr_confidence : Q;
  tr_interaction_count : nat;
  tr_last_interaction : Timestamp;
  tr_trust_history : list Q
}.

(** [TrustRelationship(target, level)]: the level is stored as given. *)
Definition TrustRelationship_ctor (now : Timestamp) (target : AgentId)
    (level : Q) : TrustRelationship :=
  {| tr_target_agent := target; tr_trust_level := level; tr_confidence := 0;
     tr_interaction_count := 0; tr_last_interaction := now;
     tr_trust_history := [] |}.

(** [TrustRelationship::updateTrust]. *)
Definition updateTrust (now : Timestamp) (new_level : Q)
    (r : TrustRelationship) : TrustRelationship :=
  {| tr_target_agent := tr_target_agent r;
     tr_trust_level := MathUtils_clamp new_level 0 1;
     tr_confidence := std_min 1 (tr_confidence r + (1 # 10))%Q;
     tr_interaction_count := S (tr_interaction_count r);
     tr_last_interaction := now;
     tr_trust_history := tr_trust_history r ++ [tr_trust_level r] |}.

(** The accumulation loops of [getTrustTrend]. *)
Definition sum_Q (l : list Q) : Q := foldl Qplus 0%Q l.

(** [TrustRelationship::getTrustTrend]: the mean of the later half of the
    history minus the mean of the earlier half. *)
Definition getTrustTrend (r : TrustRelationship) : Q :=
  let h := tr_trust_history r in
  if decide (length h < 2)%nat then 0%Q
  else
    let half := (length h / 2)%nat in
    let older_avg := (sum_Q (take half h) / inject_Z (Z.of_nat half))%Q in
    let recent_avg :=
      (sum_Q (drop half h) / inject_Z (Z.of_nat (length h - half)))%Q in
    (recent_avg - older_avg)%Q.

(** The members of [CognitiveAgent] that its goal, belief and trust
    methods work on.  The agent shares the store and the microkernel with
    its makers: the methods act on the agent and on the system. *)
Record CognitiveAgent := mkCognitiveAgent {
  agent_id_ : AgentId;
  agent_name_ : string;
  goals_ : list string;
  beliefs_ : gmap string string;
  trust_relationships_ : gmap string TrustRelationship
}.

Definition set_goals_ (g : list string) (ag : CognitiveAgent) :=
  {| agent_id_ := agent_id_ ag; agent_name_ := agent_name_ ag; goals_ := g;
     beliefs_ := beliefs_ ag;
     trust_relationships_ := trust_relationships_ ag |}.

Definition set_beliefs_ (b : gmap string string) (ag : CognitiveAgent) :=
  {| agent_id_ := agent_id_ ag; agent_name_ := agent_name_ ag;
     goals_ := goals_ ag; beliefs_ := b;
     trust_relationships_ := trust_relationships_ ag |}.

Definition set_trust_relationships_ (t : gmap string TrustRelationship)
    (ag : CognitiveAgent) :=
  {| agent_id_ := agent_id_ ag; agent_name_ := agent_name_ ag;
     goals_ := goals_ ag; beliefs_ := beliefs_ ag;
     trust_relationships_ := t |}.

(** [CognitiveAgent::addGoal]; [uuid] and [now] are the id and the time
    stamp of the goal node, [now'] the clock reading in the microkernel. *)
Definition CognitiveAgent_addGoal (uuid : AtomId) (now now' : Timestamp)
    (goal : string) (priority : Q) (ag : CognitiveAgent) (s : Sys)
  : CognitiveAgent * Sys :=
  if decide (goal ∈ goals_ ag) then (ag, s)
  else
    (set_goals_ (goals_ ag ++ [goal]) ag,
     {| world := (addGoalNode uuid now goal priority (world s)).2;
        kernel := addGoal now' (agent_id_ ag) goal (kernel s) |}).

(** [CognitiveAgent::updateBelief]. *)
Definition CognitiveAgent_updateBelief (now : Timestamp) (key value : string)
    (ag : CognitiveAgent) (s : Sys) : CognitiveAgent * Sys :=
  (set_beliefs_ (<[key := value]> (beliefs_ ag)) ag,
   set_kernel (updateBelief now (agent_id_ ag) key value (kernel s)) s).

(** [CognitiveAgent::establishTrust]: the store is asked for a trust link
    between the agent's own id and the target's. *)
Definition CognitiveAgent_establishTrust (uuid : AtomId) (now : Timestamp)
    (target_agent : AgentId) (trust_level : Q) (ag : CognitiveAgent)
    (w : World) : CognitiveAgent * World :=
  if isValidTrustLevel trust_level then
    (set_trust_relationships_
       (<[target_agent := TrustRelationship_ctor now target_agent trust_level]>
          (trust_relationships_ ag)) ag,
     (addTrustRelationship uuid now (agent_id_ ag) target_agent trust_level
        w).2)
  else (ag, w).

(** [CognitiveAgent::getTrustLevel]. *)
Definition CognitiveAgent_getTrustLevel (target_agent : AgentId)
    (ag : CognitiveAgent) : Q :=
  match trust_relationships_ ag !! target_agent with
  | Some r => tr_trust_level r
  | None => 0%Q
  end.

(** An agent and the microkernel agree on the agent's goals and
    beliefs. *)
Definition agent_in_sync (ag : CognitiveAgent) (k : Kernel) : Prop :=
  ∃ st, agent_states_ k !! agent_id_ ag = Some st ∧
        goals st = goals_ ag ∧ beliefs st = beliefs_ ag.

(** Every number of the list lies in [0,1]. *)
Definition all_in_unit (l : list Q) : Prop :=
  Forall (λ x, (0 <= x <= 1)%Q) l.

(** An agent that trusts nobody yet, named like [a1]. *)
Definition a1_agent : CognitiveAgent :=
  {| agent_id_ := "a1"; agent_name_ := "a1"; goals_ := ["g1"];
     beliefs_ := ∅; trust_relationships_ := ∅ |}.

(** The tasks the workers take when they dequeue at the given positions,
    one after the other, each position counted in the queue that is
    left. *)
Fixpoint dequeued (q : list CognitiveTask) (positions : list nat)
  : option (list CognitiveTask) :=
  match positions with
  | [] => Some []
  | i :: rest =>
    t ← q !! i; ts ← dequeued (delete i q) rest; Some (t :: ts)
  end.

(** The positions at which a binary heap hands out seven tasks of equal
    priority pushed in the order of the phases. *)
Definition heap_positions : list nat := [0; 1; 3; 3; 2; 0; 0].

(** [name] is the first free one of [base], [base_1], [base_2], ...: the
    name asked for when no atom is listed under it, else the name with the
    least suffix under which [getAtomsByName] lists nothing. *)
Definition first_free_name (base : string) (s : AgentSpace) (name : string)
  : Prop :=
  (name = base ∧ getAtomsByName base s = []) ∨
  (∃ k, (1 ≤ k)%nat ∧
        name = base +:+ "_" +:+ to_string_nat k ∧
        getAtomsByName base s ≠ [] ∧
        (∀ i, (1 ≤ i < k)%nat →
              getAtomsByName (base +:+ "_" +:+ to_string_nat i) s ≠ []) ∧
        getAtomsByName (base +:+ "_" +:+ to_string_nat k) s = []).

(** * Properties *)

(** ** Attentional focus *)

Lemma focus_erase_not_elem id f : id ∉ focus_erase id f.
Proof. unfold focus_erase. rewrite list_elem_of_filter. by intros [? _]. Qed.


Lemma focus_erase_length id f :
  (length (focus_erase id f) ≤ length f)%nat.
Proof. apply length_filter. Qed.

Lemma focus_erase_id id f : id ∉ f → focus_erase id f = f.
Proof.
  unfold focus_erase. induction f as [|x f IH]; [done|].
  rewrite not_elem_of_cons. intros [Hx Hf].
  rewrite filter_cons_True by done. by rewrite IH.
Qed.






Lemma removeAtom_focus h id s :
  attentional_focus_ (removeAtom h id s).2 = attentional_focus_ s.
Proof. unfold removeAtom. by repeat case_match. Qed.



Lemma addToAttentionalFocus_last id s :
  last (attentional_focus_ (addToAttentionalFocus id s)) = Some id.
Proof.
  unfold addToAttentionalFocus. simpl.
  case_decide as Hbig; [|by rewrite last_snoc].
  destruct (focus_erase id (attentional_focus_ s)) as [|x [|y l]] eqn:E.
  - simpl in Hbig. unfold max_focus_size in Hbig. lia.
  - simpl in Hbig. unfold max_focus_size in Hbig. lia.
  - change (tail ((x :: y :: l) ++ [id])) with ((y :: l) ++ [id]).
    by rewrite last_snoc.
Qed.







(** ** Index consistency *)

Section index_sets.
Context {K : Type} `{Countable K}.
Implicit Types (m : gmap K (gset string)) (k : K) (id : string).

Lemma elem_of_index_insert m k id k' id' :
  id' ∈ index_set (index_insert k id m) k'
  ↔ (id' = id ∧ k' = k) ∨ id' ∈ index_set m k'.
Proof.
  unfold index_insert, index_set at 1.
  destruct (decide (k' = k)) as [->|Hne].
  - rewrite lookup_insert_eq. simpl. set_solver.
  - rewrite lookup_insert_ne by done. fold (index_set m k'). naive_solver.
Qed.

Lemma elem_of_index_erase m k id k' id' :
  id' ∈ index_set (index_erase k id m) k'
  ↔ id' ∈ index_set m k' ∧ ¬ (id' = id ∧ k' = k).
Proof.
  unfold index_erase, index_set at 1.
  destruct (decide (k' = k)) as [->|Hne].
  - rewrite lookup_insert_eq. simpl. set_solver.
  - rewrite lookup_insert_ne by done. fold (index_set m k'). naive_solver.
Qed.

Lemma index_set_empty k : index_set (∅ : gmap K (gset string)) k = ∅.
Proof. unfold index_set. by rewrite lookup_empty. Qed.
End index_sets.

Lemma index_inv_same_keys w h' :
  index_inv w → same_keys w h' → index_inv (set_heap h' w).
Proof.
  intros (Hun & Hwf & Hlive & Hdead) Hsame.
  unfold index_inv, ids_unique, store_wf, index_consistent. split_and!.
  - intros p q a b Hp Hq Hid. simpl in *.
    pose proof (Hsame p) as Hsp. pose proof (Hsame q) as Hsq.
    rewrite Hp in Hsp. rewrite Hq in Hsq.
    destruct (heap w !! p) as [a0|] eqn:Ep; [|done].
    destruct (heap w !! q) as [b0|] eqn:Eq; [|done].
    destruct Hsp as (Hia & _). destruct Hsq as (Hib & _).
    apply (Hun p q a0 b0); [done..|congruence].
  - intros id p Hp. simpl in *.
    destruct (Hwf id p Hp) as (a & Ha & Hid).
    pose proof (Hsame p) as Hsp. rewrite Ha in Hsp.
    destruct (h' !! p) as [b|]; [|done].
    exists b. split; [done|]. destruct Hsp as (? & _). congruence.
  - intros id p b Hp Hb. simpl in *.
    destruct (Hwf id p Hp) as (a & Ha & Hid).
    pose proof (Hsame p) as Hsp. rewrite Ha, Hb in Hsp.
    destruct Hsp as (Hi & Ht & Hn).
    destruct Hn as [Hn|Hn].
    + rewrite <- Ht, <- Hn. by apply Hlive with p.
    + exfalso. apply Hn. unfold live. by rewrite Ha, Hid.
  - done.
Qed.

Lemma same_keys_heap_update w p f :
  (∀ a, id_ (f a) = id_ a ∧ type_ (f a) = type_ a ∧
        (name_ (f a) = name_ a ∨ ¬ live w p)) →
  same_keys w (heap_update p f (heap w)).
Proof.
  intros Hf q. unfold heap_update.
  destruct (heap w !! p) as [a|] eqn:Ep.
  - destruct (decide (q = p)) as [->|Hne].
    + rewrite Ep, lookup_insert_eq. destruct (Hf a) as (-> & -> & [->|?]); auto.
    + rewrite lookup_insert_ne by done. destruct (heap w !! q); auto.
  - destruct (heap w !! q); auto.
Qed.

Lemma live_set_heap w h' p :
  same_keys w h' → live (set_heap h' w) p → live w p.
Proof.
  intros Hsame Hl. unfold live in *. simpl in *.
  pose proof (Hsame p) as Hsp.
  destruct (h' !! p) as [b|]; [|done].
  destruct (heap w !! p) as [a|] eqn:Ea; [|done].
  destruct Hsp as (-> & _). done.
Qed.

Lemma same_keys_trans w h1 h2 :
  same_keys w h1 → same_keys (set_heap h1 w) h2 → same_keys w h2.
Proof.
  intros H1 H2 q. pose proof (H1 q) as H1q. pose proof (H2 q) as H2q.
  simpl in *.
  destruct (heap w !! q) as [a|] eqn:Ea, (h1 !! q) as [b|] eqn:Eb,
    (h2 !! q) as [c|]; try done.
  destruct H1q as (Hi1 & Ht1 & Hn1). destruct H2q as (Hi2 & Ht2 & Hn2).
  split_and!; [congruence..|].
  destruct Hn1 as [Hn1|?]; [|by right].
  destruct Hn2 as [Hn2|Hn2]; [left; congruence|]. right.
  intros Hl. apply Hn2. unfold live in *. simpl.
  rewrite Ea in Hl. rewrite Eb. by rewrite <- Hi1.
Qed.

Lemma same_keys_refl w : same_keys w (heap w).
Proof. intros q. destruct (heap w !! q); auto. Qed.

Lemma same_keys_decay_fold w ps :
  same_keys w (foldl (λ h p, heap_update p decay_atom h) (heap w) ps).
Proof.
  revert w. induction ps as [|p ps IH]; intros w; [apply same_keys_refl|].
  simpl.
  apply same_keys_trans with (heap_update p decay_atom (heap w)).
  - apply same_keys_heap_update. intros a. simpl. auto.
  - apply (IH (set_heap (heap_update p decay_atom (heap w)) w)).
Qed.

Lemma index_inv_make a w :
  map_Forall (λ _ b, id_ b ≠ id_ a) (heap w) →
  index_inv w → index_inv (apply_op (OpMake a) w).
Proof.
  intros Hfresh (Hun & Hwf & Hlive & Hdead).
  assert (heap w !! fresh (dom (heap w)) = None) as Hnone.
  { apply not_elem_of_dom. apply is_fresh. }
  unfold index_inv, ids_unique, store_wf, index_consistent. simpl.
  split_and!.
  - intros p q x y Hp Hq Hid.
    apply lookup_insert_Some in Hp as [[<- <-]|[Hnp Hp]];
      apply lookup_insert_Some in Hq as [[<- <-]|[Hnq Hq]]; try done.
    + by destruct (Hfresh _ _ Hq).
    + by destruct (Hfresh _ _ Hp).
    + by apply (Hun p q x y).
  - intros id p Hp. destruct (Hwf id p Hp) as (x & Hx & Hid).
    exists x. split; [|done].
    rewrite lookup_insert_ne; [done|]. intros <-. congruence.
  - intros id p x Hp Hx. destruct (Hwf id p Hp) as (y & Hy & Hid).
    rewrite lookup_insert_ne in Hx; [|intros <-; congruence].
    by apply Hlive with p.
  - done.
Qed.

Lemma index_inv_addAtom p w :
  index_inv w → index_inv (apply_op (OpAddAtom p) w).
Proof.
  intros (Hun & Hwf & Hlive & Hdead).
  destruct p as [p|]; [|done]. simpl. unfold addAtom.
  destruct (heap w !! p) as [a|] eqn:Ea; [|done].
  unfold index_inv, ids_unique, store_wf, index_consistent. simpl.
  assert (∀ t, id_ a ∈ index_set (atoms_by_type_ (space w)) t → t = type_ a)
    as Htype.
  { intros t Hin. destruct (atoms_ (space w) !! id_ a) as [q|] eqn:Eq.
    - destruct (Hwf _ _ Eq) as (b & Hb & Hid).
      assert (q = p) as -> by (by apply (Hun q p b a)).
      by apply (Hlive (id_ a) p a).
    - by destruct (proj1 (Hdead _ Eq) t). }
  assert (∀ n, id_ a ∈ index_set (atoms_by_name_ (space w)) n → n = name_ a)
    as Hname.
  { intros n Hin. destruct (atoms_ (space w) !! id_ a) as [q|] eqn:Eq.
    - destruct (Hwf _ _ Eq) as (b & Hb & Hid).
      assert (q = p) as -> by (by apply (Hun q p b a)).
      by apply (Hlive (id_ a) p a).
    - by destruct (proj2 (Hdead _ Eq) n). }
  split_and!; [done| | |].
  - intros id q Hq. apply lookup_insert_Some in Hq as [[<- <-]|[Hne Hq]].
    + by exists a.
    + by apply Hwf.
  - intros id q b Hq Hb.
    apply lookup_insert_Some in Hq as [[<- <-]|[Hne Hq]].
    + assert (b = a) as -> by congruence.
      split; intros k; rewrite elem_of_index_insert; naive_solver.
    + destruct (Hlive id q b Hq Hb) as [Ht Hn].
      split; intros k; rewrite elem_of_index_insert; naive_solver.
  - intros id Hid. apply lookup_insert_None in Hid as [Hid Hne].
    destruct (Hdead id Hid) as [Ht Hn].
    split; intros k; rewrite elem_of_index_insert; naive_solver.
Qed.

Lemma index_inv_removeAtom id w :
  index_inv w → index_inv (apply_op (OpRemoveAtom id) w).
Proof.
  intros (Hun & Hwf & Hlive & Hdead). simpl. unfold removeAtom.
  destruct (atoms_ (space w) !! id) as [p|] eqn:Ep; [|done].
  destruct (Hwf _ _ Ep) as (a & Ha & Hid). rewrite Ha.
  destruct (Hlive id p a Ep Ha) as [Ht Hn].
  unfold index_inv, ids_unique, store_wf, index_consistent. simpl.
  split_and!; [done| | |].
  - intros id' q Hq. apply lookup_delete_Some in Hq as [Hne Hq].
    by apply Hwf.
  - intros id' q b Hq Hb. apply lookup_delete_Some in Hq as [Hne Hq].
    destruct (Hlive id' q b Hq Hb) as [Ht' Hn'].
    split; intros k; rewrite elem_of_index_erase; naive_solver.
  - intros id' Hid'. apply lookup_delete_None in Hid' as [<-|Hid'].
    + split; intros k; rewrite elem_of_index_erase, Hid; naive_solver.
    + destruct (Hdead id' Hid') as [Ht' Hn'].
      split; intros k; rewrite elem_of_index_erase; naive_solver.
Qed.

Lemma index_inv_mutate p m w :
  op_disciplined w (OpMutate p m) →
  index_inv w → index_inv (apply_op (OpMutate p m) w).
Proof.
  intros Hd Hinv. simpl. apply index_inv_same_keys; [done|].
  apply same_keys_heap_update. intros a.
  destruct m; simpl in *; auto.
Qed.

Lemma index_inv_space_focus w f :
  index_inv w → index_inv (set_space (set_attentional_focus f (space w)) w).
Proof. by intros (Hun & Hwf & Hic). Qed.

Lemma index_inv_clear w : index_inv w → index_inv (apply_op OpClear w).
Proof.
  intros (Hun & Hwf & Hic).
  unfold index_inv, ids_unique, store_wf, index_consistent. simpl.
  split_and!; [done|..].
  - intros id p Hp. by rewrite lookup_empty in Hp.
  - intros id p a Hp. by rewrite lookup_empty in Hp.
  - intros id _. split; intros k; rewrite index_set_empty; set_solver.
Qed.

Lemma index_inv_apply_op op w :
  op_disciplined w op → index_inv w → index_inv (apply_op op w).
Proof.
  intros Hd Hinv. destruct op.
  - by apply index_inv_make.
  - by apply index_inv_addAtom.
  - by apply index_inv_removeAtom.
  - by apply index_inv_mutate.
  - by apply index_inv_space_focus.
  - by apply index_inv_space_focus.
  - simpl. unfold updateAttentionValues.
    apply index_inv_same_keys; [done|apply same_keys_decay_fold].
  - by apply index_inv_clear.
Qed.

Lemma index_inv_empty name : index_inv (empty_world name).
Proof.
  unfold index_inv, ids_unique, store_wf, index_consistent. simpl.
  split_and!.
  - intros p q a b Hp. by rewrite lookup_empty in Hp.
  - intros id p Hp. by rewrite lookup_empty in Hp.
  - intros id p a Hp. by rewrite lookup_empty in Hp.
  - intros id _. split; intros k; rewrite index_set_empty; set_solver.
Qed.

Lemma index_inv_run_ops ops w :
  disciplined w ops → index_inv w → index_inv (run_ops ops w).
Proof.
  revert w. induction ops as [|op ops IH]; intros w Hd Hinv; [done|].
  destruct Hd as [Hop Hrest]. simpl. apply IH; [done|].
  by apply index_inv_apply_op.
Qed.

(** C6, as stated, fails: [Atom::setName] writes the name of the object
    and knows nothing of the store, so after a rename the id of a live
    atom sits in the name-index set of the old name, and removing the atom
    afterwards erases the id from the set of the new name only. *)
Lemma C6_setName_counterexample :
  ¬ index_consistent (run_ops rename_history (empty_world "default_space"))
  ∧ ¬ index_consistent
        (run_ops (rename_history ++ [OpRemoveAtom (id_ alice)])
           (empty_world "default_space")).
Proof.
  split.
  - intros [Hlive _].
    destruct (Hlive (id_ alice) alice_ptr (Atom_setName "alicia" alice))
      as [_ Hname]; [reflexivity..|].
    assert ("alice" = "alicia") as Habs; [|discriminate Habs].
    apply Hname. apply (bool_decide_unpack _). vm_compute. exact I.
  - intros [_ Hdead].
    destruct (Hdead (id_ alice)) as [_ Hname]; [reflexivity|].
    apply (Hname "alice"). apply (bool_decide_unpack _). vm_compute. exact I.
Qed.

(** C6, amended.  Along every history of store operations in which new
    objects get unused ids and no atom is renamed while it is in the
    store, each live atom's id is in exactly the type-index set of its
    type and the name-index set of its name, and an id that is not in the
    store is in no index set. *)
Theorem C6_index_consistency name ops :
  disciplined (empty_world name) ops →
  index_consistent (run_ops ops (empty_world name)).
Proof.
  intros Hd. by apply index_inv_run_ops, index_inv_empty.
Qed.

Lemma C6_index_consistency_witness :
  index_consistent (run_ops readd_history (empty_world "default_space")).
Proof.
  apply (C6_index_consistency "default_space" readd_history).
  apply (bool_decide_unpack _). vm_compute. exact I.
Defined.

(** ** Attention decay *)

Lemma heap_update_lookup p f (h : gmap positive Atom) q :
  heap_update p f h !! q = if decide (q = p) then f <$> h !! q else h !! q.
Proof.
  unfold heap_update. destruct (h !! p) as [a|] eqn:Ea.
  - case_decide as Hq; [subst; by rewrite lookup_insert_eq, Ea|].
    by rewrite lookup_insert_ne.
  - case_decide as Hq; [subst; by rewrite Ea|done].
Qed.

Lemma fold_heap_update_lookup f ps (h : gmap positive Atom) q :
  NoDup ps →
  foldl (λ h p, heap_update p f h) h ps !! q
  = if decide (q ∈ ps) then f <$> h !! q else h !! q.
Proof.
  intros Hnd. revert h. induction Hnd as [|p ps Hp Hnd IH]; intros h; simpl.
  - destruct (decide (q ∈ [])) as [Hin|_]; [|done].
    by apply elem_of_nil in Hin.
  - rewrite IH, heap_update_lookup.
    destruct (decide (q = p)) as [->|Hne].
    + destruct (decide (p ∈ ps)) as [?|_]; [done|].
      destruct (decide (p ∈ p :: ps)) as [_|Hn]; [done|].
      destruct Hn. left.
    + destruct (decide (q ∈ ps)) as [Hin|Hnin];
        destruct (decide (q ∈ p :: ps)) as [Hin'|Hnin']; try done.
      * destruct Hnin'. by right.
      * by apply elem_of_cons in Hin' as [?|?].
Qed.

Lemma fold_heap_update_ids f ps (h : gmap positive Atom) q :
  (∀ a, id_ (f a) = id_ a) →
  id_ <$> foldl (λ h p, heap_update p f h) h ps !! q = id_ <$> h !! q.
Proof.
  intros Hf. revert h. induction ps as [|p ps IH]; intros h; [done|].
  simpl. rewrite IH, heap_update_lookup.
  case_decide; [|done]. destruct (h !! q); simpl; [|done]. by rewrite Hf.
Qed.

Lemma store_wf_same_ids w h' :
  store_wf w → (∀ q, id_ <$> h' !! q = id_ <$> heap w !! q) →
  store_wf (set_heap h' w).
Proof.
  intros Hwf Hids id p Hp. simpl in *.
  destruct (Hwf id p Hp) as (a & Ha & Hid).
  specialize (Hids p). rewrite Ha in Hids.
  destruct (h' !! p) as [b|]; [|done].
  exists b. split; [done|]. simpl in Hids. congruence.
Qed.

Lemma store_wf_apply_op op w : store_wf w → store_wf (apply_op op w).
Proof.
  intros Hwf. destruct op; simpl.
  - intros id p Hp. destruct (Hwf id p Hp) as (x & Hx & Hid).
    exists x. split; [|done]. simpl. rewrite lookup_insert_ne; [done|].
    intros <-. apply (is_fresh (dom (heap w))). by apply elem_of_dom.
  - destruct p as [p|]; [|done]. unfold addAtom.
    destruct (heap w !! p) as [a|] eqn:Ea; [|done].
    intros id q Hq. simpl in *.
    apply lookup_insert_Some in Hq as [[<- <-]|[Hne Hq]].
    + by exists a.
    + by apply Hwf.
  - unfold removeAtom.
    destruct (atoms_ (space w) !! id) as [p|] eqn:Ep; [|done].
    destruct (heap w !! p); intros id' q Hq; simpl in *;
      apply lookup_delete_Some in Hq as [Hne Hq]; by apply Hwf.
  - apply store_wf_same_ids; [done|]. intros q.
    rewrite heap_update_lookup. case_decide; [|done].
    destruct (heap w !! q); simpl; [|done]. by destruct m.
  - done.
  - done.
  - apply store_wf_same_ids; [done|]. intros q.
    by apply fold_heap_update_ids.
  - intros id p Hp. simpl in Hp. by rewrite lookup_empty in Hp.
Qed.

Lemma store_wf_run_ops ops w : store_wf w → store_wf (run_ops ops w).
Proof.
  revert w. induction ops as [|op ops IH]; intros w Hwf; [done|].
  simpl. by apply IH, store_wf_apply_op.
Qed.

Lemma store_wf_empty name : store_wf (empty_world name).
Proof. intros id p Hp. simpl in Hp. by rewrite lookup_empty in Hp. Qed.

Lemma getAtoms_NoDup w : store_wf w → NoDup (getAtoms (space w)).
Proof.
  intros Hwf. unfold getAtoms.
  apply NoDup_fmap_2_strong; [|apply NoDup_map_to_list].
  intros [i p] [j q] Hi%elem_of_map_to_list Hj%elem_of_map_to_list Hpq.
  simpl in *. subst q.
  destruct (Hwf i p Hi) as (a & Ha & <-).
  destruct (Hwf j p Hj) as (b & Hb & <-). congruence.
Qed.

Lemma elem_of_getAtoms s p :
  p ∈ getAtoms s ↔ ∃ id, atoms_ s !! id = Some p.
Proof.
  unfold getAtoms. rewrite list_elem_of_fmap. split.
  - intros ([i q] & -> & Hin%elem_of_map_to_list). by exists i.
  - intros (i & Hi). exists (i, p). split; [done|].
    by apply elem_of_map_to_list.
Qed.

Lemma updateAttentionValues_lookup w p :
  store_wf w →
  heap (updateAttentionValues w) !! p
  = if decide (p ∈ getAtoms (space w)) then decay_atom <$> heap w !! p
    else heap w !! p.
Proof.
  intros Hwf. unfold updateAttentionValues. simpl.
  apply fold_heap_update_lookup. by apply getAtoms_NoDup.
Qed.

Lemma updateAttentionValues_live w id p a :
  store_wf w → atoms_ (space w) !! id = Some p → heap w !! p = Some a →
  heap (updateAttentionValues w) !! p = Some (decay_atom a).
Proof.
  intros Hwf Hp Ha. rewrite updateAttentionValues_lookup by done.
  rewrite decide_True; [by rewrite Ha|].
  apply elem_of_getAtoms. by exists id.
Qed.

Lemma updateAttentionValues_n_live n w id p a :
  store_wf w → atoms_ (space w) !! id = Some p → heap w !! p = Some a →
  store_wf (updateAttentionValues_n n w) ∧
  space (updateAttentionValues_n n w) = space w ∧
  heap (updateAttentionValues_n n w) !! p = Some (Nat.iter n decay_atom a).
Proof.
  intros Hwf Hp Ha. induction n as [|n (IHwf & IHs & IHh)]; [done|].
  change (updateAttentionValues_n (S n) w)
    with (updateAttentionValues (updateAttentionValues_n n w)).
  split_and!.
  - by apply (store_wf_apply_op OpUpdateAttentionValues).
  - done.
  - apply updateAttentionValues_live with id; [done| |done].
    by rewrite IHs.
Qed.

Lemma attention_iter_decay_atom n a :
  attention_value_ (Nat.iter n decay_atom a)
  = Nat.iter n decay (attention_value_ a).
Proof. induction n as [|n IH]; [done|]. simpl. by rewrite IH. Qed.

Lemma sti_decay av : sti (decay av) = (sti av * (99 # 100))%Q.
Proof. reflexivity. Qed.

Lemma sti_iter_decay n av :
  (sti (Nat.iter n decay av) == sti av * (99 # 100) ^ Z.of_nat n)%Q.
Proof.
  induction n as [|n IH].
  - simpl. ring.
  - rewrite Nat2Z.inj_succ. unfold Z.succ.
    rewrite Qpower_plus by discriminate.
    change (Nat.iter (S n) decay av) with (decay (Nat.iter n decay av)).
    rewrite sti_decay, IH. simpl. ring.
Qed.

Lemma Qabs_sti_decay av :
  (Qabs (sti (decay av)) == Qabs (sti av) * (99 # 100))%Q.
Proof. rewrite sti_decay, Qabs_Qmult. reflexivity. Qed.

Lemma Qabs_sti_decay_le av : (Qabs (sti (decay av)) <= Qabs (sti av))%Q.
Proof.
  rewrite Qabs_sti_decay. pose proof (Qabs_nonneg (sti av)). lra.
Qed.

Lemma Qabs_sti_iter_bound n av :
  (Qabs (sti (Nat.iter n decay av)) * (99 + inject_Z (Z.of_nat n))
   <= 99 * Qabs (sti av))%Q.
Proof.
  induction n as [|n IH].
  - change (Nat.iter 0 decay av) with av.
    change (inject_Z (Z.of_nat 0)) with 0%Q. lra.
  - change (Nat.iter (S n) decay av) with (decay (Nat.iter n decay av)).
    rewrite Qabs_sti_decay, Nat2Z.inj_succ. unfold Z.succ.
    rewrite inject_Z_plus.
    pose proof (Qabs_nonneg (sti (Nat.iter n decay av))) as Hx.
    assert (0 <= inject_Z (Z.of_nat n))%Q as Hy.
    { change 0%Q with (inject_Z 0). rewrite <- Zle_Qle. lia. }
    change (inject_Z 1) with 1%Q.
    set (x := Qabs (sti (Nat.iter n decay av))) in *.
    set (y := inject_Z (Z.of_nat n)) in *.
    nra.
Qed.

(** C8.  One call of [updateAttentionValues] leaves the store itself and
    every object outside it alone and replaces the attention value of
    every atom in the store by the sequential update sti*0.99,
    lti*0.999 + sti'*0.001, vlti*0.9999 + lti'*0.0001, changing nothing
    else of the atom.  Under repeated calls the sti of such an atom is
    sti0 * 0.99^n: its absolute value never grows and is at most
    99/(99+n) of the initial one, so it goes to 0. *)
Theorem C8_attention_decay w :
  store_wf w →
  space (updateAttentionValues w) = space w ∧
  (∀ p, p ∉ getAtoms (space w) →
     heap (updateAttentionValues w) !! p = heap w !! p) ∧
  (∀ id p a,
     atoms_ (space w) !! id = Some p → heap w !! p = Some a →
     ∃ a', heap (updateAttentionValues w) !! p = Some a' ∧
       let av := attention_value_ a in
       let av' := attention_value_ a' in
       sti av' = (sti av * (99 # 100))%Q ∧
       lti av' = (lti av * (999 # 1000) + sti av' * (1 # 1000))%Q ∧
       vlti av' = (vlti av * (9999 # 10000) + lti av' * (1 # 10000))%Q ∧
       a' = Atom_setAttentionValue av' a ∧
       ∀ n, ∃ an,
         heap (updateAttentionValues_n n w) !! p = Some an ∧
         heap (updateAttentionValues_n (S n) w) !! p = Some (decay_atom an) ∧
         let s0 := sti av in
         let sn := sti (attention_value_ an) in
         let sn' := sti (attention_value_ (decay_atom an)) in
         (Qabs sn' <= Qabs sn)%Q ∧
         (sn == s0 * (99 # 100) ^ Z.of_nat n)%Q ∧
         (Qabs sn * (99 + inject_Z (Z.of_nat n)) <= 99 * Qabs s0)%Q).
Proof.
  intros Hwf. split_and!.
  - done.
  - intros p Hp. rewrite updateAttentionValues_lookup by done.
    by rewrite decide_False.
  - intros id p a Hp Ha. exists (decay_atom a).
    split; [by apply updateAttentionValues_live with id|].
    simpl. split_and!; [done..|].
    intros n. exists (Nat.iter n decay_atom a).
    destruct (updateAttentionValues_n_live n w id p a) as (_ & _ & Hn);
      [done..|].
    destruct (updateAttentionValues_n_live (S n) w id p a) as (_ & _ & HSn);
      [done..|].
    split; [done|]. split; [done|]. simpl.
    rewrite attention_iter_decay_atom. split_and!.
    + apply Qabs_sti_decay_le.
    + apply sti_iter_decay.
    + apply Qabs_sti_iter_bound.
Qed.

Lemma C8_attention_decay_witness :
  store_wf memory_world ∧
  ∃ a', heap (updateAttentionValues memory_world) !! memory_ptr = Some a' ∧
        sti (attention_value_ a') = ((1 # 2) * (99 # 100))%Q.
Proof.
  assert (store_wf memory_world) as Hwf.
  { apply (bool_decide_unpack _). vm_compute. exact I. }
  split; [exact Hwf|].
  destruct (proj2 (proj2 (C8_attention_decay memory_world Hwf))
              memory_uuid memory_ptr
              (Atom_setAttentionValue (AttentionValue_ctor (1 # 2) 0 (3 # 10))
                 (Atom_setMetadata "memory_type" "episodic"
                    (Node_ctor memory_uuid 0 MEMORY_NODE "memory_0a1b2c3d"
                       "first contact"))))
    as (a' & Ha' & Hsti & _).
  - reflexivity.
  - reflexivity.
  - exists a'. split; [exact Ha'|exact Hsti].
Defined.

(** ** Links and removal *)

(** C2, as stated, fails: a Link holds shared pointers, not ids.  After
    bob is removed from the store the trust link still owns the bob object
    (the entry dereferences to it), and [getTrustLevel], which reads ids
    through these pointers, still reports the trust between alice and the
    removed bob.  In that state the link is in the store and lists bob,
    and [removeAtom] of bob's id does not succeed. *)
Lemma C2_owning_entries_counterexample :
  (link_lists trust_world trust_ptr trust_link (Some bob_ptr) bob ∧
   ¬ no_cascade_by_id trust_world trust_ptr trust_link (Some bob_ptr) bob) ∧
  (link_lists trust_world_without_bob trust_ptr trust_link (Some bob_ptr) bob ∧
   (removeAtom (heap trust_world_without_bob) (id_ bob)
      (space trust_world_without_bob)).1 = false ∧
   ¬ no_cascade_by_id trust_world_without_bob trust_ptr trust_link
       (Some bob_ptr) bob) ∧
  deref (heap trust_world_without_bob) (Some bob_ptr) = Some bob ∧
  getAtom (id_ bob) (space trust_world_without_bob) = None ∧
  getTrustLevel (id_ alice) (id_ bob) trust_world_without_bob
    = Some (8 # 10)%Q.
Proof.
  assert (∀ w, heap w !! trust_ptr = Some trust_link →
               atoms_ (space w) !! id_ trust_link = Some trust_ptr →
               heap w !! bob_ptr = Some bob →
               link_lists w trust_ptr trust_link (Some bob_ptr) bob) as Hlists.
  { intros w H1 H2 H3. split_and!; [done..| |done].
    exists [Some alice_ptr; Some bob_ptr]. split; [done|]. right. left. }
  split_and!.
  - apply Hlists; vm_compute; reflexivity.
  - intros (_ & _ & _ & Hd). by vm_compute in Hd.
  - apply Hlists; vm_compute; reflexivity.
  - vm_compute. reflexivity.
  - intros (Hr & _). by vm_compute in Hr.
  - vm_compute. reflexivity.
  - vm_compute. reflexivity.
  - vm_compute. reflexivity.
Qed.

(** C2, amended.  For a Link in the store and an atom A of its outgoing
    list that is itself in the store (and is not the link), [removeAtom]
    of A's id succeeds and touches no object; the Link stays in the store
    unmodified; afterwards the id resolves to nothing through the store.
    The entry of the Link is an owning pointer and still refers to the
    removed object. *)
Theorem C2_no_cascade w pl L pa A :
  link_lists w pl L (Some pa) A →
  atoms_ (space w) !! id_ A = Some pa →
  pa ≠ pl →
  let w' := after_removeAtom (id_ A) w in
  (removeAtom (heap w) (id_ A) (space w)).1 = true ∧
  heap w' = heap w ∧
  (heap w' !! pl = Some L ∧ atoms_ (space w') !! id_ L = Some pl) ∧
  getAtom (id_ A) (space w') = None ∧
  resolve w' (Some pa) = None ∧
  deref (heap w') (Some pa) = Some A.
Proof.
  intros (HL & HLlive & _ & HA) HAlive Hne. simpl in HA.
  assert (id_ L ≠ id_ A) as Hid by (intros E; rewrite E in HLlive; congruence).
  unfold after_removeAtom, removeAtom, resolve, getAtom.
  rewrite HAlive, HA. simpl. rewrite HA. simpl.
  rewrite lookup_delete_eq, lookup_delete_ne by done. done.
Qed.

Lemma C2_no_cascade_witness :
  getAtom (id_ bob) (space (after_removeAtom (id_ bob) trust_world)) = None ∧
  atoms_ (space (after_removeAtom (id_ bob) trust_world)) !! trust_uuid
    = Some trust_ptr.
Proof.
  destruct (C2_no_cascade trust_world trust_ptr trust_link bob_ptr bob)
    as (_ & _ & [_ Hl] & Hg & _).
  - split_and!.
    + vm_compute. reflexivity.
    + vm_compute. reflexivity.
    + exists [Some alice_ptr; Some bob_ptr]. split; [reflexivity|].
      apply (bool_decide_unpack _). vm_compute. exact I.
    + vm_compute. reflexivity.
  - vm_compute. reflexivity.
  - apply (bool_decide_unpack _). vm_compute. exact I.
  - split; [exact Hg|exact Hl].
Defined.

(** ** Truth values *)

Lemma clamp_range v lo hi : (lo <= hi)%Q → (lo <= clamp v lo hi <= hi)%Q.
Proof.
  intros Hle. unfold clamp.
  destruct (Qlt_le_dec v lo); [split; [apply Qle_refl|done]|].
  destruct (Qlt_le_dec hi v); [split; [done|apply Qle_refl]|].
  done.
Qed.

Lemma clamp_above v lo hi : (lo <= hi)%Q → (hi < v)%Q → clamp v lo hi = hi.
Proof.
  intros Hle Hv. unfold clamp.
  destruct (Qlt_le_dec v lo) as [Hlt|_]; [lra|].
  destruct (Qlt_le_dec hi v) as [_|Hge]; [done|lra].
Qed.

Lemma clamp_below v lo hi : (v < lo)%Q → clamp v lo hi = lo.
Proof. intros Hv. unfold clamp. destruct (Qlt_le_dec v lo); [done|lra]. Qed.

Lemma make_and_add_lookup a w :
  heap (make_and_add a w).2 !! (make_and_add a w).1 = Some a ∧
  atoms_ (space (make_and_add a w).2) !! id_ a = Some (make_and_add a w).1.
Proof.
  unfold make_and_add, heap_alloc, addAtom. simpl.
  rewrite lookup_insert_eq. simpl. by rewrite lookup_insert_eq.
Qed.

(** C5, as stated, fails: a trust level of 1.5 is not rejected.  The
    link is created, and it stores the clamped strength 1 and the
    rendering of the value passed in. *)
Lemma C5_out_of_range_counterexample :
  ¬ trust_level_rejected trust_uuid 0 (id_ alice) (id_ bob) (3 # 2)
      agents_world ∧
  ∃ p a,
    (addTrustRelationship trust_uuid 0 (id_ alice) (id_ bob) (3 # 2)
       agents_world).1 = Some p ∧
    heap (addTrustRelationship trust_uuid 0 (id_ alice) (id_ bob) (3 # 2)
            agents_world).2 !! p = Some a ∧
    strength (truth_value_ a) = 1%Q ∧
    Atom_getMetadata "trust_level" a = "1.500000".
Proof.
  split.
  - intros Hrej. assert ((3 # 2 < 0)%Q ∨ (1 < 3 # 2)%Q) as Hout by (by right).
    apply Hrej in Hout. by vm_compute in Hout.
  - eexists _, _. split_and!.
    + vm_compute. reflexivity.
    + vm_compute. reflexivity.
    + reflexivity.
    + vm_compute. reflexivity.
Qed.

(** C5, amended.  No store operation rejects a truth or trust value: the
    constructor of [TruthValue] clamps both components into [0,1], so
    [addTrustRelationship] between two atoms of the store succeeds for
    every trust level and stores the clamped strength (1 for a level above
    1, 0 for a level below 0) with confidence 0.5, next to the rendering
    of the level as it was passed; it returns [nullptr] only when an
    endpoint is unknown.  [addAtom] of a null pointer returns
    [nullptr] and leaves the store as it was. *)
Theorem C5_trust_values_are_clamped :
  (∀ s c, (0 <= strength (TruthValue_ctor s c) <= 1)%Q ∧
          (0 <= confidence (TruthValue_ctor s c) <= 1)%Q) ∧
  (∀ uuid now id1 id2 v w p1 p2,
     getAtom id1 (space w) = Some p1 →
     getAtom id2 (space w) = Some p2 →
     ∃ p a,
       (addTrustRelationship uuid now id1 id2 v w).1 = Some p
       ∧ heap (addTrustRelationship uuid now id1 id2 v w).2 !! p = Some a
       ∧ getAtom uuid (space (addTrustRelationship uuid now id1 id2 v w).2)
         = Some p
       ∧ strength (truth_value_ a) = clamp v 0 1
       ∧ confidence (truth_value_ a) = (1 # 2)%Q
       ∧ ((1 < v)%Q → strength (truth_value_ a) = 1%Q)
       ∧ ((v < 0)%Q → strength (truth_value_ a) = 0%Q)
       ∧ Atom_getMetadata "trust_level" a = to_string_double v
       ∧ Link_getOutgoing a = Some [Some p1; Some p2]) ∧
  (∀ uuid now id1 id2 v w,
     getAtom id1 (space w) = None ∨ getAtom id2 (space w) = None →
     addTrustRelationship uuid now id1 id2 v w = (None, w)) ∧
  (∀ h s, addAtom h None s = (None, s)).
Proof.
  split_and!.
  - intros s c. split; by apply clamp_range.
  - intros uuid now id1 id2 v w p1 p2 H1 H2.
    unfold addTrustRelationship, add_link. rewrite H1, H2.
    set (a := Atom_setMetadata _ _ _).
    pose proof (make_and_add_lookup a w) as [Hh Ha].
    destruct (make_and_add a w) as [p w'].
    exists p, a. split_and!; try done.
    + intros Hv. by apply clamp_above.
    + intros Hv. by apply clamp_below.
  - intros uuid now id1 id2 v w [H|H];
      unfold addTrustRelationship, add_link; rewrite H; [done|].
    by destruct (getAtom id1 (space w)).
  - done.
Qed.

Lemma C5_trust_values_are_clamped_witness :
  ∃ p a,
    heap (addTrustRelationship trust_uuid 0 (id_ alice) (id_ bob) (3 # 2)
            agents_world).2 !! p = Some a ∧
    strength (truth_value_ a) = clamp (3 # 2) 0 1.
Proof.
  destruct (proj1 (proj2 C5_trust_values_are_clamped)
              trust_uuid 0%Z (id_ alice) (id_ bob) (3 # 2)%Q agents_world
              alice_ptr bob_ptr)
    as (p & a & _ & Hh & _ & Hs & _).
  - vm_compute. reflexivity.
  - vm_compute. reflexivity.
  - exists p, a. split; [exact Hh|exact Hs].
Defined.

(** ** The agent state table *)

Lemma filter_eq_not_elem {A} `{EqDecision A} (x : A) (l : list A) :
  x ∉ l → filter (λ y, y = x) l = [].
Proof.
  induction l as [|y l IH]; [done|].
  intros [Hne Hl]%not_elem_of_cons.
  rewrite filter_cons_False by congruence. by apply IH.
Qed.

Lemma count_once {A} `{EqDecision A} (x : A) (l : list A) :
  NoDup l → x ∈ l → length (filter (λ y, y = x) l) = 1.
Proof.
  induction 1 as [|y l Hy Hnd IH]; [by intros ?%elem_of_nil|].
  intros [->|Hin]%elem_of_cons.
  - rewrite filter_cons_True by done. by rewrite filter_eq_not_elem.
  - rewrite filter_cons_False; [by apply IH|]. by intros ->.
Qed.

Lemma getActiveAgents_once id k :
  is_Some (agent_states_ k !! id) →
  length (filter (λ x, x = id) (getActiveAgents k)) = 1.
Proof.
  intros [st Hst]. apply count_once.
  - apply NoDup_fst_map_to_list.
  - unfold getActiveAgents. rewrite list_elem_of_fmap. exists (id, st).
    split; [done|]. by apply elem_of_map_to_list.
Qed.

Lemma addCognitiveAgent_lookup now id g b k :
  agent_states_ (addCognitiveAgent now id g b k).2 !! id
  = Some (addCognitiveAgent now id g b k).1.
Proof.
  unfold addCognitiveAgent.
  destruct (agent_states_ k !! id) as [st|] eqn:E; [done|].
  simpl. by rewrite lookup_insert_eq.
Qed.

(** C9.  When the agent id is already in the table, [addCognitiveAgent]
    with any goals and beliefs returns the stored state and leaves the
    microkernel as it was, and [getActiveAgents] lists the id exactly once
    before and after the call.  Hence of two calls in a row, whatever the
    table was, the second returns what the first returned and changes
    nothing. *)
Theorem C9_addCognitiveAgent_idempotent :
  (∀ now id goals0 beliefs0 k st,
     agent_states_ k !! id = Some st →
     addCognitiveAgent now id goals0 beliefs0 k = (st, k) ∧
     length (filter (λ x, x = id) (getActiveAgents k)) = 1 ∧
     length (filter (λ x, x = id)
               (getActiveAgents (addCognitiveAgent now id goals0 beliefs0 k).2))
       = 1) ∧
  (∀ now1 now2 id g1 g2 b1 b2 k,
     let r1 := addCognitiveAgent now1 id g1 b1 k in
     addCognitiveAgent now2 id g2 b2 r1.2 = r1 ∧
     length (filter (λ x, x = id) (getActiveAgents r1.2)) = 1).
Proof.
  split.
  - intros now id goals0 beliefs0 k st Hst.
    assert (addCognitiveAgent now id goals0 beliefs0 k = (st, k)) as ->.
    { unfold addCognitiveAgent. by rewrite Hst. }
    split_and!; [done|by apply getActiveAgents_once..].
  - intros now1 now2 id g1 g2 b1 b2 k r1.
    pose proof (addCognitiveAgent_lookup now1 id g1 b1 k) as Hl.
    fold r1 in Hl. split.
    + unfold addCognitiveAgent at 1. rewrite Hl. by destruct r1.
    + by apply getActiveAgents_once.
Qed.

Lemma C9_addCognitiveAgent_idempotent_witness :
  addCognitiveAgent 9 "a1" ["other"] ∅ a1_kernel = (a1_state, a1_kernel) ∧
  length (filter (λ x, x = "a1") (getActiveAgents a1_kernel)) = 1.
Proof.
  destruct (proj1 C9_addCognitiveAgent_idempotent 9%Z "a1" ["other"] ∅
              a1_kernel a1_state) as (H1 & H2 & _).
  - vm_compute. reflexivity.
  - split; [exact H1|exact H2].
Defined.

(** C10.  For an agent id that is not in the table, [getCognitiveState]
    returns a default-constructed state: empty agent id, phase Perception,
    no goals, beliefs, intentions or focus.  The result is a plain
    [CognitiveState]: it is the same for every unknown id and carries the
    id asked for nowhere. *)
Theorem C10_getCognitiveState_unknown now id k :
  agent_states_ k !! id = None →
  let st := getCognitiveState now id k in
  st = CognitiveState_default now ∧
  agent_id st = "" ∧ current_phase st = PERCEPTION ∧ goals st = [] ∧
  beliefs st = ∅ ∧ intentions st = [] ∧ current_focus st = [] ∧
  hasAgent id k = false ∧
  (∀ id' k', agent_states_ k' !! id' = None →
             getCognitiveState now id' k' = st).
Proof.
  intros Hnone. unfold getCognitiveState, hasAgent. rewrite Hnone. simpl.
  split_and!; try done.
  by intros id' k' ->.
Qed.

Lemma C10_getCognitiveState_unknown_witness :
  getCognitiveState 7 "ghost" a1_kernel = CognitiveState_default 7.
Proof.
  destruct (C10_getCognitiveState_unknown 7%Z "ghost" a1_kernel) as [H _].
  - vm_compute. reflexivity.
  - exact H.
Defined.

(** ** Phase handlers *)

Lemma advance_phase_spec e id f s st :
  agent_states_ (kernel s) !! id = Some st →
  advance_phase e id f s
  = set_kernel
      (notifyCallbacks id (f st)
         (set_agent_states
            (<[id := set_last_update (env_now e) (f st)]>
               (agent_states_ (kernel s))) (kernel s))) s.
Proof.
  intros Hst. unfold advance_phase, getCognitiveState, updateCognitiveState.
  by rewrite Hst.
Qed.

Lemma advance_phase_none e id f s :
  agent_states_ (kernel s) !! id = None → advance_phase e id f s = s.
Proof.
  intros Hst. unfold advance_phase, updateCognitiveState. rewrite Hst.
  by destruct s.
Qed.

Lemma updateKnowledge_kernel e id c s :
  kernel (updateKnowledge e id c s).2 = kernel s.
Proof. unfold updateKnowledge, get_var. by case_decide. Qed.

Lemma createActionPlans_kernel e id c s st :
  agent_states_ (kernel s) !! id = Some st →
  kernel (createActionPlans e id c s).2
  = notifyCallbacks id
      (set_intentions (map (λ goal, "plan_for_" +:+ goal) (goals st)) st)
      (set_agent_states
         (<[id := set_last_update (env_now e)
                    (set_intentions
                       (map (λ goal, "plan_for_" +:+ goal) (goals st)) st)]>
            (agent_states_ (kernel s))) (kernel s)).
Proof.
  intros Hst.
  unfold createActionPlans, getCognitiveState, updateCognitiveState.
  by rewrite Hst.
Qed.

Lemma createActionPlans_none e id c s :
  agent_states_ (kernel s) !! id = None →
  (createActionPlans e id c s).2 = s.
Proof.
  intros Hst. unfold createActionPlans, updateCognitiveState. rewrite Hst.
  by destruct s.
Qed.

Ltac kernel_step_done Hst :=
  unfold kernel_step; simpl; rewrite Hst; split_and!; try done;
  intros ? [= <-]; eexists; split; [done|]; done.

Lemma processTask_kernel e t s :
  kernel_step e (task_agent_id t) (task_phase t) (kernel s)
    (kernel (processTask e t s).2).
Proof.
  unfold processTask, executePhaseFunction.
  destruct (agent_states_ (kernel s) !! task_agent_id t) as [st|] eqn:Hst.
  - destruct (task_phase t);
    unfold processPerceptionPhase, processAttentionPhase,
      processReasoningPhase, processPlanningPhase, processExecutionPhase,
      processLearningPhase, processReflectionPhase.
    + rewrite (advance_phase_spec _ _ _ _ st) by done.
      kernel_step_done Hst.
    + unfold selectAttentionalFocus.
      rewrite (advance_phase_spec _ _ _ _ st) by done.
      kernel_step_done Hst.
    + rewrite (advance_phase_spec _ _ _ _ st) by done.
      kernel_step_done Hst.
    + pose proof (createActionPlans_kernel e (task_agent_id t)
                    (task_context t) s st Hst) as Hk.
      destruct (createActionPlans e (task_agent_id t) (task_context t) s)
        as [c1 s1]. simpl in Hk.
      erewrite advance_phase_spec; [|rewrite Hk; simpl; apply lookup_insert_eq].
      unfold kernel_step. simpl. rewrite Hk, Hst. simpl.
      split_and!; try done.
      intros ? [= <-]. eexists. split; [apply insert_insert_eq|]. done.
    + rewrite (advance_phase_spec _ _ _ _ st) by done.
      kernel_step_done Hst.
    + pose proof (updateKnowledge_kernel e (task_agent_id t)
                    (task_context t) s) as Hk.
      destruct (updateKnowledge e (task_agent_id t) (task_context t) s)
        as [c1 s1]. simpl in Hk.
      rewrite (advance_phase_spec _ _ _ _ st) by (by rewrite Hk).
      unfold kernel_step. simpl. rewrite Hk, Hst.
      split_and!; try done.
      intros ? [= <-]. eexists. split; [done|]. done.
    + rewrite (advance_phase_spec _ _ _ _ st) by done.
      kernel_step_done Hst.
  - destruct (task_phase t);
    unfold processPerceptionPhase, processAttentionPhase,
      processReasoningPhase, processPlanningPhase, processExecutionPhase,
      processLearningPhase, processReflectionPhase.
    + rewrite advance_phase_none by done. unfold kernel_step. simpl.
      rewrite Hst. by split_and!.
    + unfold selectAttentionalFocus.
      rewrite advance_phase_none by done. unfold kernel_step. simpl.
      rewrite Hst. by split_and!.
    + rewrite advance_phase_none by done. unfold kernel_step. simpl.
      rewrite Hst. by split_and!.
    + destruct (createActionPlans e (task_agent_id t) (task_context t) s)
        as [c1 s1] eqn:E.
      pose proof (createActionPlans_none e (task_agent_id t)
                    (task_context t) s Hst) as Hn.
      rewrite E in Hn. simpl in Hn. subst s1.
      rewrite advance_phase_none by done. unfold kernel_step. simpl.
      rewrite Hst. by split_and!.
    + rewrite advance_phase_none by done. unfold kernel_step. simpl.
      rewrite Hst. by split_and!.
    + pose proof (updateKnowledge_kernel e (task_agent_id t)
                    (task_context t) s) as Hk.
      destruct (updateKnowledge e (task_agent_id t) (task_context t) s)
        as [c1 s1]. simpl in Hk.
      rewrite advance_phase_none by (by rewrite Hk).
      unfold kernel_step. simpl. rewrite Hk, Hst. by split_and!.
    + rewrite advance_phase_none by done. unfold kernel_step. simpl.
      rewrite Hst. by split_and!.
Qed.

(** ** What a task run does to the store *)

Lemma heap_update_dom p f (h : gmap positive Atom) :
  dom (heap_update p f h) = dom h.
Proof.
  unfold heap_update. destruct (h !! p) as [a|] eqn:E; [|done].
  apply set_eq. intros q. rewrite dom_insert, elem_of_union, elem_of_singleton.
  split; [intros [->|?]; [by apply elem_of_dom|done]|by right].
Qed.

Lemma updateAttentionValues_dom w :
  dom (heap (updateAttentionValues w)) = dom (heap w) ∧
  space (updateAttentionValues w) = space w.
Proof.
  split; [|done]. unfold updateAttentionValues. simpl.
  generalize (getAtoms (space w)). intros ps. generalize (heap w).
  induction ps as [|p ps IH]; intros h; [done|].
  simpl. by rewrite IH, heap_update_dom.
Qed.

Lemma focus_fold_atoms ids sp :
  atoms_ (foldl (λ sp i, addToAttentionalFocus i sp) sp ids) = atoms_ sp.
Proof. revert sp. induction ids as [|i ids IH]; intros sp; [done|]. simpl. by rewrite IH. Qed.

Lemma advance_phase_world e id f s : world (advance_phase e id f s) = world s.
Proof. done. Qed.

Lemma updateKnowledge_no_count e id c s :
  variables c !! "actions_executed" = None →
  (updateKnowledge e id c s).2 = s.
Proof.
  intros Hv. unfold updateKnowledge, get_var. by rewrite Hv.
Qed.

Lemma processTask_other_phases e t s :
  task_phase t ≠ LEARNING →
  same_atoms (world s) (world (processTask e t s).2).
Proof.
  intros Hph. unfold processTask, executePhaseFunction.
  destruct (task_phase t); try done;
    unfold processPerceptionPhase, processAttentionPhase,
      processReasoningPhase, processPlanningPhase, processExecutionPhase,
      processReflectionPhase; try done.
  - unfold selectAttentionalFocus. simpl. split.
    + apply focus_fold_atoms.
    + by rewrite (proj1 (updateAttentionValues_dom _)).
Qed.

Lemma processTask_learning_no_count e t s :
  task_phase t = LEARNING →
  parameters t !! "actions_executed" = None →
  world (processTask e t s).2 = world s.
Proof.
  intros Hph Hp. unfold processTask, executePhaseFunction. rewrite Hph.
  unfold processLearningPhase.
  rewrite (surjective_pairing (updateKnowledge _ _ _ _)).
  by rewrite updateKnowledge_no_count.
Qed.

Lemma processTask_no_params e t s :
  parameters t = ∅ → same_atoms (world s) (world (processTask e t s).2).
Proof.
  intros Hp. destruct (decide (task_phase t = LEARNING)) as [Hl|Hl].
  - rewrite processTask_learning_no_count; [done|done|].
    by rewrite Hp, lookup_empty.
  - by apply processTask_other_phases.
Qed.

(** ** Draining the queue in the order of the pushes *)

Lemma worker_step_front e t rest s :
  running_ (kernel s) = true →
  task_queue_ (kernel s) = t :: rest →
  Forall (λ t', priority t' = priority t) rest →
  worker_step e 0 s
  = Some (processTask e t
            (set_kernel (set_task_queue rest (kernel s)) s)).2.
Proof.
  intros Hrun Hq Hprio. unfold worker_step. rewrite Hrun, Hq. simpl.
  rewrite decide_True; [done|].
  unfold is_top, task_lt. constructor; [lia|].
  eapply Forall_impl; [exact Hprio|]. simpl. intros t' ->. lia.
Qed.

Lemma run_workers_fifo id ts : ∀ es rest s,
  length es = length ts →
  running_ (kernel s) = true →
  task_queue_ (kernel s) = ts ++ rest →
  Forall (λ t, priority t = 0%Z ∧ task_agent_id t = id ∧ parameters t = ∅)
         (ts ++ rest) →
  is_Some (agent_states_ (kernel s) !! id) →
  ∃ s', run_workers (fifo_steps es) s = Some s' ∧
        task_queue_ (kernel s') = rest ∧
        running_ (kernel s') = true ∧
        is_Some (agent_states_ (kernel s') !! id) ∧
        completed_tasks (stats_ (kernel s'))
          = completed_tasks (stats_ (kernel s)) + length ts ∧
        failed_tasks (stats_ (kernel s')) = failed_tasks (stats_ (kernel s)) ∧
        total_cycles (stats_ (kernel s')) = total_cycles (stats_ (kernel s)) ∧
        same_atoms (world s) (world s') ∧
        phase_of id s'
          = match last ts with
            | Some t => Some (next_phase (task_phase t))
            | None => phase_of id s
            end.
Proof.
  induction ts as [|t ts IH]; intros es rest s Hlen Hrun Hq Hall Hreg.
  - destruct es; [|done]. exists s. simpl. split_and!; try done; lia.
  - destruct es as [|e es]; [done|]. simpl in Hlen, Hq.
    apply Forall_cons in Hall as [(Hp & Hid & Hpar) Hall].
    set (s0 := set_kernel (set_task_queue (ts ++ rest) (kernel s)) s).
    assert (worker_step e 0 s = Some (processTask e t s0).2) as Hstep.
    { apply worker_step_front; [done..|].
      eapply Forall_impl; [exact Hall|]. simpl. intros t' (-> & _). done. }
    pose proof (processTask_kernel e t s0) as (Hst & _ & Hq1 & Hrun1 & _ & Hstats).
    pose proof (processTask_no_params e t s0 Hpar) as Hw.
    rewrite Hid in Hst.
    destruct Hreg as [st Hreg]. destruct (Hst st Hreg) as (st' & Hst' & Hph & _).
    set (s1 := (processTask e t s0).2) in *.
    destruct (IH es rest s1) as (s' & Hr & Hq' & Hrun' & Hreg' & Hc & Hf & Htc & Hw' & Hph').
    + by injection Hlen.
    + by rewrite Hrun1.
    + by rewrite Hq1.
    + done.
    + rewrite Hst'. rewrite lookup_insert_eq. by eexists.
    + exists s'. simpl. rewrite Hstep. simpl. split_and!; try done.
      * rewrite Hc, Hstats. simpl. lia.
      * by rewrite Hf, Hstats.
      * by rewrite Htc, Hstats.
      * destruct Hw as [Ha Hd], Hw' as [Ha' Hd'].
        split; [rewrite Ha'; exact Ha|rewrite Hd'; exact Hd].
      * rewrite Hph'. destruct ts as [|t2 ts].
        2:{ change (last (t :: t2 :: ts)) with (last (t2 :: ts)).
            destruct (last (t2 :: ts)) eqn:El; [done|].
            by apply last_None in El. }
        simpl.
        unfold phase_of. rewrite Hst', lookup_insert_eq. simpl. by rewrite Hph.
Qed.

(** ** Scheduling a cycle *)

Lemma schedule_phases_queue short now id phases : ∀ k,
  foldl (λ k0 phase, scheduleCognitivePhase (short phase) now id phase ∅ k0)
        k phases
  = set_task_queue
      (task_queue_ k
         ++ map (λ phase, make_phase_task (short phase) now id phase ∅) phases)
      k.
Proof.
  induction phases as [|ph phases IH]; intros k.
  - simpl. rewrite app_nil_r. by destruct k.
  - cbn [foldl map]. rewrite IH.
    unfold scheduleCognitivePhase, scheduleTask.
    cbn [task_queue_ set_task_queue]. by rewrite <- app_assoc.
Qed.

Lemma runCognitiveCycle_spec short now id k :
  is_Some (agent_states_ k !! id) →
  runCognitiveCycle short now id k
  = set_stats (bump_total_cycles (stats_ k))
      (set_task_queue (task_queue_ k ++ cycle_tasks short now id) k).
Proof.
  intros Hreg. unfold runCognitiveCycle, hasAgent.
  rewrite bool_decide_eq_true_2 by done.
  by rewrite schedule_phases_queue.
Qed.

Lemma runCognitiveCycle_unknown short now id k :
  agent_states_ k !! id = None → runCognitiveCycle short now id k = k.
Proof.
  intros Hreg. unfold runCognitiveCycle, hasAgent.
  rewrite bool_decide_eq_false_2; [done|]. rewrite Hreg. by intros [? ?].
Qed.

Lemma string_app_assoc (a b c : string) : (a +:+ b) +:+ c = a +:+ b +:+ c.
Proof.
  induction a as [|x a IH]; [done|].
  change (String x ((a +:+ b) +:+ c) = String x (a +:+ b +:+ c)).
  by rewrite IH.
Qed.

Lemma string_app_empty_r (a : string) : a +:+ "" = a.
Proof.
  induction a as [|x a IH]; [done|].
  change (String x (a +:+ "") = String x a). by rewrite IH.
Qed.

Lemma join_unfold s0 rest sep : join (s0 :: rest) sep = s0 +:+ join_tail sep rest.
Proof.
  unfold join. revert s0. induction rest as [|r rest IH]; intros s0.
  - simpl. by rewrite string_app_empty_r.
  - cbn [foldl join_tail]. rewrite IH. by rewrite !string_app_assoc.
Qed.

Lemma string_app_cons c (p rest : string) :
  String c p +:+ rest = String c (p +:+ rest).
Proof. done. Qed.

Lemma split_go_cons d c s tok :
  split_go d (String c s) tok
  = if decide (c = d) then tok :: split_go d s ""
    else split_go d s (tok +:+ String c "").
Proof. done. Qed.

Lemma split_go_plain d p rest tok :
  mentions d p = false →
  split_go d (p +:+ rest) tok = split_go d rest (tok +:+ p).
Proof.
  revert tok. induction p as [|c p IH]; intros tok Hm.
  - by rewrite string_app_empty_r.
  - simpl in Hm. apply orb_false_iff in Hm as [Hc Hm].
    apply bool_decide_eq_false in Hc.
    rewrite string_app_cons, split_go_cons, decide_False by done.
    rewrite IH by done. by rewrite string_app_assoc.
Qed.

Lemma split_join_tail rest : ∀ acc,
  plain_plan acc → Forall plain_plan rest →
  split_go ","%char (acc +:+ join_tail "," rest) "" = acc :: rest.
Proof.
  induction rest as [|r rest IH]; intros acc [Hne Hm] Hall.
  - rewrite split_go_plain by done. simpl.
    by rewrite decide_False.
  - apply Forall_cons in Hall as [Hr Hall].
    rewrite split_go_plain by done.
    change (join_tail "," (r :: rest))
      with (String ","%char (r +:+ join_tail "," rest)).
    rewrite split_go_cons, decide_True by done.
    change ("" +:+ acc) with acc. f_equal. by apply IH.
Qed.

Lemma split_join plans :
  Forall plain_plan plans → split (join plans ",") ","%char = plans.
Proof.
  destruct plans as [|p plans]; [done|].
  intros [Hp Hall]%Forall_cons. rewrite join_unfold.
  by apply split_join_tail.
Qed.

Lemma cycle_tasks_Forall short now id :
  Forall (λ t, priority t = 0%Z ∧ task_agent_id t = id ∧ parameters t = ∅)
         (cycle_tasks short now id).
Proof. unfold cycle_tasks, cycle_phases. cbn [map]. by repeat constructor. Qed.

Lemma processTask_phase e t s :
  is_Some (agent_states_ (kernel s) !! task_agent_id t) →
  phase_of (task_agent_id t) (processTask e t s).2
  = Some (next_phase (task_phase t)).
Proof.
  intros [st Hst].
  destruct (processTask_kernel e t s) as (Hk & _).
  destruct (Hk st Hst) as (st' & Hst' & Hph & _).
  unfold phase_of. rewrite Hst', lookup_insert_eq. simpl. by rewrite Hph.
Qed.

Lemma cycle_drained_in_order short now id w k es n ph :
  is_Some (agent_states_ k !! id) → running_ k = true →
  task_queue_ k = [] → length es = 7 →
  (next_phase <$> cycle_phases) !! n = Some ph →
  ∃ s', run_workers (fifo_steps (take (S n) es))
          {| world := w; kernel := runCognitiveCycle short now id k |}
        = Some s' ∧
        task_queue_ (kernel s') = drop (S n) (cycle_tasks short now id) ∧
        completed_tasks (stats_ (kernel s'))
          = completed_tasks (stats_ k) + S n ∧
        failed_tasks (stats_ (kernel s')) = failed_tasks (stats_ k) ∧
        same_atoms w (world s') ∧
        phase_of id s' = Some ph.
Proof.
  intros Hreg Hrun Hq Hlen Hph.
  assert (n < 7) as Hn.
  { apply lookup_lt_Some in Hph. by rewrite length_fmap in Hph. }
  rewrite runCognitiveCycle_spec, Hq by done.
  set (tasks := cycle_tasks short now id).
  set (s0 := {| world := w; kernel := _ |}).
  destruct (run_workers_fifo id (take (S n) tasks) (take (S n) es)
              (drop (S n) tasks) s0)
    as (s' & Hr & Hq' & _ & _ & Hc & Hf & _ & Hw & Hp).
  - rewrite !length_take, Hlen. done.
  - done.
  - by rewrite take_drop.
  - rewrite take_drop. apply cycle_tasks_Forall.
  - done.
  - exists s'. split_and!; try done.
    + rewrite Hc, length_take. simpl.
      change (length tasks) with 7. lia.
    + rewrite Hp.
      do 7 (destruct n as [|n]; [by injection Hph as <-|]). lia.
Qed.

(** ** The cognitive cycle *)

Lemma worker_step_at e i t s :
  running_ (kernel s) = true →
  task_queue_ (kernel s) !! i = Some t →
  Forall (λ t', priority t' = priority t) (task_queue_ (kernel s)) →
  worker_step e i s
  = Some (processTask e t
            (set_kernel
               (set_task_queue (delete i (task_queue_ (kernel s))) (kernel s))
               s)).2.
Proof.
  intros Hrun Hi Hprio. unfold worker_step. rewrite Hrun, Hi. simpl.
  rewrite decide_True; [done|].
  unfold is_top, task_lt.
  eapply Forall_impl; [exact Hprio|]. simpl. intros t' ->. lia.
Qed.

(** With tasks of one agent that all carry priority 0 and no parameters,
    dequeuing at any positions that exist is a run of the workers; the
    agent ends in the successor of the phase of the task taken last. *)
Lemma run_workers_dequeued id : ∀ steps s ts,
  running_ (kernel s) = true →
  Forall (λ t, priority t = 0%Z ∧ task_agent_id t = id ∧ parameters t = ∅)
         (task_queue_ (kernel s)) →
  is_Some (agent_states_ (kernel s) !! id) →
  dequeued (task_queue_ (kernel s)) steps.*2 = Some ts →
  ∃ s', run_workers steps s = Some s' ∧
        length (task_queue_ (kernel s')) + length steps
          = length (task_queue_ (kernel s)) ∧
        length ts = length steps ∧
        completed_tasks (stats_ (kernel s'))
          = completed_tasks (stats_ (kernel s)) + length steps ∧
        failed_tasks (stats_ (kernel s')) = failed_tasks (stats_ (kernel s)) ∧
        same_atoms (world s) (world s') ∧
        phase_of id s'
          = match last ts with
            | Some t => Some (next_phase (task_phase t))
            | None => phase_of id s
            end.
Proof.
  induction steps as [|[e i] steps IH]; intros s ts Hrun Hall Hreg Hdq.
  - injection Hdq as <-. exists s. simpl. split_and!; try done; lia.
  - cbn [fmap list_fmap snd dequeued] in Hdq.
    destruct (task_queue_ (kernel s) !! i) as [t|] eqn:Hi; [|done].
    cbn [mbind option_bind] in Hdq.
    destruct (dequeued (delete i (task_queue_ (kernel s))) steps.*2)
      as [ts'|] eqn:Hdq'; [|done].
    injection Hdq as <-.
    pose proof Hall as Hall'. rewrite Forall_forall in Hall'.
    destruct (Hall' t) as (Hp & Hid & Hpar).
    { by eapply list_elem_of_lookup_2. }
    set (s0 := set_kernel
                 (set_task_queue (delete i (task_queue_ (kernel s)))
                    (kernel s)) s).
    assert (worker_step e i s = Some (processTask e t s0).2) as Hstep.
    { apply worker_step_at; [done..|].
      eapply Forall_impl; [exact Hall|]. simpl. intros t' (-> & _). done. }
    pose proof (processTask_kernel e t s0)
      as (Hst & _ & Hq1 & Hrun1 & _ & Hstats).
    pose proof (processTask_no_params e t s0 Hpar) as Hw.
    rewrite Hid in Hst.
    destruct Hreg as [st Hreg]. destruct (Hst st Hreg) as (st' & Hst' & Hph & _).
    set (s1 := (processTask e t s0).2) in *.
    destruct (IH s1 ts') as (s' & Hr & Hlen & Hlts & Hc & Hf & Hw' & Hph').
    + by rewrite Hrun1.
    + rewrite Hq1. subst s0. simpl. by apply Forall_delete.
    + rewrite Hst'. rewrite lookup_insert_eq. by eexists.
    + rewrite Hq1. exact Hdq'.
    + exists s'. cbn [run_workers]. rewrite Hstep. cbn [mbind option_bind].
      split; [exact Hr|]. split_and!.
      * rewrite Hq1 in Hlen. subst s0. simpl in Hlen.
        rewrite length_delete in Hlen by (by eexists).
        apply lookup_lt_Some in Hi. simpl. lia.
      * simpl. by rewrite Hlts.
      * rewrite Hc, Hstats. simpl. lia.
      * by rewrite Hf, Hstats.
      * destruct Hw as [Ha Hd], Hw' as [Ha' Hd'].
        split; [rewrite Ha'; exact Ha|rewrite Hd'; exact Hd].
      * rewrite Hph'. destruct ts' as [|t2 ts'].
        2:{ change (last (t :: t2 :: ts')) with (last (t2 :: ts')).
            destruct (last (t2 :: ts')) eqn:El; [done|].
            by apply last_None in El. }
        simpl.
        unfold phase_of. rewrite Hst', lookup_insert_eq. simpl. by rewrite Hph.
Qed.

(** C1: what the code does.  For a registered agent one call of
    [runCognitiveCycle] pushes seven tasks behind what is queued, one per
    phase in the order Perception, Attention, Reasoning, Planning,
    Execution, Learning, Reflection, and counts one cycle.  No statement
    assigns [priority]: all seven carry priority 0, none is below another
    under [operator<], and their priorities do not decrease.  So the queue
    does not order the cycle: with the microkernel running, dequeuing the
    seven tasks at any positions whatever is a run of the workers, all
    tasks complete, and the agent ends in the successor of the phase of
    the task taken last, which is Perception only when the Reflection
    task is taken last.  In the order in which a binary heap hands out
    seven equal tasks (Perception, Reasoning, Learning, Reflection,
    Execution, Attention, Planning) the cycle ends with the agent in
    Execution; only when the tasks are taken in the order they were pushed
    does it end in Perception. *)
Theorem C1_cycle_order_not_enforced :
  (∀ short now id k,
     is_Some (agent_states_ k !! id) →
     let k' := runCognitiveCycle short now id k in
     ∃ tasks,
       task_queue_ k' = task_queue_ k ++ tasks ∧
       task_phase <$> tasks
         = [PERCEPTION; ATTENTION; REASONING; PLANNING; EXECUTION; LEARNING;
            REFLECTION] ∧
       Forall (λ t, priority t = 0%Z ∧ task_agent_id t = id) tasks ∧
       (∀ t t', t ∈ tasks → t' ∈ tasks → ¬ task_lt t t') ∧
       ¬ priorities_strictly_decrease tasks ∧
       total_cycles (stats_ k') = S (total_cycles (stats_ k)) ∧
       agent_states_ k' = agent_states_ k) ∧
  (∀ short now id w k steps ts,
     is_Some (agent_states_ k !! id) → running_ k = true →
     task_queue_ k = [] →
     dequeued (task_queue_ (runCognitiveCycle short now id k)) steps.*2
       = Some ts →
     length steps = 7 →
     ∃ s', run_workers steps
             {| world := w; kernel := runCognitiveCycle short now id k |}
           = Some s' ∧
           task_queue_ (kernel s') = [] ∧
           completed_tasks (stats_ (kernel s'))
             = completed_tasks (stats_ k) + 7 ∧
           failed_tasks (stats_ (kernel s')) = failed_tasks (stats_ k) ∧
           ∃ t, last ts = Some t ∧
                phase_of id s' = Some (next_phase (task_phase t)) ∧
                (phase_of id s' = Some PERCEPTION ↔ task_phase t = REFLECTION)) ∧
  (∀ short now id w k es,
     is_Some (agent_states_ k !! id) → running_ k = true →
     task_queue_ k = [] → length es = 7 →
     ∃ s' ts,
       run_workers (zip es heap_positions)
         {| world := w; kernel := runCognitiveCycle short now id k |}
       = Some s' ∧
       dequeued (task_queue_ (runCognitiveCycle short now id k))
                heap_positions = Some ts ∧
       task_phase <$> ts
         = [PERCEPTION; REASONING; LEARNING; REFLECTION; EXECUTION; ATTENTION;
            PLANNING] ∧
       task_queue_ (kernel s') = [] ∧
       completed_tasks (stats_ (kernel s')) = completed_tasks (stats_ k) + 7 ∧
       phase_of id s' = Some EXECUTION) ∧
  (∀ short now id w k es,
     is_Some (agent_states_ k !! id) → running_ k = true →
     task_queue_ k = [] → length es = 7 →
     ∃ s', run_workers (fifo_steps es)
             {| world := w; kernel := runCognitiveCycle short now id k |}
           = Some s' ∧
           task_queue_ (kernel s') = [] ∧
           phase_of id s' = Some PERCEPTION).
Proof.
  assert (∀ short now id w k steps ts,
            is_Some (agent_states_ k !! id) → running_ k = true →
            task_queue_ k = [] →
            dequeued (task_queue_ (runCognitiveCycle short now id k)) steps.*2
              = Some ts →
            length steps = 7 →
            ∃ s', run_workers steps
                    {| world := w; kernel := runCognitiveCycle short now id k |}
                  = Some s' ∧
                  task_queue_ (kernel s') = [] ∧
                  completed_tasks (stats_ (kernel s'))
                    = completed_tasks (stats_ k) + 7 ∧
                  failed_tasks (stats_ (kernel s')) = failed_tasks (stats_ k) ∧
                  ∃ t, last ts = Some t ∧
                       phase_of id s' = Some (next_phase (task_phase t)))
    as Hany.
  { intros short now id w k steps ts Hreg Hrun Hq Hdq Hlen.
    set (s := {| world := w; kernel := runCognitiveCycle short now id k |}).
    assert (kernel s = set_stats (bump_total_cycles (stats_ k))
                         (set_task_queue (cycle_tasks short now id) k)) as Hk.
    { subst s. cbn [kernel]. rewrite runCognitiveCycle_spec by done.
      by rewrite Hq. }
    destruct (run_workers_dequeued id steps s ts)
      as (s' & Hr & Hl & Hlts & Hc & Hf & _ & Hph).
    - by rewrite Hk.
    - rewrite Hk. apply cycle_tasks_Forall.
    - by rewrite Hk.
    - exact Hdq.
    - exists s'. rewrite Hk in Hl, Hc, Hf.
      cbn [task_queue_ stats_ set_stats set_task_queue completed_tasks
           failed_tasks bump_total_cycles] in Hl, Hc, Hf.
      change (length (cycle_tasks short now id)) with 7 in Hl.
      split; [exact Hr|]. split.
      { destruct (task_queue_ (kernel s')); [done|]. simpl in Hl. lia. }
      split; [lia|]. split; [done|].
      destruct (last ts) as [t|] eqn:El.
      + by exists t.
      + apply last_None in El. subst ts. simpl in Hlts. lia. }
  split_and!.
  - intros short now id k Hreg k'. unfold k'.
    rewrite runCognitiveCycle_spec by done.
    exists (cycle_tasks short now id).
    pose proof (cycle_tasks_Forall short now id) as Hall.
    rewrite Forall_forall in Hall.
    split_and!; try done.
    + apply Forall_forall. intros t Ht. by destruct (Hall t Ht) as (? & ? & _).
    + intros t t' Ht Ht'. unfold task_lt.
      destruct (Hall t Ht) as (-> & _). destruct (Hall t' Ht') as (-> & _).
      lia.
    + intros Hdec.
      pose proof (Hdec 0 1
                    (make_phase_task (short PERCEPTION) now id PERCEPTION ∅)
                    (make_phase_task (short ATTENTION) now id ATTENTION ∅))
        as Hlt.
      cbn [priority make_phase_task] in Hlt.
      assert (0 < 0)%Z as Habs; [|lia].
      apply Hlt; [lia|reflexivity..].
  - intros short now id w k steps ts Hreg Hrun Hq Hdq Hlen.
    destruct (Hany short now id w k steps ts)
      as (s' & Hr & Hq' & Hc & Hf & t & Ht & Hph); try done.
    exists s'. split_and!; try done. exists t. split_and!; try done.
    rewrite Hph. split.
    + intros [= Hn]. by destruct (task_phase t).
    + by intros ->.
  - intros short now id w k es Hreg Hrun Hq Hlen.
    do 8 (destruct es as [|? es]; [try done|]); [|done].
    set (steps := zip _ heap_positions).
    assert (task_queue_ (runCognitiveCycle short now id k)
            = cycle_tasks short now id) as Hk.
    { rewrite runCognitiveCycle_spec by done. simpl. by rewrite Hq. }
    destruct (Hany short now id w k steps
                (map (λ phase, make_phase_task (short phase) now id phase ∅)
                   [PERCEPTION; REASONING; LEARNING; REFLECTION; EXECUTION;
                    ATTENTION; PLANNING]))
      as (s' & Hr & Hq' & Hc & Hf & t & Ht & Hph); try done.
    { by rewrite Hk. }
    eexists s', _. split; [exact Hr|]. split; [by rewrite Hk|].
    split; [done|]. split; [done|]. split; [done|].
    rewrite Hph. injection Ht as <-. done.
  - intros short now id w k es Hreg Hrun Hq Hlen.
    destruct (cycle_drained_in_order short now id w k es 6 PERCEPTION)
      as (s' & H1 & H2 & _ & _ & _ & H6); try done.
    exists s'. rewrite take_ge in H1 by lia. by split_and!.
Qed.

Lemma C1_cycle_order_not_enforced_witness :
  ∃ s' ts,
    run_workers out_of_order_steps cycle_sys = Some s' ∧
    dequeued (task_queue_ (kernel cycle_sys)) heap_positions = Some ts ∧
    task_phase <$> ts
      = [PERCEPTION; REASONING; LEARNING; REFLECTION; EXECUTION; ATTENTION;
         PLANNING] ∧
    task_queue_ (kernel s') = [] ∧
    completed_tasks (stats_ (kernel s')) = 7 ∧
    phase_of "a1" s' = Some EXECUTION.
Proof.
  apply (proj1 (proj2 (proj2 C1_cycle_order_not_enforced))
           a1_short 7%Z "a1" (empty_world "default_space") running_kernel
           seven_envs).
  - apply (bool_decide_unpack _). vm_compute. exact I.
  - reflexivity.
  - reflexivity.
  - reflexivity.
Defined.

(** ** Execution and Learning *)

Lemma executeActions_count id c :
  executed_count (executeActions id c)
  = Some (to_string_nat
            (length (split (default "" (variables c !! "action_plans"))
                           ","%char))).
Proof.
  unfold executed_count, executeActions, get_var, set_var. simpl.
  by rewrite lookup_insert_eq.
Qed.

Lemma processTask_execution e t s :
  task_phase t = EXECUTION →
  (processTask e t s).1 = executeActions (task_agent_id t) (task_context t).
Proof.
  intros Hph. unfold processTask, executePhaseFunction. by rewrite Hph.
Qed.

(** C3, as stated, fails.  The agent holds five intentions.  The
    Execution task of a cycle starts from an empty scratch context and
    records 0; an Execution task whose parameters list four plans records
    4.  Neither is min(5,3). *)
Lemma C3_no_cap_counterexample :
  ¬ execution_capped (env_at 4) execution_task busy_sys ∧
  ¬ execution_capped (env_at 4) execution_task_four_plans busy_sys ∧
  executed_count (processTask (env_at 4) execution_task busy_sys).1
    = Some "0" ∧
  executed_count (processTask (env_at 4) execution_task_four_plans busy_sys).1
    = Some "4".
Proof.
  split_and!.
  - intros Hcap.
    specialize (Hcap (set_last_update 8
                        (set_intentions five_intentions
                           (set_current_phase EXECUTION a1_state)))
                  eq_refl eq_refl).
    by vm_compute in Hcap.
  - intros Hcap.
    specialize (Hcap (set_last_update 8
                        (set_intentions five_intentions
                           (set_current_phase EXECUTION a1_state)))
                  eq_refl eq_refl).
    by vm_compute in Hcap.
  - vm_compute. reflexivity.
  - vm_compute. reflexivity.
Qed.

(** C3, amended.  The Execution handler reads the comma-separated list in
    the scratch context's [action_plans] variable (for a task, the one of
    its parameters), visits every entry and records the number of entries
    in [actions_executed], without a cap: for a list of n non-empty,
    comma-free plans the recorded count is n. *)
Theorem C3_execution_counts_context_plans :
  (∀ e t s,
     task_phase t = EXECUTION →
     executed_count (processTask e t s).1
     = Some (to_string_nat
               (length (split (default "" (parameters t !! "action_plans"))
                              ","%char)))) ∧
  (∀ id c plans,
     Forall plain_plan plans →
     executed_count
       (executeActions id (set_var "action_plans" (join plans ",") c))
     = Some (to_string_nat (length plans))).
Proof.
  split.
  - intros e t s Hph. rewrite processTask_execution by done.
    by rewrite executeActions_count.
  - intros id c plans Hplans. rewrite executeActions_count.
    unfold set_var. simpl. rewrite lookup_insert_eq. simpl.
    by rewrite split_join.
Qed.

Lemma C3_execution_counts_context_plans_witness :
  executed_count
    (executeActions "a1"
       (set_var "action_plans" (join five_intentions ",")
          (CognitiveContext_ctor "a1")))
  = Some "5".
Proof.
  apply (proj2 C3_execution_counts_context_plans "a1"
           (CognitiveContext_ctor "a1") five_intentions).
  apply (bool_decide_unpack _). vm_compute. exact I.
Defined.

Lemma processTask_learning_with_count e t s str :
  task_phase t = LEARNING →
  parameters t !! "actions_executed" = Some str →
  (0 < parseInt str 0)%Z →
  world (processTask e t s).2
  = (addMemoryNode (env_uuid e) (env_short e) (env_now e)
       ("Executed " +:+ to_string_Z (parseInt str 0)
          +:+ " actions successfully")
       "procedural" (world s)).2.
Proof.
  intros Hph Hp Hpos. unfold processTask, executePhaseFunction. rewrite Hph.
  unfold processLearningPhase, updateKnowledge, get_var, task_context.
  cbn [variables set_variables]. rewrite Hp. cbn [default].
  by rewrite decide_True.
Qed.

(** C4: what the code does.  A task of any phase other than Learning
    leaves the atoms of the store as they are.  A Learning task adds one
    procedural memory node when its own scratch context holds a positive
    [actions_executed], and nothing when the variable is absent.  The
    scratch context of a task is built from the task's parameters, and the
    tasks of [runCognitiveCycle] have none: in a cycle drained in order
    all seven tasks complete and no atom is created, whatever the agent's
    goals are. *)
Theorem C4_cycle_creates_no_atom :
  (∀ e t s,
     task_phase t ≠ LEARNING →
     same_atoms (world s) (world (processTask e t s).2)) ∧
  (∀ e t s,
     task_phase t = LEARNING →
     parameters t !! "actions_executed" = None →
     world (processTask e t s).2 = world s) ∧
  (∀ e t s str,
     task_phase t = LEARNING →
     parameters t !! "actions_executed" = Some str →
     (0 < parseInt str 0)%Z →
     ∃ p a, atoms_ (space (world (processTask e t s).2)) !! env_uuid e = Some p
            ∧ heap (world (processTask e t s).2) !! p = Some a
            ∧ type_ a = MEMORY_NODE
            ∧ Atom_getMetadata "memory_type" a = "procedural") ∧
  (∀ short now id w k es,
     is_Some (agent_states_ k !! id) → running_ k = true →
     task_queue_ k = [] → length es = 7 →
     ∃ s', run_workers (fifo_steps es)
             {| world := w; kernel := runCognitiveCycle short now id k |}
           = Some s' ∧
           task_queue_ (kernel s') = [] ∧
           completed_tasks (stats_ (kernel s'))
             = completed_tasks (stats_ k) + 7 ∧
           failed_tasks (stats_ (kernel s')) = failed_tasks (stats_ k) ∧
           same_atoms w (world s')).
Proof.
  split_and!.
  - apply processTask_other_phases.
  - apply processTask_learning_no_count.
  - intros e t s str Hph Hp Hpos.
    rewrite (processTask_learning_with_count e t s str) by done.
    unfold addMemoryNode. set (a := Atom_setAttentionValue _ _).
    pose proof (make_and_add_lookup a (world s)) as [Hh Ha].
    exists (make_and_add a (world s)).1, a.
    split_and!; [exact Ha|exact Hh|done|done].
  - intros short now id w k es Hreg Hrun Hq Hlen.
    destruct (cycle_drained_in_order short now id w k es 6 PERCEPTION)
      as (s' & H1 & H2 & H3 & H4 & H5 & _); try done.
    exists s'. split_and!; try done.
    rewrite <- H1. by rewrite take_ge by lia.
Qed.

Lemma C4_cycle_creates_no_atom_witness :
  ∃ s', run_workers (fifo_steps seven_envs) cycle_sys = Some s' ∧
        completed_tasks (stats_ (kernel s')) = 7 ∧
        atoms_ (space (world s')) = ∅.
Proof.
  destruct (proj2 (proj2 (proj2 C4_cycle_creates_no_atom))
              a1_short 7%Z "a1" (empty_world "default_space") running_kernel
              seven_envs)
    as (s' & Hrun & _ & Hc & _ & Ha & _).
  - apply (bool_decide_unpack _). vm_compute. exact I.
  - reflexivity.
  - reflexivity.
  - reflexivity.
  - exists s'. split_and!; [exact Hrun|exact Hc|exact Ha].
Defined.

(** * Further properties of the store *)

(** X1.  [addAtom] of a pointer to an object returns that pointer and
    makes [getAtom] of the object's id return it, leaving every other id
    as it was.  The number of atoms grows by one when the id was unknown
    and is unchanged when the id was already present (the entry is
    replaced, silently); the add counter advances in both cases. *)
Theorem X1_addAtom_getAtom h s p a :
  h !! p = Some a →
  let r := addAtom h (Some p) s in
  r.1 = Some p ∧
  getAtom (id_ a) r.2 = Some p ∧
  (∀ id, id ≠ id_ a → getAtom id r.2 = getAtom id s) ∧
  getAtomCount r.2
    = (if getAtom (id_ a) s is Some _ then getAtomCount s
       else S (getAtomCount s)) ∧
  atom_counter_ r.2 = S (atom_counter_ s) ∧
  attentional_focus_ r.2 = attentional_focus_ s.
Proof.
  intros Ha. unfold addAtom, getAtom, getAtomCount. rewrite Ha. simpl.
  split_and!; try done.
  - apply lookup_insert_eq.
  - intros id Hne. by rewrite lookup_insert_ne.
  - destruct (atoms_ s !! id_ a) as [q|] eqn:E.
    + by rewrite map_size_insert_Some.
    + by rewrite map_size_insert_None.
Qed.

Lemma X1_addAtom_getAtom_witness :
  getAtom (id_ alice)
    (addAtom (heap agents_world) (Some alice_ptr) (space agents_world)).2
  = Some alice_ptr.
Proof.
  destruct (X1_addAtom_getAtom (heap agents_world) (space agents_world)
              alice_ptr alice) as (_ & H & _).
  - vm_compute. reflexivity.
  - exact H.
Defined.

(** X2.  [removeAtom] of an unknown id returns false and changes nothing.
    For a known id it returns true; afterwards [getAtom] of the id finds
    nothing, there is one atom less, every other id resolves as before,
    and the attentional focus is left as it was: an id that was in the
    focus stays there after its atom is gone. *)
Theorem X2_removeAtom h s id :
  (getAtom id s = None → removeAtom h id s = (false, s)) ∧
  (∀ p, getAtom id s = Some p →
     let r := removeAtom h id s in
     r.1 = true ∧
     getAtom id r.2 = None ∧
     (∀ id', id' ≠ id → getAtom id' r.2 = getAtom id' s) ∧
     S (getAtomCount r.2) = getAtomCount s ∧
     atom_counter_ r.2 = atom_counter_ s ∧
     attentional_focus_ r.2 = attentional_focus_ s).
Proof.
  unfold removeAtom, getAtom, getAtomCount. split.
  - by intros ->.
  - intros p Hp. rewrite Hp.
    assert (S (size (delete id (atoms_ s))) = size (atoms_ s)) as Hsize.
    { rewrite map_size_delete_Some by done.
      assert (size (atoms_ s) ≠ 0); [|lia].
      intros Hz%map_size_empty_iff. by rewrite Hz, lookup_empty in Hp. }
    destruct (h !! p) as [a|]; simpl; split_and!; try done;
      try apply lookup_delete_eq;
      intros id' Hne; by rewrite lookup_delete_ne.
Qed.

Lemma X2_removeAtom_witness :
  getAtom (id_ bob)
    (removeAtom (heap agents_world) (id_ bob) (space agents_world)).2 = None.
Proof.
  destruct (proj2 (X2_removeAtom (heap agents_world) (space agents_world)
                     (id_ bob)) bob_ptr) as (_ & H & _).
  - vm_compute. reflexivity.
  - exact H.
Defined.

Lemma NoDup_omap_inj {A B} (f : A → option B) (l : list A) :
  NoDup l →
  (∀ x y z, x ∈ l → y ∈ l → f x = Some z → f y = Some z → x = y) →
  NoDup (omap f l).
Proof.
  induction 1 as [|x l Hx Hnd IH]; intros Hinj; [constructor|].
  simpl. destruct (f x) as [z|] eqn:Ez.
  - constructor.
    + rewrite list_elem_of_omap. intros (y & Hy & Hfy).
      assert (x = y) as -> by (eapply Hinj; [left|by right|done..]).
      done.
    + apply IH. intros a b c Ha Hb. apply Hinj; by right.
  - apply IH. intros a b c Ha Hb. apply Hinj; by right.
Qed.

Lemma index_lookup_NoDup (w : World) (ids : gset string) :
  store_wf w → NoDup (omap (λ id, atoms_ (space w) !! id) (elements ids)).
Proof.
  intros Hwf. apply NoDup_omap_inj; [apply NoDup_elements|].
  intros x y p _ _ Hx Hy.
  destruct (Hwf x p Hx) as (a & Ha & <-).
  destruct (Hwf y p Hy) as (b & Hb & <-). congruence.
Qed.

Lemma getAtomsByType_elem w t p :
  index_inv w →
  p ∈ getAtomsByType t (space w)
  ↔ live w p ∧ type_ <$> heap w !! p = Some t.
Proof.
  intros (Hun & Hwf & Hlive & Hdead). unfold getAtomsByType, live.
  rewrite list_elem_of_omap. split.
  - intros (id & Hid%elem_of_elements & Hp).
    destruct (Hwf id p Hp) as (a & Ha & <-). rewrite Ha. simpl.
    split; [done|]. f_equal. symmetry. by apply (Hlive (id_ a) p a).
  - intros [Hl Ht]. destruct (heap w !! p) as [a|] eqn:Ha; [|done].
    simpl in Ht. injection Ht as <-.
    exists (id_ a). split; [|done]. apply elem_of_elements.
    by apply (Hlive (id_ a) p a).
Qed.

Lemma getAtomsByName_elem w n p :
  index_inv w →
  p ∈ getAtomsByName n (space w)
  ↔ live w p ∧ name_ <$> heap w !! p = Some n.
Proof.
  intros (Hun & Hwf & Hlive & Hdead). unfold getAtomsByName, live.
  rewrite list_elem_of_omap. split.
  - intros (id & Hid%elem_of_elements & Hp).
    destruct (Hwf id p Hp) as (a & Ha & <-). rewrite Ha. simpl.
    split; [done|]. f_equal. symmetry. by apply (Hlive (id_ a) p a).
  - intros [Hl Ht]. destruct (heap w !! p) as [a|] eqn:Ha; [|done].
    simpl in Ht. injection Ht as <-.
    exists (id_ a). split; [|done]. apply elem_of_elements.
    by apply (Hlive (id_ a) p a).
Qed.

(** X3.  In every store reached by a history in which new atoms get
    unused ids and no stored atom is renamed, the queries are exact:
    [getAtomsByType] lists, once each, exactly the stored atoms of that
    type, [getAtomsByName] exactly the stored atoms of that name, and
    [findAtoms] with a non-empty name exactly the stored atoms of that
    type and name ([findAtoms] with an empty name is [getAtomsByType]). *)
Theorem X3_queries_exact name ops :
  disciplined (empty_world name) ops →
  let w := run_ops ops (empty_world name) in
  (∀ t p, p ∈ getAtomsByType t (space w)
          ↔ live w p ∧ type_ <$> heap w !! p = Some t) ∧
  (∀ n p, p ∈ getAtomsByName n (space w)
          ↔ live w p ∧ name_ <$> heap w !! p = Some n) ∧
  (∀ t n p, n ≠ "" →
     p ∈ findAtoms t n w
     ↔ live w p ∧ type_ <$> heap w !! p = Some t
       ∧ name_ <$> heap w !! p = Some n) ∧
  (∀ t, findAtoms t "" w = getAtomsByType t (space w)) ∧
  (∀ t, NoDup (getAtomsByType t (space w))) ∧
  (∀ n, NoDup (getAtomsByName n (space w))).
Proof.
  intros Hd w.
  assert (index_inv w) as Hinv
    by (by apply index_inv_run_ops, index_inv_empty).
  split_and!.
  - intros t p. by apply getAtomsByType_elem.
  - intros n p. by apply getAtomsByName_elem.
  - intros t n p Hn. unfold findAtoms. rewrite decide_False by done.
    rewrite list_elem_of_filter, getAtomsByName_elem by done. naive_solver.
  - done.
  - intros t. apply index_lookup_NoDup. apply Hinv.
  - intros n. apply index_lookup_NoDup. apply Hinv.
Qed.

Lemma X3_queries_exact_witness :
  bob_ptr ∈ getAtomsByType AGENT_NODE
              (space (run_ops readd_history (empty_world "default_space"))).
Proof.
  apply (proj1 (X3_queries_exact "default_space" readd_history
                  ltac:(apply (bool_decide_unpack _); vm_compute; exact I))
           AGENT_NODE bob_ptr).
  split.
  - apply (bool_decide_unpack _). vm_compute. exact I.
  - vm_compute. reflexivity.
Defined.

#[local] Instance more_important_trans h : Transitive (more_important h).
Proof. intros p q r. unfold more_important. intros H1 H2. by eapply Qle_trans. Qed.

#[local] Instance more_important_total h : Total (more_important h).
Proof.
  intros p q. unfold more_important.
  destruct (Qlt_le_dec (importance h p) (importance h q)) as [Hlt|Hle].
  - right. by apply Qlt_le_weak.
  - by left.
Qed.

(** X4.  [getMostImportantAtoms(limit)] returns min(limit, number of
    atoms) atoms of the store, ordered by decreasing sti+lti+vlti, and
    every atom of the store it leaves out is at most as important as every
    atom it returns. *)
Theorem X4_getMostImportantAtoms limit w :
  let r := getMostImportantAtoms limit w in
  length r = limit `min` getAtomCount (space w) ∧
  (∀ p, p ∈ r → p ∈ getAtoms (space w)) ∧
  StronglySorted (more_important (heap w)) r ∧
  (∃ rest, r ++ rest ≡ₚ getAtoms (space w) ∧
           ∀ p q, p ∈ r → q ∈ rest →
                  (importance (heap w) q <= importance (heap w) p)%Q).
Proof.
  unfold getMostImportantAtoms. simpl.
  set (sorted := merge_sort (more_important (heap w)) (getAtoms (space w))).
  assert (sorted ≡ₚ getAtoms (space w)) as Hperm
    by apply merge_sort_Permutation.
  assert (StronglySorted (more_important (heap w)) sorted) as Hsorted
    by apply (StronglySorted_merge_sort _).
  split_and!.
  - rewrite length_take, Hperm. unfold getAtoms, getAtomCount.
    by rewrite length_fmap, length_map_to_list.
  - intros p Hp. rewrite <- Hperm, <- (take_drop limit sorted).
    apply elem_of_app. by left.
  - rewrite <- (take_drop limit sorted) in Hsorted.
    by apply StronglySorted_app_1_l in Hsorted.
  - exists (drop limit sorted). split; [by rewrite take_drop|].
    intros p q Hp Hq. rewrite <- (take_drop limit sorted) in Hsorted.
    by apply (StronglySorted_app_1_elem_of _ _ _ p q) in Hsorted.
Qed.

(** ** Relationship queries *)

Lemma trust_go_sym h a b l : trust_go h a b l = trust_go h b a l.
Proof.
  induction l as [|p l IH]; [done|]. simpl.
  destruct (h !! p) as [x|]; [|done].
  destruct (link_endpoints h x) as [[[i0 i1]|]|]; [|done..].
  rewrite IH. repeat case_decide; try done; tauto.
Qed.

Lemma make_and_add_first_of_type a w :
  index_set (atoms_by_type_ (space w)) (type_ a) = ∅ →
  getAtomsByType (type_ a) (space (make_and_add a w).2)
  = [(make_and_add a w).1].
Proof.
  intros Hempty. unfold make_and_add, heap_alloc, addAtom, getAtomsByType.
  cbn [fst snd space]. rewrite lookup_insert_eq.
  cbn [snd atoms_by_type_ atoms_ set_atom_counter addAtomToIndices set_atoms].
  unfold index_insert at 1. unfold index_set at 1.
  rewrite lookup_insert_eq. cbn [default from_option]. unfold id at 1.
  rewrite Hempty, union_empty_l_L, elements_singleton. simpl.
  by rewrite lookup_insert_eq.
Qed.

Lemma make_and_add_heap_old a w q x :
  heap w !! q = Some x → heap (make_and_add a w).2 !! q = Some x.
Proof.
  intros Hq. unfold make_and_add, heap_alloc. cbn [snd heap].
  rewrite lookup_insert_ne; [done|]. intros <-.
  apply (is_fresh (dom (heap w))). by apply elem_of_dom.
Qed.

(** The endpoints read through a fresh arity-2 link between two atoms of
    the store. *)
Lemma link_endpoints_fresh a w p1 p2 a1 a2 :
  Link_getOutgoing a = Some [Some p1; Some p2] →
  heap w !! p1 = Some a1 → heap w !! p2 = Some a2 →
  link_endpoints (heap (make_and_add a w).2) a = Some (Some (id_ a1, id_ a2)).
Proof.
  intros Hout H1 H2. unfold link_endpoints. rewrite Hout.
  cbn -[make_and_add].
  by rewrite (make_and_add_heap_old a w p1 a1),
             (make_and_add_heap_old a w p2 a2).
Qed.

(** X5.  [getTrustLevel] does not depend on the order of its two
    arguments, and is 0 when the store lists no trust link.  After
    [addTrustRelationship(a, b, v)] between two atoms of a store that held
    no trust link, the trust level of a and b, asked in either order, is v
    clamped into [0,1], and the level between a and any third id is 0. *)
Theorem X5_getTrustLevel :
  (∀ a b w, getTrustLevel a b w = getTrustLevel b a w) ∧
  (∀ a b w, getAtomsByType TRUST_LINK (space w) = [] →
            getTrustLevel a b w = Some 0%Q) ∧
  (∀ uuid now id1 id2 v w p1 p2,
     store_wf w →
     index_set (atoms_by_type_ (space w)) TRUST_LINK = ∅ →
     getAtom id1 (space w) = Some p1 →
     getAtom id2 (space w) = Some p2 →
     let w' := (addTrustRelationship uuid now id1 id2 v w).2 in
     getTrustLevel id1 id2 w' = Some (clamp v 0 1) ∧
     getTrustLevel id2 id1 w' = Some (clamp v 0 1) ∧
     (∀ c, c ≠ id1 → c ≠ id2 →
           getTrustLevel id1 c w' = Some 0%Q ∧
           getTrustLevel id2 c w' = Some 0%Q)).
Proof.
  split_and!.
  - intros a b w. apply trust_go_sym.
  - intros a b w Hnone. unfold getTrustLevel. by rewrite Hnone.
  - intros uuid now id1 id2 v w p1 p2 Hwf Hempty H1 H2.
    destruct (Hwf id1 p1 H1) as (a1 & Ha1 & Hid1).
    destruct (Hwf id2 p2 H2) as (a2 & Ha2 & Hid2).
    unfold addTrustRelationship, add_link. rewrite H1, H2.
    set (a := Atom_setMetadata _ _ _).
    pose proof (make_and_add_first_of_type a w Hempty) as Hlist.
    pose proof (make_and_add_lookup a w) as [Hh _].
    pose proof (link_endpoints_fresh a w p1 p2 a1 a2 eq_refl Ha1 Ha2) as Hends.
    rewrite Hid1, Hid2 in Hends.
    destruct (make_and_add a w) as [p w'] eqn:E. cbn [fst snd] in *.
    assert (∀ x y, getTrustLevel x y w'
              = if decide ((id1 = x ∧ id2 = y) ∨ (id1 = y ∧ id2 = x))
                then Some (clamp v 0 1) else Some 0%Q) as Hlevel.
    { intros x y. unfold getTrustLevel.
      change (type_ a) with TRUST_LINK in Hlist. rewrite Hlist. simpl.
      by rewrite Hh, Hends. }
    split_and!.
    + rewrite Hlevel, decide_True; [done|by left].
    + rewrite Hlevel, decide_True; [done|by right].
    + intros c Hc1 Hc2. rewrite !Hlevel.
      rewrite !decide_False; [done|..]; naive_solver.
Qed.

Lemma X5_getTrustLevel_witness :
  getTrustLevel (id_ bob) (id_ alice)
    (addTrustRelationship trust_uuid 0 (id_ alice) (id_ bob) (3 # 2)
       agents_world).2
  = Some (clamp (3 # 2) 0 1).
Proof.
  destruct (proj2 (proj2 X5_getTrustLevel) trust_uuid 0%Z (id_ alice)
              (id_ bob) (3 # 2)%Q agents_world alice_ptr bob_ptr)
    as (_ & H & _).
  - apply (bool_decide_unpack _). vm_compute. exact I.
  - vm_compute. reflexivity.
  - vm_compute. reflexivity.
  - vm_compute. reflexivity.
  - exact H.
Defined.

(** X6.  [getCollaborators] of an id the store does not know is empty.
    After [addCollaborationLink(a, b, type)] between two different atoms
    of a store that held no collaboration link, a's collaborators are
    exactly b, b's are exactly a, and any other atom of the store has
    none.  When one endpoint is unknown the call returns null and leaves
    the world as it was. *)
Theorem X6_getCollaborators :
  (∀ id w, getAtom id (space w) = None → getCollaborators id w = Some []) ∧
  (∀ uuid now id1 id2 type w,
     getAtom id1 (space w) = None ∨ getAtom id2 (space w) = None →
     addCollaborationLink uuid now id1 id2 type w = (None, w)) ∧
  (∀ uuid now id1 id2 type w p1 p2,
     store_wf w →
     index_set (atoms_by_type_ (space w)) COLLABORATION_LINK = ∅ →
     getAtom id1 (space w) = Some p1 →
     getAtom id2 (space w) = Some p2 →
     id1 ≠ id2 →
     let w' := (addCollaborationLink uuid now id1 id2 type w).2 in
     getCollaborators id1 w' = Some [id2] ∧
     getCollaborators id2 w' = Some [id1] ∧
     (∀ c, c ≠ id1 → c ≠ id2 → getCollaborators c w' = Some [])).
Proof.
  split_and!.
  - intros id w Hnone. unfold getCollaborators. by rewrite Hnone.
  - intros uuid now id1 id2 type w Hnone.
    unfold addCollaborationLink, add_link.
    destruct Hnone as [-> | ->]; [done|]. by destruct (getAtom id1 _).
  - intros uuid now id1 id2 type w p1 p2 Hwf Hempty H1 H2 Hne.
    destruct (Hwf id1 p1 H1) as (a1 & Ha1 & Hid1).
    destruct (Hwf id2 p2 H2) as (a2 & Ha2 & Hid2).
    unfold addCollaborationLink, add_link. rewrite H1, H2.
    set (a := Atom_setMetadata _ _ _).
    pose proof (make_and_add_first_of_type a w Hempty) as Hlist.
    pose proof (make_and_add_lookup a w) as [Hh _].
    pose proof (link_endpoints_fresh a w p1 p2 a1 a2 eq_refl Ha1 Ha2) as Hends.
    rewrite Hid1, Hid2 in Hends.
    destruct (make_and_add a w) as [p w'] eqn:E. cbn [fst snd] in *.
    change (type_ a) with COLLABORATION_LINK in Hlist.
    assert (∀ c, collaborators_go (heap w') c
                   (getAtomsByType COLLABORATION_LINK (space w'))
                 = Some (if decide (id1 = c) then [id2]
                         else if decide (id2 = c) then [id1] else []))
      as Hgo.
    { intros c. rewrite Hlist. cbn [collaborators_go]. rewrite Hh.
      cbn [mbind option_bind]. by rewrite Hends. }
    assert (∀ c, getCollaborators c w' = Some [] ∨
                 getCollaborators c w'
                 = Some (if decide (id1 = c) then [id2]
                         else if decide (id2 = c) then [id1] else []))
      as Hcases.
    { intros c. unfold getCollaborators.
      destruct (getAtom c (space w')); [right; apply Hgo|by left]. }
    assert (∀ c q, getAtom c (space w) = Some q →
                   is_Some (getAtom c (space w'))) as Hknown.
    { intros c q Hc. pose proof E as E'.
      unfold make_and_add, heap_alloc, addAtom in E'.
      rewrite lookup_insert_eq in E'. injection E' as _ <-.
      unfold getAtom. cbn [space atoms_ set_atom_counter addAtomToIndices
                           set_atoms snd].
      destruct (decide (id_ a = c)) as [<-|Hc'].
      - rewrite lookup_insert_eq. by eexists.
      - rewrite lookup_insert_ne by done. by eexists. }
    split_and!.
    + unfold getCollaborators.
      destruct (Hknown id1 p1 H1) as [q ->]. rewrite Hgo.
      by rewrite decide_True.
    + unfold getCollaborators.
      destruct (Hknown id2 p2 H2) as [q ->]. rewrite Hgo.
      rewrite decide_False by done. by rewrite decide_True.
    + intros c Hc1 Hc2. destruct (Hcases c) as [->| ->]; [done|].
      rewrite !decide_False; done.
Qed.

Lemma X6_getCollaborators_witness :
  getCollaborators (id_ alice)
    (addCollaborationLink trust_uuid 0 (id_ alice) (id_ bob) "pairing"
       agents_world).2
  = Some [id_ bob].
Proof.
  destruct (proj2 (proj2 X6_getCollaborators) trust_uuid 0%Z (id_ alice)
              (id_ bob) "pairing" agents_world alice_ptr bob_ptr)
    as (H & _).
  - apply (bool_decide_unpack _). vm_compute. exact I.
  - vm_compute. reflexivity.
  - vm_compute. reflexivity.
  - vm_compute. reflexivity.
  - apply (bool_decide_unpack _). vm_compute. exact I.
  - exact H.
Defined.

(** ** The focus and the store *)

Lemma focus_erase_snoc id f :
  focus_erase id (f ++ [id]) = focus_erase id f.
Proof.
  unfold focus_erase. rewrite filter_app.
  rewrite filter_cons_False by (by intros ?). apply app_nil_r.
Qed.

Lemma focus_erase_tail id f :
  focus_erase id (tail f ++ [id]) = focus_erase id (tail f).
Proof. apply focus_erase_snoc. Qed.

(** X7.  The attentional focus is a list of ids kept apart from the atom
    map.  [addToAttentionalFocus] accepts any id, known to the store or
    not, and the id is in the focus afterwards; with at most 20 entries in
    the focus, adding the same id twice is the same as adding it once.
    [removeFromAttentionalFocus] takes out that id and nothing else,
    keeping the order.  [removeAtom] does not touch the focus: an id in
    the focus is still there after its atom was removed, although
    [getAtom] no longer resolves it. *)
Theorem X7_focus_and_store :
  (∀ id s, id ∈ getAttentionalFocus (addToAttentionalFocus id s)) ∧
  (∀ id s, (length (attentional_focus_ s) ≤ 20)%nat →
     addToAttentionalFocus id (addToAttentionalFocus id s)
     = addToAttentionalFocus id s) ∧
  (∀ id s,
     let s' := removeFromAttentionalFocus id s in
     (id ∉ getAttentionalFocus s') ∧
     getAttentionalFocus s'
       = filter (λ x, x ≠ id) (getAttentionalFocus s) ∧
     atoms_ s' = atoms_ s) ∧
  (∀ h id s p,
     getAtom id s = Some p → id ∈ getAttentionalFocus s →
     let s' := (removeAtom h id s).2 in
     id ∈ getAttentionalFocus s' ∧ getAtom id s' = None).
Proof.
  split_and!.
  - intros id s. unfold getAttentionalFocus.
    pose proof (addToAttentionalFocus_last id s) as Hl.
    destruct (attentional_focus_ (addToAttentionalFocus id s)) as [|x l]
      using rev_ind; [done|].
    rewrite last_snoc in Hl. injection Hl as ->.
    apply elem_of_app. right. left.
  - intros id s Hlen. destruct s as [n a bt bn c f]. simpl in Hlen.
    unfold addToAttentionalFocus, set_attentional_focus. simpl. f_equal.
    pose proof (focus_erase_length id f) as Hle.
    pose proof (focus_erase_not_elem id f) as Hnot.
    set (g := focus_erase id f) in *.
    destruct (decide (max_focus_size < length (g ++ [id]))) as [Hbig|Hsmall].
    + rewrite length_app in Hbig. unfold max_focus_size in *. simpl in Hbig.
      destruct g as [|x g]; [simpl in *; lia|].
      cbn [tail app]. rewrite focus_erase_snoc.
      rewrite (focus_erase_id id g).
      2:{ intros Hin. apply Hnot. by right. }
      rewrite decide_False; [done|].
      rewrite length_app. simpl in *. lia.
    + rewrite focus_erase_snoc, (focus_erase_id id g) by done.
      rewrite decide_False by done. reflexivity.
  - intros id s. simpl. split_and!; [apply focus_erase_not_elem|done..].
  - intros h id s p Hp Hin. simpl. unfold getAttentionalFocus.
    rewrite removeAtom_focus. split; [done|].
    unfold removeAtom, getAtom in *. rewrite Hp.
    destruct (h !! p); simpl; apply lookup_delete_eq.
Qed.

Lemma X7_focus_and_store_witness :
  addToAttentionalFocus "f7" (addToAttentionalFocus "f7" full_focus_space)
  = addToAttentionalFocus "f7" full_focus_space.
Proof.
  apply (proj1 (proj2 X7_focus_and_store) "f7" full_focus_space).
  vm_compute. lia.
Defined.

(** ** Ranges of attention values *)

Lemma decay_bounded av : attention_bounded av → attention_bounded (decay av).
Proof.
  destruct av as [s l v]. unfold attention_bounded, decay. simpl.
  intros (Hs & Hl & Hv). split_and!; lra.
Qed.

Lemma iter_decay_bounded n av :
  attention_bounded av → attention_bounded (Nat.iter n decay av).
Proof.
  intros Hav. induction n as [|n IH]; [done|]. simpl. by apply decay_bounded.
Qed.

(** X8.  The constructor of [AttentionValue] clamps sti and lti into
    [-1,1] and vlti into [0,1].  The decay of [updateAttentionValues]
    writes the fields without clamping: from values in those ranges, sti
    and lti stay in [-1,1] and vlti stays at or below 1 but may fall below
    0, never below -0.0001 in one call; there is a constructed value whose
    vlti is negative after one decay.  All three fields stay in [-1,1]
    under any number of calls, for every atom in the store. *)
Theorem X8_decay_ranges :
  (∀ s l v, attention_in_range (AttentionValue_ctor s l v)) ∧
  (∀ av, attention_in_range av →
     (-1 <= sti (decay av) <= 1)%Q ∧ (-1 <= lti (decay av) <= 1)%Q ∧
     (-(1 # 10000) <= vlti (decay av) <= 1)%Q) ∧
  (∃ av, attention_in_range av ∧ (vlti (decay av) < 0)%Q) ∧
  (∀ w id p a n,
     store_wf w →
     atoms_ (space w) !! id = Some p → heap w !! p = Some a →
     attention_bounded (attention_value_ a) →
     ∃ an, heap (updateAttentionValues_n n w) !! p = Some an ∧
           attention_bounded (attention_value_ an)).
Proof.
  split_and!.
  - intros s l v. unfold attention_in_range, AttentionValue_ctor. simpl.
    split_and!; apply clamp_range; lra.
  - intros [s l v]. unfold attention_in_range, decay. simpl.
    intros (Hs & Hl & Hv). split_and!; lra.
  - exists (AttentionValue_ctor 0 (-1) 0).
    split; [|reflexivity].
    unfold attention_in_range. simpl. split_and!; vm_compute; congruence.
  - intros w id p a n Hwf Hp Ha Hb.
    destruct (updateAttentionValues_n_live n w id p a) as (_ & _ & Hn);
      [done..|].
    exists (Nat.iter n decay_atom a). split; [done|].
    rewrite attention_iter_decay_atom. by apply iter_decay_bounded.
Qed.

Lemma X8_decay_ranges_witness :
  ∃ an, heap (updateAttentionValues_n 3 memory_world) !! memory_ptr = Some an ∧
        attention_bounded (attention_value_ an).
Proof.
  apply (proj2 (proj2 (proj2 X8_decay_ranges)) memory_world memory_uuid
           memory_ptr
           (Atom_setAttentionValue (AttentionValue_ctor (1 # 2) 0 (3 # 10))
              (Atom_setMetadata "memory_type" "episodic"
                 (Node_ctor memory_uuid 0 MEMORY_NODE "memory_0a1b2c3d"
                    "first contact")))).
  - apply (bool_decide_unpack _). vm_compute. exact I.
  - vm_compute. reflexivity.
  - vm_compute. reflexivity.
  - unfold attention_bounded. simpl. split_and!; vm_compute; congruence.
Defined.

(** ** Unique node names *)

Lemma string_length_app (a b : string) :
  String.length (a +:+ b) = String.length a + String.length b.
Proof. induction a as [|c a IH]; [done|]. simpl. by rewrite IH. Qed.

Lemma candidate_name_inj base : Inj (=) (=) (candidate_name base).
Proof.
  intros [|i] [|j] Heq; simpl in Heq; [done| | |].
  - apply (f_equal String.length) in Heq.
    rewrite !string_length_app in Heq. simpl in Heq. lia.
  - apply (f_equal String.length) in Heq.
    rewrite !string_length_app in Heq. simpl in Heq. lia.
  - apply (inj (String.app base)) in Heq.
    apply (inj (String.app "_")) in Heq. unfold to_string_nat in Heq.
    by apply (inj pretty) in Heq.
Qed.

(** A name under which [getAtomsByName] finds something is a key of the
    name index. *)
Lemma taken_name_in_index n s :
  getAtomsByName n s ≠ [] → n ∈ dom (atoms_by_name_ s).
Proof.
  unfold getAtomsByName, index_set. intros Hne. apply elem_of_dom.
  destruct (atoms_by_name_ s !! n); [done|].
  simpl in Hne. by rewrite elements_empty in Hne.
Qed.

Lemma unique_name_go_spec fuel base s : ∀ k,
  match unique_name_go fuel base (S k) (candidate_name base k) s with
  | Some name =>
    ∃ j, k ≤ j < k + fuel ∧ name = candidate_name base j ∧
         getAtomsByName name s = [] ∧
         ∀ i, k ≤ i < j → getAtomsByName (candidate_name base i) s ≠ []
  | None =>
    ∀ i, k ≤ i < k + fuel → getAtomsByName (candidate_name base i) s ≠ []
  end.
Proof.
  induction fuel as [|fuel IH]; intros k; [simpl; intros; lia|].
  cbn [unique_name_go].
  destruct (getAtomsByName (candidate_name base k) s) as [|p ps] eqn:E.
  - exists k. split_and!; [lia..|done|done|intros; lia].
  - specialize (IH (S k)). cbn [candidate_name] in IH.
    destruct (unique_name_go fuel base (S (S k))
                (base +:+ "_" +:+ to_string_nat (S k)) s) as [name|].
    + destruct IH as (j & Hj & -> & Hfree & Htaken).
      exists j. split_and!; [lia..|done|done|].
      intros i Hi. destruct (decide (i = k)) as [->|Hik].
      * by rewrite E.
      * apply Htaken. lia.
    + intros i Hi. destruct (decide (i = k)) as [->|Hik].
      * by rewrite E.
      * apply IH. lia.
Qed.

Lemma unique_name_go_more_fuel base s name : ∀ (fuel fuel' k : nat) c,
  (fuel ≤ fuel')%nat →
  unique_name_go fuel base k c s = Some name →
  unique_name_go fuel' base k c s = Some name.
Proof.
  induction fuel as [|fuel IH]; intros fuel' k c Hle Hgo; [done|].
  destruct fuel' as [|fuel']; [lia|]. simpl in *.
  destruct (getAtomsByName c s); [done|]. apply IH; [lia|done].
Qed.

(** Among the first names tried, one more than the name index has keys,
    at least one is free. *)
Lemma unique_name_search_succeeds base s :
  is_Some (unique_name_go (S (size (atoms_by_name_ s))) base 1 base s).
Proof.
  set (n := size (atoms_by_name_ s)).
  pose proof (unique_name_go_spec (S n) base s 0) as Hspec.
  change (candidate_name base 0) with base in Hspec.
  destruct (unique_name_go (S n) base 1 base s) as [name|]; [by eexists|].
  exfalso.
  assert (map (candidate_name base) (seq 0 (S n))
            ⊆+ elements (dom (atoms_by_name_ s))) as Hsub.
  { apply NoDup_submseteq.
    - apply (NoDup_fmap_2 _ (Inj0 := candidate_name_inj base)), NoDup_seq.
    - intros x (i & -> & Hi%elem_of_seq)%list_elem_of_fmap.
      apply elem_of_elements, taken_name_in_index, Hspec. lia. }
  apply submseteq_length in Hsub.
  rewrite length_map, length_seq in Hsub.
  change (length (elements (dom (atoms_by_name_ s))))
    with (size (dom (atoms_by_name_ s))) in Hsub.
  rewrite size_dom in Hsub. lia.
Qed.

(** X9.  The loop of [generateUniqueNodeName] ends: it tries at most one
    name more than the name index has keys.  The name it returns is the
    first of [base], [base_1], [base_2], ... under which [getAtomsByName]
    finds nothing; every name tried before it is taken. *)
Theorem X9_generateUniqueNodeName base s fuel :
  (size (atoms_by_name_ s) < fuel)%nat →
  ∃ j, (j ≤ size (atoms_by_name_ s))%nat ∧
       generateUniqueNodeName fuel base s = Some (candidate_name base j) ∧
       getAtomsByName (candidate_name base j) s = [] ∧
       ∀ i, (i < j)%nat → getAtomsByName (candidate_name base i) s ≠ [].
Proof.
  intros Hfuel. set (n := size (atoms_by_name_ s)) in *.
  pose proof (unique_name_go_spec (S n) base s 0) as Hspec.
  change (candidate_name base 0) with base in Hspec.
  destruct (unique_name_search_succeeds base s) as [name E].
  fold n in E. rewrite E in Hspec.
  destruct Hspec as (j & Hj & -> & Hfree & Htaken).
  exists j. split_and!; [lia| |done|].
  - unfold generateUniqueNodeName.
    apply unique_name_go_more_fuel with (S n); [lia|done].
  - intros i Hi. apply Htaken. lia.
Qed.

Lemma X9_generateUniqueNodeName_witness :
  ∃ j, (j ≤ 2)%nat ∧
       generateUniqueNodeName 3 "alice" (space agents_world)
       = Some (candidate_name "alice" j).
Proof.
  destruct (X9_generateUniqueNodeName "alice" (space agents_world) 3)
    as (j & Hj & Hgen & _).
  - vm_compute. lia.
  - exists j. split; [exact Hj|exact Hgen].
Defined.

(** ** Further properties of the agent state table *)

(** X10.  [removeCognitiveAgent] of an unknown id returns false and changes
    nothing.  For a registered id it returns true and erases the agent's
    state and its observers; the other agents, the statistics and the task
    queue are left alone, so tasks already queued for the agent stay
    queued.  A second removal returns false, and registering the id again
    starts from the goals and beliefs then given, in phase Perception. *)
Theorem X10_removeCognitiveAgent :
  (∀ id k, agent_states_ k !! id = None →
           removeCognitiveAgent id k = (false, k)) ∧
  (∀ id k st, agent_states_ k !! id = Some st →
     let r := removeCognitiveAgent id k in
     r.1 = true ∧ hasAgent id r.2 = false ∧
     (id ∉ getActiveAgents r.2) ∧
     agent_callbacks_ r.2 !! id = None ∧
     (∀ id', id' ≠ id →
        agent_states_ r.2 !! id' = agent_states_ k !! id' ∧
        agent_callbacks_ r.2 !! id' = agent_callbacks_ k !! id') ∧
     task_queue_ r.2 = task_queue_ k ∧ stats_ r.2 = stats_ k ∧
     running_ r.2 = running_ k ∧ notified_ r.2 = notified_ k ∧
     removeCognitiveAgent id r.2 = (false, r.2) ∧
     (∀ now g b,
        let st' := (addCognitiveAgent now id g b r.2).1 in
        goals st' = g ∧ beliefs st' = b ∧ intentions st' = [] ∧
        current_phase st' = PERCEPTION ∧ last_update st' = now)).
Proof.
  split.
  - intros id k Hnone. unfold removeCognitiveAgent. by rewrite Hnone.
  - intros id k st Hst. unfold removeCognitiveAgent. rewrite Hst.
    cbn [fst snd]. unfold hasAgent, getActiveAgents.
    cbn [agent_states_ agent_callbacks_ task_queue_ stats_ running_
         notified_ set_agent_callbacks set_agent_states].
    rewrite !lookup_delete_eq. split_and!; try done.
    + rewrite list_elem_of_fmap. intros ([id' st'] & -> & Hin).
      apply elem_of_map_to_list in Hin. simpl in Hin.
      by rewrite lookup_delete_eq in Hin.
    + intros id' Hne. by rewrite !lookup_delete_ne.
    + intros now g b. unfold addCognitiveAgent.
      cbn [agent_states_ set_agent_callbacks set_agent_states].
      by rewrite lookup_delete_eq.
Qed.

Lemma X10_removeCognitiveAgent_witness :
  (removeCognitiveAgent "a1" a1_kernel).1 = true ∧
  hasAgent "a1" (removeCognitiveAgent "a1" a1_kernel).2 = false.
Proof.
  destruct (proj2 X10_removeCognitiveAgent "a1" a1_kernel a1_state)
    as (H1 & H2 & _).
  - vm_compute. reflexivity.
  - split; [exact H1|exact H2].
Defined.

(** X11.  [addGoal] for an unknown agent does nothing (it does not
    register the agent), and a goal the agent already has is not added
    again and does not refresh the time stamp.  A new goal is appended
    behind the existing ones and the time stamp is set; nothing else of
    the state changes and no observer is called.  So a goal list without
    duplicates stays without duplicates, and a second [addGoal] of the
    same goal changes nothing. *)
Theorem X11_addGoal :
  (∀ now id goal k, agent_states_ k !! id = None → addGoal now id goal k = k) ∧
  (∀ now id goal k st,
     agent_states_ k !! id = Some st → goal ∈ goals st →
     addGoal now id goal k = k) ∧
  (∀ now id goal k st,
     agent_states_ k !! id = Some st → goal ∉ goals st →
     let k' := addGoal now id goal k in
     agent_states_ k'
       = <[id := set_last_update now (set_goals (goals st ++ [goal]) st)]>
           (agent_states_ k) ∧
     notified_ k' = notified_ k ∧ task_queue_ k' = task_queue_ k ∧
     agent_callbacks_ k' = agent_callbacks_ k) ∧
  (∀ now id goal k st,
     agent_states_ k !! id = Some st → NoDup (goals st) →
     ∃ st', agent_states_ (addGoal now id goal k) !! id = Some st' ∧
            NoDup (goals st') ∧ goal ∈ goals st' ∧
            (∀ g, g ∈ goals st → g ∈ goals st')) ∧
  (∀ now1 now2 id goal k,
     addGoal now2 id goal (addGoal now1 id goal k) = addGoal now1 id goal k).
Proof.
  split_and!.
  - intros now id goal k Hnone. unfold addGoal. by rewrite Hnone.
  - intros now id goal k st Hst Hin. unfold addGoal. rewrite Hst.
    by rewrite decide_True.
  - intros now id goal k st Hst Hnot. unfold addGoal. rewrite Hst.
    by rewrite decide_False.
  - intros now id goal k st Hst Hnd. unfold addGoal. rewrite Hst.
    destruct (decide (goal ∈ goals st)) as [Hin|Hnot].
    + exists st. by split_and!.
    + eexists. cbn [agent_states_ set_agent_states].
      rewrite lookup_insert_eq. split; [done|]. simpl. split_and!.
      * apply NoDup_app. split_and!; [done| |apply NoDup_singleton].
        by intros x Hx ->%list_elem_of_singleton.
      * apply elem_of_app. right. left.
      * intros g Hg. apply elem_of_app. by left.
  - intros now1 now2 id goal k. unfold addGoal at 2 3.
    destruct (agent_states_ k !! id) as [st|] eqn:Hst.
    + destruct (decide (goal ∈ goals st)) as [Hin|Hnot].
      * unfold addGoal. rewrite Hst. by rewrite decide_True.
      * unfold addGoal. cbn [agent_states_ set_agent_states].
        rewrite lookup_insert_eq. rewrite decide_True; [done|].
        simpl. apply elem_of_app. right. left.
    + unfold addGoal. by rewrite Hst.
Qed.

Lemma X11_addGoal_witness :
  ∃ st', agent_states_ (addGoal 9 "a1" "g2" a1_kernel) !! "a1" = Some st' ∧
         NoDup (goals st') ∧ "g2" ∈ goals st'.
Proof.
  destruct (proj1 (proj2 (proj2 (proj2 X11_addGoal))) 9%Z "a1" "g2"
              a1_kernel a1_state) as (st' & H1 & H2 & H3 & _).
  - vm_compute. reflexivity.
  - apply (bool_decide_unpack _). vm_compute. exact I.
  - exists st'. split_and!; [exact H1|exact H2|exact H3].
Defined.

(** X12.  [updateBelief] for an unknown agent does nothing.  For a
    registered agent the belief under the key is the value given, whether
    the key was there before or not; the other beliefs, the goals, the
    intentions and the phase stay, the time stamp is set, no observer is
    called, and the other agents are untouched.  Of two updates of the
    same key, the later one wins. *)
Theorem X12_updateBelief :
  (∀ now id key value k,
     agent_states_ k !! id = None → updateBelief now id key value k = k) ∧
  (∀ now id key value k st,
     agent_states_ k !! id = Some st →
     let k' := updateBelief now id key value k in
     ∃ st', agent_states_ k' !! id = Some st' ∧
       beliefs st' !! key = Some value ∧
       (∀ key', key' ≠ key → beliefs st' !! key' = beliefs st !! key') ∧
       goals st' = goals st ∧ intentions st' = intentions st ∧
       current_phase st' = current_phase st ∧ last_update st' = now ∧
       (∀ id', id' ≠ id → agent_states_ k' !! id' = agent_states_ k !! id') ∧
       notified_ k' = notified_ k ∧
       ∀ now2 value2,
         updateBelief now2 id key value2 k'
         = updateBelief now2 id key value2 k).
Proof.
  split.
  - intros now id key value k Hnone. unfold updateBelief. by rewrite Hnone.
  - intros now id key value k st Hst. unfold updateBelief at 1. rewrite Hst.
    eexists. cbn [agent_states_ set_agent_states notified_].
    rewrite lookup_insert_eq. split; [done|]. simpl. split_and!; try done.
    + apply lookup_insert_eq.
    + intros key' Hne. by rewrite lookup_insert_ne.
    + intros id' Hne. by rewrite lookup_insert_ne.
    + intros now2 value2. unfold updateBelief.
      cbn [agent_states_ set_agent_states]. rewrite lookup_insert_eq, Hst.
      unfold set_agent_states. simpl.
      by rewrite insert_insert_eq, insert_insert_eq.
Qed.

Lemma X12_updateBelief_witness :
  ∃ st', agent_states_ (updateBelief 9 "a1" "sky" "blue" a1_kernel) !! "a1"
           = Some st' ∧
         beliefs st' !! "sky" = Some "blue".
Proof.
  destruct (proj2 X12_updateBelief 9%Z "a1" "sky" "blue" a1_kernel a1_state)
    as (st' & H1 & H2 & _).
  - vm_compute. reflexivity.
  - exists st'. split; [exact H1|exact H2].
Defined.

(** ** Observers *)

Lemma register_all_callbacks id cbs : ∀ k,
  let k' := foldl (λ k0 cb, registerCallback id cb k0) k cbs in
  agent_callbacks_ k' !! id
    = (if cbs is [] then agent_callbacks_ k !! id
       else Some (default [] (agent_callbacks_ k !! id) ++ cbs)) ∧
  agent_states_ k' = agent_states_ k ∧ notified_ k' = notified_ k ∧
  task_queue_ k' = task_queue_ k.
Proof.
  induction cbs as [|cb cbs IH]; intros k; [done|].
  cbn [foldl]. destruct (IH (registerCallback id cb k)) as (Hc & Hs & Hn & Hq).
  cbv zeta. rewrite Hs, Hn, Hq. split; [|done].
  rewrite Hc. unfold registerCallback.
  cbn [agent_callbacks_ set_agent_callbacks]. rewrite lookup_insert_eq.
  destruct cbs as [|cb' cbs]; [done|].
  destruct (agent_callbacks_ k !! id); simpl; [by rewrite <- app_assoc|done].
Qed.

(** X13.  [updateCognitiveState] for an unknown agent returns false,
    stores nothing and calls no observer.  For a registered agent it
    stores the state it is given under the id asked for (the id carried
    inside the state is not compared with it) with the time stamp set to
    the clock, and then calls every observer registered for that id, once
    per registration and in the order of registration, with the state as
    it was passed in.  [registerCallback] does not ask whether the agent
    exists, and after [unregisterCallbacks] nobody is called. *)
Theorem X13_updateCognitiveState :
  (∀ now id st k, agent_states_ k !! id = None →
                  updateCognitiveState now id st k = (false, k)) ∧
  (∀ now id st k old cbs,
     agent_states_ k !! id = Some old →
     agent_callbacks_ k !! id = None →
     let k1 := foldl (λ k0 cb, registerCallback id cb k0) k cbs in
     let r := updateCognitiveState now id st k1 in
     r.1 = true ∧
     agent_states_ r.2 !! id = Some (set_last_update now st) ∧
     (∀ id', id' ≠ id → agent_states_ r.2 !! id' = agent_states_ k !! id') ∧
     notified_ r.2 = notified_ k ++ map (λ cb, (cb, st)) cbs ∧
     notified_ (updateCognitiveState now id st (unregisterCallbacks id k1)).2
       = notified_ k) ∧
  (∀ id cb k,
     agent_callbacks_ (registerCallback id cb k) !! id
     = Some (default [] (agent_callbacks_ k !! id) ++ [cb])).
Proof.
  split_and!.
  - intros now id st k Hnone. unfold updateCognitiveState. by rewrite Hnone.
  - intros now id st k old cbs Hold Hcb.
    destruct (register_all_callbacks id cbs k) as (Hc & Hs & Hn & Hq).
    cbv zeta in *. set (k1 := foldl _ k cbs) in *.
    unfold updateCognitiveState, unregisterCallbacks, notifyCallbacks.
    cbn [agent_states_ agent_callbacks_ notified_ set_agent_callbacks
         set_agent_states set_notified].
    rewrite Hs, Hold. cbn [fst snd]. 
    cbn [agent_states_ agent_callbacks_ notified_ set_agent_callbacks
         set_agent_states set_notified].
    rewrite lookup_insert_eq, lookup_delete_eq, Hc, Hn.
    split_and!; try done.
    + intros id' Hne. by rewrite lookup_insert_ne.
    + destruct cbs; rewrite Hcb; done.
    + simpl. apply app_nil_r.
  - intros id cb k. unfold registerCallback.
    cbn [agent_callbacks_ set_agent_callbacks]. apply lookup_insert_eq.
Qed.

Lemma X13_updateCognitiveState_witness :
  notified_
    (updateCognitiveState 9 "a1" (set_current_phase REASONING a1_state)
       (foldl (λ k0 cb, registerCallback "a1" cb k0) a1_kernel [4; 2; 4])).2
  = notified_ a1_kernel
      ++ map (λ cb, (cb, set_current_phase REASONING a1_state)) [4; 2; 4].
Proof.
  destruct (proj1 (proj2 X13_updateCognitiveState) 9%Z "a1"
              (set_current_phase REASONING a1_state) a1_kernel a1_state
              [4; 2; 4]) as (_ & _ & _ & H & _).
  - vm_compute. reflexivity.
  - vm_compute. reflexivity.
  - exact H.
Defined.

(** ** Scheduling all agents *)

Lemma runCognitiveCycle_states short now id k :
  agent_states_ (runCognitiveCycle short now id k) = agent_states_ k.
Proof.
  destruct (agent_states_ k !! id) as [st|] eqn:Hst.
  - by rewrite runCognitiveCycle_spec.
  - by rewrite runCognitiveCycle_unknown.
Qed.

Lemma run_cycles_registered short now ids : ∀ k,
  Forall (λ id, is_Some (agent_states_ k !! id)) ids →
  let k' := foldl (λ k0 id, runCognitiveCycle (short id) now id k0) k ids in
  task_queue_ k'
    = task_queue_ k ++ concat (map (λ id, cycle_tasks (short id) now id) ids) ∧
  total_cycles (stats_ k') = total_cycles (stats_ k) + length ids ∧
  completed_tasks (stats_ k') = completed_tasks (stats_ k) ∧
  agent_states_ k' = agent_states_ k ∧
  running_ k' = running_ k.
Proof.
  induction ids as [|id ids IH]; intros k Hall.
  - simpl. rewrite app_nil_r. split_and!; [done|lia|done..].
  - apply Forall_cons in Hall as [Hid Hall]. cbn [foldl].
    destruct (IH (runCognitiveCycle (short id) now id k))
      as (Hq & Hc & Hd & Hs & Hr).
    { rewrite runCognitiveCycle_states. done. }
    cbv zeta in *. rewrite Hq, Hc, Hd, Hs, Hr.
    rewrite runCognitiveCycle_spec by done.
    cbn [task_queue_ stats_ set_stats set_task_queue agent_states_ running_
         total_cycles completed_tasks bump_total_cycles map concat length].
    rewrite <- app_assoc. split_and!; [done|lia|done..].
Qed.

(** X14.  [runAllAgentsCycles] pushes, for every registered agent in the
    order of [getActiveAgents], the seven tasks of a cycle behind what was
    queued: the queue grows by seven tasks per agent and the cycle counter
    by one per agent.  The agent states are not touched, and with no agent
    registered nothing changes at all. *)
Theorem X14_runAllAgentsCycles short now k :
  let k' := runAllAgentsCycles short now k in
  task_queue_ k'
    = task_queue_ k
      ++ concat (map (λ id, cycle_tasks (short id) now id)
                     (getActiveAgents k)) ∧
  length (task_queue_ k')
    = length (task_queue_ k) + 7 * size (agent_states_ k) ∧
  total_cycles (stats_ k')
    = total_cycles (stats_ k) + size (agent_states_ k) ∧
  completed_tasks (stats_ k') = completed_tasks (stats_ k) ∧
  agent_states_ k' = agent_states_ k ∧
  (agent_states_ k = ∅ → k' = k).
Proof.
  assert (length (getActiveAgents k) = size (agent_states_ k)) as Hlen.
  { unfold getActiveAgents. rewrite length_fmap. apply length_map_to_list. }
  destruct (run_cycles_registered short now (getActiveAgents k) k)
    as (Hq & Hc & Hd & Hs & Hr).
  { apply Forall_forall. intros id Hid. unfold getActiveAgents in Hid.
    apply list_elem_of_fmap in Hid as ([id' st] & -> & Hin).
    apply elem_of_map_to_list in Hin. by eexists. }
  cbv zeta in *. unfold runAllAgentsCycles.
  split_and!; [done| |lia|done|done|].
  - rewrite Hq, length_app. f_equal. rewrite <- Hlen.
    generalize (getActiveAgents k). intros ids.
    induction ids as [|id ids IH]; [done|].
    cbn [map concat]. rewrite length_app, IH.
    unfold cycle_tasks, cycle_phases. simpl. lia.
  - intros Hempty. unfold getActiveAgents. rewrite Hempty.
    by rewrite map_to_list_empty.
Qed.

(** ** Starting, stopping and the worker loop *)

(** X15.  [start] sets the running flag and stamps the start time, and
    does nothing when the microkernel already runs; [stop] clears the
    flag and does nothing when it is stopped.  Neither touches the queue,
    the counters or the agents.  Pushing a task does not ask whether the
    microkernel runs, so tasks scheduled while it is stopped queue up; a
    worker takes no task while the flag is clear. *)
Theorem X15_start_stop :
  (∀ now k, running_ (start now k) = true ∧
            task_queue_ (start now k) = task_queue_ k ∧
            agent_states_ (start now k) = agent_states_ k ∧
            completed_tasks (stats_ (start now k))
              = completed_tasks (stats_ k) ∧
            start_time (stats_ (start now k))
              = if running_ k then start_time (stats_ k) else now) ∧
  (∀ now1 now2 k, start now2 (start now1 k) = start now1 k) ∧
  (∀ k, running_ (stop k) = false ∧ task_queue_ (stop k) = task_queue_ k ∧
        stats_ (stop k) = stats_ k ∧ stop (stop k) = stop k) ∧
  (∀ k task, running_ k = false →
     task_queue_ (scheduleTask task k) = task_queue_ k ++ [task] ∧
     running_ (scheduleTask task k) = false) ∧
  (∀ e i s, running_ (kernel s) = false → worker_step e i s = None) ∧
  (∀ e i s, worker_step e i (set_kernel (stop (kernel s)) s) = None).
Proof.
  split_and!.
  - intros now k. unfold start. by destruct (running_ k) eqn:E.
  - intros now1 now2 k. unfold start. destruct (running_ k) eqn:E.
    + by rewrite E.
    + done.
  - intros k. unfold stop. destruct (running_ k) eqn:E.
    + done.
    + by rewrite E.
  - done.
  - intros e i s Hrun. unfold worker_step. by rewrite Hrun.
  - intros e i s. unfold worker_step, stop.
    by destruct (running_ (kernel s)) eqn:E; simpl; [|rewrite E].
Qed.

Lemma X15_start_stop_witness :
  worker_step (env_at 0) 0 (set_kernel (stop (kernel cycle_sys)) cycle_sys)
  = None ∧
  task_queue_ (scheduleTask execution_task a1_kernel) = [execution_task].
Proof.
  split.
  - apply (proj2 (proj2 (proj2 (proj2 (proj2 X15_start_stop))))).
  - apply (proj1 (proj2 (proj2 (proj2 X15_start_stop))) a1_kernel
             execution_task).
    vm_compute. reflexivity.
Defined.

(** A non-empty queue has an element no other exceeds. *)
Lemma queue_has_top (q : list CognitiveTask) :
  q ≠ [] → ∃ i t, q !! i = Some t ∧ is_top q t.
Proof.
  induction q as [|t q IH]; [done|]. intros _.
  destruct q as [|t' q'].
  - exists 0, t. split; [done|]. constructor; [unfold task_lt; lia|constructor].
  - destruct IH as (i & m & Hi & Hm); [done|].
    destruct (decide (priority m < priority t)%Z) as [Hlt|Hge].
    + exists 0, t. split; [done|]. constructor; [unfold task_lt; lia|].
      eapply Forall_impl; [exact Hm|]. unfold task_lt. simpl. lia.
    + exists (S i), m. split; [done|]. constructor; [unfold task_lt; lia|done].
Qed.

Lemma worker_step_accounts e i s s' :
  worker_step e i s = Some s' →
  running_ (kernel s) = true ∧ running_ (kernel s') = true ∧
  S (length (task_queue_ (kernel s'))) = length (task_queue_ (kernel s)) ∧
  (∃ t, task_queue_ (kernel s) !! i = Some t ∧
        is_top (task_queue_ (kernel s)) t ∧
        task_queue_ (kernel s') = delete i (task_queue_ (kernel s))) ∧
  stats_ (kernel s') = updateStats true (env_elapsed e) (stats_ (kernel s)).
Proof.
  unfold worker_step. destruct (running_ (kernel s)) eqn:Hrun; [|done].
  destruct (task_queue_ (kernel s) !! i) as [t|] eqn:Ht; [|done]. simpl.
  case_decide as Htop; [|done]. intros [= <-].
  set (s0 := set_kernel _ s).
  pose proof (processTask_kernel e t s0) as (_ & _ & Hq & Hr & _ & Hstats).
  rewrite Hq, Hr, Hstats. subst s0. simpl.
  split_and!; [done|done| |by exists t|done].
  rewrite length_delete by (by eexists).
  apply lookup_lt_Some in Ht. lia.
Qed.

(** X16.  While the microkernel runs and the queue is not empty, a worker
    can always take a task: some queued task is one that no other exceeds
    in priority, and the step that dequeues it succeeds.  Whatever tasks
    the workers take and in whatever order, every step removes exactly
    one task from the queue and counts it as completed, never as failed,
    adding its duration to the total: after n steps the queue is n
    shorter, the completed counter n higher, and the cycle counter
    unchanged. *)
Theorem X16_worker_accounting :
  (∀ e s, running_ (kernel s) = true → task_queue_ (kernel s) ≠ [] →
          ∃ i s', worker_step e i s = Some s') ∧
  (∀ steps s s',
     run_workers steps s = Some s' →
     length (task_queue_ (kernel s')) + length steps
       = length (task_queue_ (kernel s)) ∧
     completed_tasks (stats_ (kernel s'))
       = completed_tasks (stats_ (kernel s)) + length steps ∧
     failed_tasks (stats_ (kernel s')) = failed_tasks (stats_ (kernel s)) ∧
     total_cycles (stats_ (kernel s')) = total_cycles (stats_ (kernel s)) ∧
     total_processing_time (stats_ (kernel s'))
       = total_processing_time (stats_ (kernel s))
         + sum_list (map (λ step, env_elapsed step.1) steps) ∧
     running_ (kernel s') = running_ (kernel s)).
Proof.
  split.
  - intros e s Hrun Hq. destruct (queue_has_top _ Hq) as (i & t & Hi & Ht).
    exists i. eexists. unfold worker_step. rewrite Hrun, Hi. simpl.
    by rewrite decide_True.
  - induction steps as [|[e i] steps IH]; intros s s' Hrun.
    + injection Hrun as <-. simpl. split_and!; [lia|lia|done|done|lia|done].
    + cbn [run_workers] in Hrun.
      destruct (worker_step e i s) as [s1|] eqn:Hstep; [|done].
      simpl in Hrun.
      destruct (worker_step_accounts e i s s1 Hstep)
        as (Hr & Hr1 & Hlen & _ & Hstats).
      destruct (IH s1 s' Hrun) as (Hq & Hc & Hf & Htc & Ht & Hrun').
      rewrite Hc, Hf, Htc, Ht, Hrun', Hstats, Hr, Hr1. simpl.
      split_and!; [lia|lia|done|done|lia|done].
Qed.

Lemma X16_worker_accounting_witness :
  ∃ i s', worker_step (env_at 0) i cycle_sys = Some s'.
Proof.
  apply (proj1 X16_worker_accounting (env_at 0) cycle_sys).
  - vm_compute. reflexivity.
  - vm_compute. discriminate.
Defined.

(** ** What the handlers tell the observers *)

(** X17.  The Planning task of a registered agent turns every goal into
    the plan [plan_for_<goal>], in the order of the goals: the plans
    become the agent's intentions and, joined by commas, the scratch
    context's [action_plans].  The state is written twice, first with the
    new intentions and then with the phase set to Execution, so every
    observer of the agent is called twice; the store is not touched. *)
Theorem X17_planning_task e t s st :
  task_phase t = PLANNING →
  agent_states_ (kernel s) !! task_agent_id t = Some st →
  let id := task_agent_id t in
  let plans := map (λ goal, "plan_for_" +:+ goal) (goals st) in
  let planned := set_intentions plans st in
  let advanced :=
    set_current_phase EXECUTION (set_last_update (env_now e) planned) in
  let cbs := default [] (agent_callbacks_ (kernel s) !! id) in
  let r := processTask e t s in
  agent_states_ (kernel r.2)
    = <[id := set_last_update (env_now e) advanced]>
        (agent_states_ (kernel s)) ∧
  intentions advanced = plans ∧ goals advanced = goals st ∧
  length plans = length (goals st) ∧
  variables r.1 !! "action_plans" = Some (join plans ",") ∧
  notified_ (kernel r.2)
    = notified_ (kernel s) ++ map (λ cb, (cb, planned)) cbs
        ++ map (λ cb, (cb, advanced)) cbs ∧
  world r.2 = world s.
Proof.
  intros Hph Hst id plans planned advanced cbs r.
  subst r cbs id.
  unfold processTask, executePhaseFunction. rewrite Hph. cbv beta iota.
  unfold processPlanningPhase. set (id := task_agent_id t) in *.
  pose proof (createActionPlans_kernel e id (task_context t) s st Hst) as Hk.
  assert (world (createActionPlans e id (task_context t) s).2 = world s)
    as Hw by done.
  assert (variables (createActionPlans e id (task_context t) s).1
            !! "action_plans" = Some (join plans ",")) as Hv.
  { unfold createActionPlans, getCognitiveState. rewrite Hst.
    cbn [fst default from_option variables set_var set_variables].
    apply lookup_insert_eq. }
  destruct (createActionPlans e id (task_context t) s) as [c1 s1].
  cbn [fst snd] in *.
  erewrite advance_phase_spec; [|rewrite Hk; simpl; apply lookup_insert_eq].
  cbn [fst snd kernel world set_kernel]. rewrite Hk, Hw.
  unfold notifyCallbacks.
  cbn [agent_states_ agent_callbacks_ notified_ set_stats set_notified
       set_agent_states].
  fold plans. fold planned. fold advanced.
  rewrite insert_insert_eq, <- app_assoc.
  split_and!; try done. subst plans. by rewrite length_map.
Qed.

Lemma X17_planning_task_witness :
  intentions
    (set_current_phase EXECUTION
       (set_last_update 13
          (set_intentions (map (λ goal, "plan_for_" +:+ goal) (goals a1_state))
             a1_state)))
  = ["plan_for_g1"] ∧
  variables
    (processTask (env_at 3) (make_phase_task "00000003" 9 "a1" PLANNING ∅)
       cycle_sys).1 !! "action_plans"
  = Some "plan_for_g1".
Proof.
  destruct (X17_planning_task (env_at 3)
              (make_phase_task "00000003" 9 "a1" PLANNING ∅) cycle_sys
              a1_state) as (_ & H1 & _ & _ & H2 & _).
  - reflexivity.
  - vm_compute. reflexivity.
  - split; [exact H1|exact H2].
Defined.

Lemma processTask_notified e t s st :
  task_phase t ≠ PLANNING →
  agent_states_ (kernel s) !! task_agent_id t = Some st →
  ∃ st1,
    kernel (processTask e t s).2
    = set_stats (updateStats true (env_elapsed e) (stats_ (kernel s)))
        (notifyCallbacks (task_agent_id t) st1
           (set_agent_states
              (<[task_agent_id t := set_last_update (env_now e) st1]>
                 (agent_states_ (kernel s))) (kernel s))) ∧
    current_phase st1 = next_phase (task_phase t) ∧
    goals st1 = goals st ∧ intentions st1 = intentions st ∧
    beliefs st1 = beliefs st ∧ last_update st1 = last_update st.
Proof.
  intros Hph Hst. unfold processTask, executePhaseFunction.
  destruct (task_phase t); try done;
    unfold processPerceptionPhase, processAttentionPhase,
      processReasoningPhase, processExecutionPhase,
      processLearningPhase, processReflectionPhase.
  - rewrite (advance_phase_spec _ _ _ _ st) by done. by eexists.
  - unfold selectAttentionalFocus.
    rewrite (advance_phase_spec _ _ _ _ st) by done. by eexists.
  - rewrite (advance_phase_spec _ _ _ _ st) by done. by eexists.
  - rewrite (advance_phase_spec _ _ _ _ st) by done. by eexists.
  - pose proof (updateKnowledge_kernel e (task_agent_id t)
                  (task_context t) s) as Hk.
    destruct (updateKnowledge e (task_agent_id t) (task_context t) s)
      as [c1 s1]. simpl in Hk.
    rewrite (advance_phase_spec _ _ _ _ st) by (by rewrite Hk).
    cbn [snd kernel set_kernel]. rewrite Hk. by eexists.
  - rewrite (advance_phase_spec _ _ _ _ st) by done. by eexists.
Qed.

(** X18.  A task of any phase but Planning, run for a registered agent,
    calls every observer of the agent exactly once, in the order of
    registration.  The state the observers are handed is in the successor
    phase but still carries the old time stamp: the stored copy alone is
    stamped with the clock.  A task for an agent that is not registered
    stores nothing and calls nobody, and is counted as completed all the
    same. *)
Theorem X18_task_notifications e t s :
  let id := task_agent_id t in
  let k := kernel s in
  let k' := kernel (processTask e t s).2 in
  (agent_states_ k !! id = None →
     agent_states_ k' = agent_states_ k ∧ notified_ k' = notified_ k ∧
     completed_tasks (stats_ k') = S (completed_tasks (stats_ k)) ∧
     failed_tasks (stats_ k') = failed_tasks (stats_ k)) ∧
  (∀ st, agent_states_ k !! id = Some st → task_phase t ≠ PLANNING →
     ∃ st1,
       notified_ k'
         = notified_ k
           ++ map (λ cb, (cb, st1)) (default [] (agent_callbacks_ k !! id)) ∧
       agent_states_ k' !! id = Some (set_last_update (env_now e) st1) ∧
       current_phase st1 = next_phase (task_phase t) ∧
       last_update st1 = last_update st ∧
       goals st1 = goals st ∧ intentions st1 = intentions st).
Proof.
  intros id k k'. split.
  - intros Hnone. subst k'.
    pose proof (processTask_kernel e t s) as (_ & Hs & _ & _ & _ & Hstats).
    fold id k in Hs. rewrite (Hs Hnone), Hstats. split_and!; try done.
    clear Hs Hstats. unfold processTask, executePhaseFunction.
    destruct (task_phase t);
      unfold processPerceptionPhase, processAttentionPhase,
        processReasoningPhase, processPlanningPhase, processExecutionPhase,
        processLearningPhase, processReflectionPhase.
    + by rewrite advance_phase_none.
    + unfold selectAttentionalFocus. by rewrite advance_phase_none.
    + by rewrite advance_phase_none.
    + pose proof (createActionPlans_none e id (task_context t) s Hnone) as Hn.
      fold id. destruct (createActionPlans e id (task_context t) s)
        as [c1 s1]. simpl in Hn. subst s1.
      by rewrite advance_phase_none.
    + by rewrite advance_phase_none.
    + pose proof (updateKnowledge_kernel e id (task_context t) s) as Hk.
      fold id. destruct (updateKnowledge e id (task_context t) s)
        as [c1 s1]. simpl in Hk.
      rewrite advance_phase_none by (by rewrite Hk). simpl. by rewrite Hk.
    + by rewrite advance_phase_none.
  - intros st Hst Hph. subst k'.
    destruct (processTask_notified e t s st Hph Hst)
      as (st1 & -> & H1 & H2 & H3 & H4 & H5).
    exists st1. unfold notifyCallbacks.
    cbn [agent_states_ agent_callbacks_ notified_ set_stats set_notified
         set_agent_states].
    fold id. rewrite lookup_insert_eq. by split_and!.
Qed.

Lemma X18_task_notifications_witness :
  agent_states_
    (kernel (processTask (env_at 0)
               (make_phase_task "00000000" 9 "ghost" PERCEPTION ∅)
               cycle_sys).2)
  = agent_states_ (kernel cycle_sys) ∧
  completed_tasks
    (stats_ (kernel (processTask (env_at 0)
                       (make_phase_task "00000000" 9 "ghost" PERCEPTION ∅)
                       cycle_sys).2))
  = S (completed_tasks (stats_ (kernel cycle_sys))).
Proof.
  destruct (proj1 (X18_task_notifications (env_at 0)
                     (make_phase_task "00000000" 9 "ghost" PERCEPTION ∅)
                     cycle_sys)) as (H1 & _ & H2 & _).
  - vm_compute. reflexivity.
  - split; [exact H1|exact H2].
Defined.

(** ** The Attention handler *)

Lemma focus_erase_app id f g :
  focus_erase id (f ++ g) = focus_erase id f ++ focus_erase id g.
Proof. apply filter_app. Qed.

(** Pushing a batch of distinct ids that fits the focus leaves the batch,
    in its order, at the end of the focus. *)
Lemma focus_fold_suffix ids : ∀ sp pre done,
  attentional_focus_ sp = pre ++ done →
  NoDup (done ++ ids) →
  (length (done ++ ids) ≤ max_focus_size)%nat →
  ∃ pre', attentional_focus_
            (foldl (λ sp i, addToAttentionalFocus i sp) sp ids)
          = pre' ++ done ++ ids.
Proof.
  induction ids as [|x ids IH]; intros sp pre dn Hf Hnd Hlen.
  - exists pre. simpl. by rewrite app_nil_r.
  - cbn [foldl].
    assert (x ∉ dn) as Hx.
    { apply NoDup_app in Hnd as (_ & Hdis & _). intros Hin.
      apply (Hdis x Hin). left. }
    assert (∃ pre1, attentional_focus_ (addToAttentionalFocus x sp)
                    = pre1 ++ dn ++ [x]) as [pre1 Hf1].
    { unfold addToAttentionalFocus. simpl.
      rewrite Hf, focus_erase_app, (focus_erase_id x dn Hx).
      case_decide as Hbig.
      - destruct (focus_erase x pre) as [|y pre0].
        + exfalso. rewrite !length_app in *. simpl in *. lia.
        + exists pre0. simpl. by rewrite <- app_assoc.
      - exists (focus_erase x pre). by rewrite <- app_assoc. }
    destruct (IH (addToAttentionalFocus x sp) pre1 (dn ++ [x]))
      as [pre' Hpre'].
    + done.
    + by rewrite <- app_assoc.
    + by rewrite <- app_assoc.
    + exists pre'. rewrite Hpre'. by rewrite <- app_assoc.
Qed.

Lemma length_omap_total {A B} (f : A → option B) (l : list A) :
  (∀ x, x ∈ l → is_Some (f x)) → length (omap f l) = length l.
Proof.
  induction l as [|x l IH]; intros Hall; [done|]. simpl.
  destruct (Hall x) as [y ->]; [left|]. simpl. f_equal. apply IH.
  intros z Hz. apply Hall. by right.
Qed.

(** The atoms [getMostImportantAtoms] returns are distinct atoms of the
    store. *)
Lemma getMostImportantAtoms_atoms limit w :
  store_wf w →
  let r := getMostImportantAtoms limit w in
  NoDup r ∧ (∀ p, p ∈ r → p ∈ getAtoms (space w)) ∧
  length r = limit `min` getAtomCount (space w).
Proof.
  intros Hwf. unfold getMostImportantAtoms. simpl.
  set (sorted := merge_sort (more_important (heap w)) (getAtoms (space w))).
  assert (sorted ≡ₚ getAtoms (space w)) as Hperm
    by apply merge_sort_Permutation.
  split_and!.
  - eapply sublist_NoDup; [|apply sublist_take].
    rewrite Hperm. by apply getAtoms_NoDup.
  - intros p Hp. rewrite <- Hperm, <- (take_drop limit sorted).
    apply elem_of_app. by left.
  - rewrite length_take, Hperm. unfold getAtoms, getAtomCount.
    by rewrite length_fmap, length_map_to_list.
Qed.

(** The ids the Attention handler selects. *)
Lemma selected_ids w :
  store_wf w →
  let ids := omap (λ p, id_ <$> heap w !! p) (getMostImportantAtoms 5 w) in
  length ids = 5 `min` getAtomCount (space w) ∧ NoDup ids ∧
  (∀ id, id ∈ ids → is_Some (getAtom id (space w))).
Proof.
  intros Hwf. destruct (getMostImportantAtoms_atoms 5 w Hwf)
    as (Hnd & Hin & Hlen). cbv zeta in *.
  set (r := getMostImportantAtoms 5 w) in *.
  assert (∀ p, p ∈ r → ∃ a, heap w !! p = Some a ∧
                            atoms_ (space w) !! id_ a = Some p) as Hlive.
  { intros p Hp. apply Hin, elem_of_getAtoms in Hp as [id Hid].
    destruct (Hwf id p Hid) as (a & Ha & <-). by exists a. }
  split_and!.
  - rewrite <- Hlen. apply length_omap_total. intros p Hp.
    destruct (Hlive p Hp) as (a & -> & _). by eexists.
  - apply NoDup_omap_inj; [done|]. intros p q id Hp Hq Hpid Hqid.
    destruct (Hlive p Hp) as (a & Ha & Hpa).
    destruct (Hlive q Hq) as (b & Hb & Hqb).
    rewrite Ha in Hpid. rewrite Hb in Hqid. simpl in *.
    injection Hpid as <-. injection Hqid as Hba. rewrite Hba in Hqb.
    congruence.
  - intros id (p & Hp & Hpid)%list_elem_of_omap.
    destruct (Hlive p Hp) as (a & Ha & Hpa). rewrite Ha in Hpid.
    injection Hpid as <-. by exists p.
Qed.

(** X19.  The Attention task lists in its scratch context the ids of the
    most important atoms of the store, five of them or all when the store
    holds fewer, each once, and pushes them into the attentional focus of
    the store, where they end up as the last entries in the same order.
    Only then are the attention values of all atoms decayed; the atom map
    is not changed.  For a registered agent the ids become the agent's
    current focus and the phase becomes Reasoning. *)
Theorem X19_attention_task e t s :
  task_phase t = ATTENTION →
  store_wf (world s) →
  let r := processTask e t s in
  let ids := focus_atoms r.1 in
  ids = omap (λ p, id_ <$> heap (world s) !! p)
             (getMostImportantAtoms 5 (world s)) ∧
  length ids = 5 `min` getAtomCount (space (world s)) ∧
  NoDup ids ∧
  (∀ id, id ∈ ids → is_Some (getAtom id (space (world s)))) ∧
  (∃ pre, getAttentionalFocus (space (world r.2)) = pre ++ ids) ∧
  atoms_ (space (world r.2)) = atoms_ (space (world s)) ∧
  heap (world r.2) = heap (updateAttentionValues (world s)) ∧
  (∀ st, agent_states_ (kernel s) !! task_agent_id t = Some st →
     ∃ st', agent_states_ (kernel r.2) !! task_agent_id t = Some st' ∧
            current_focus st' = ids ∧ current_phase st' = REASONING ∧
            goals st' = goals st).
Proof.
  intros Hph Hwf.
  destruct (selected_ids (world s) Hwf) as (Hlen & Hnd & Hknown).
  cbv zeta in *.
  set (ids := omap _ (getMostImportantAtoms 5 (world s))) in *.
  unfold processTask, executePhaseFunction. rewrite Hph. cbv beta iota.
  unfold processAttentionPhase, selectAttentionalFocus. cbv beta iota zeta.
  fold ids. cbn [fst snd focus_atoms set_focus_atoms].
  cbn [world set_kernel set_world]. rewrite !advance_phase_world.
  cbn [world set_kernel set_world].
  split_and!; try done.
  - destruct (focus_fold_suffix ids (space (world s))
                (attentional_focus_ (space (world s))) [])
      as [pre Hpre].
    + by rewrite app_nil_r.
    + done.
    + simpl. rewrite Hlen. unfold max_focus_size. lia.
    + exists pre. exact Hpre.
  - apply focus_fold_atoms.
  - unfold updateAttentionValues, getAtoms. simpl.
    by rewrite focus_fold_atoms.
  - intros st Hst. erewrite advance_phase_spec; [|exact Hst].
    eexists. cbn [kernel set_kernel agent_states_ set_stats notifyCallbacks
                  set_notified set_agent_states].
    rewrite lookup_insert_eq. split; [done|]. done.
Qed.

Lemma X19_attention_task_witness :
  focus_atoms
    (processTask (env_at 1) (make_phase_task "00000001" 9 "a1" ATTENTION ∅)
       {| world := agents_world; kernel := running_kernel |}).1
  = omap (λ p, id_ <$> heap agents_world !! p)
         (getMostImportantAtoms 5 agents_world) ∧
  length
    (focus_atoms
       (processTask (env_at 1) (make_phase_task "00000001" 9 "a1" ATTENTION ∅)
          {| world := agents_world; kernel := running_kernel |}).1)
  = 5 `min` getAtomCount (space agents_world).
Proof.
  destruct (X19_attention_task (env_at 1)
              (make_phase_task "00000001" 9 "a1" ATTENTION ∅)
              {| world := agents_world; kernel := running_kernel |})
    as (H1 & H2 & _).
  - reflexivity.
  - apply (bool_decide_unpack _). vm_compute. exact I.
  - split; [exact H1|exact H2].
Defined.

(** ** utils.cpp: split, join and trim *)

Lemma join_tail_join sep l :
  join_tail sep l = match l with [] => "" | _ :: _ => sep +:+ join l sep end.
Proof. destruct l as [|r rs]; [done|]. by rewrite join_unfold. Qed.

Lemma split_go_nil d s tok : split_go d s tok = [] ↔ s = "" ∧ tok = "".
Proof.
  revert tok. induction s as [|c s IH]; intros tok; simpl.
  - case_decide; naive_solver.
  - case_decide; [naive_solver|]. rewrite IH.
    split; [|naive_solver]. intros [_ Htok]. by destruct tok.
Qed.

Lemma without_final_delimiter_app d a s :
  s ≠ "" →
  without_final_delimiter d (a +:+ s) = a +:+ without_final_delimiter d s.
Proof.
  intros Hs. induction a as [|c a IH]; [done|].
  rewrite !string_app_cons. cbn [without_final_delimiter].
  destruct (a +:+ s) eqn:E.
  - destruct a; [|done]. change ("" +:+ s) with s in E. done.
  - by rewrite IH.
Qed.

Lemma without_final_delimiter_snoc d a :
  without_final_delimiter d (a +:+ String d "") = a.
Proof.
  rewrite without_final_delimiter_app by done. simpl.
  rewrite decide_True by done. apply string_app_empty_r.
Qed.

Lemma join_split_go d s : ∀ tok,
  without_final_delimiter d tok = tok →
  join (split_go d s tok) (String d "")
  = without_final_delimiter d (tok +:+ s).
Proof.
  induction s as [|c s IH]; intros tok Htok.
  - rewrite string_app_empty_r, Htok. simpl. case_decide; [by subst|done].
  - rewrite split_go_cons. destruct (decide (c = d)) as [->|Hc].
    + rewrite join_unfold, join_tail_join.
      destruct (split_go d s "") as [|r rs] eqn:E.
      * apply split_go_nil in E as [-> _].
        by rewrite string_app_empty_r, without_final_delimiter_snoc.
      * rewrite <- E, IH by done. change ("" +:+ s) with s.
        assert (s ≠ "") as Hs.
        { intros ->. by simpl in E. }
        rewrite without_final_delimiter_app by done.
        f_equal. cbn [without_final_delimiter].
        destruct s; [done|]. done.
    + rewrite IH.
      * by rewrite string_app_assoc.
      * rewrite without_final_delimiter_app by done. simpl.
        by rewrite decide_False.
Qed.

Lemma mentions_app d a b :
  mentions d (a +:+ b) = mentions d a || mentions d b.
Proof.
  induction a as [|c a IH]; [done|].
  rewrite string_app_cons. simpl. by rewrite IH, orb_assoc.
Qed.

Lemma split_go_tokens d s : ∀ tok,
  mentions d tok = false →
  Forall (λ x, mentions d x = false) (split_go d s tok).
Proof.
  induction s as [|c s IH]; intros tok Htok; simpl.
  - case_decide; by repeat constructor.
  - case_decide as Hc.
    + constructor; [done|]. by apply IH.
    + apply IH. rewrite mentions_app, Htok. simpl.
      by rewrite bool_decide_eq_false_2.
Qed.

(** X20.  [split] and [join] undo each other up to one final delimiter.
    Joining the tokens of a string with the delimiter gives the string
    back, except that a delimiter at the very end is lost; no token
    contains the delimiter, and the empty string has no token at all.  In
    the other direction, splitting the join of non-empty, comma-free
    strings gives these strings back. *)
Theorem X20_split_join :
  (∀ s d, join (split s d) (String d "") = without_final_delimiter d s) ∧
  (∀ s d, Forall (λ tok, mentions d tok = false) (split s d)) ∧
  (∀ s d, split s d = [] ↔ s = "") ∧
  (∀ l, Forall plain_plan l → split (join l ",") ","%char = l).
Proof.
  split_and!.
  - intros s d. unfold split. by rewrite join_split_go.
  - intros s d. by apply split_go_tokens.
  - intros s d. unfold split. rewrite split_go_nil. naive_solver.
  - apply split_join.
Qed.

Lemma X20_split_join_witness :
  split (join ["plan_for_g1"; "plan_for_g2"] ",") ","%char
  = ["plan_for_g1"; "plan_for_g2"].
Proof.
  apply (proj2 (proj2 (proj2 X20_split_join))).
  apply (bool_decide_unpack _). vm_compute. exact I.
Defined.

Lemma rev_app_spec (a b c : string) :
  String.rev_app (String.rev_app a b) c = String.rev_app b (a +:+ c).
Proof.
  revert b c. induction a as [|x a IH]; intros b c; [done|].
  simpl. rewrite IH. by rewrite string_app_cons.
Qed.

Lemma string_rev_involutive (s : string) : String.rev (String.rev s) = s.
Proof.
  unfold String.rev. rewrite rev_app_spec. simpl. apply string_app_empty_r.
Qed.

Lemma rev_app_append (a b : string) :
  String.rev_app a b = String.rev a +:+ b.
Proof.
  unfold String.rev. revert b. induction a as [|x a IH]; intros b; [done|].
  simpl. rewrite IH, (IH (String x "")). by rewrite string_app_assoc.
Qed.

Lemma rev_app_app (a b c : string) :
  String.rev_app (a +:+ b) c = String.rev_app b (String.rev_app a c).
Proof.
  revert c. induction a as [|x a IH]; intros c; [done|].
  rewrite string_app_cons. simpl. apply IH.
Qed.

Lemma string_rev_app (a b : string) :
  String.rev (a +:+ b) = String.rev b +:+ String.rev a.
Proof.
  unfold String.rev at 1. rewrite rev_app_app. apply rev_app_append.
Qed.

Lemma all_space_app a b : all_space (a +:+ b) = all_space a && all_space b.
Proof.
  induction a as [|c a IH]; [done|].
  rewrite string_app_cons. simpl. by rewrite IH, andb_assoc.
Qed.

Lemma all_space_rev s : all_space (String.rev s) = all_space s.
Proof.
  induction s as [|c s IH]; [done|].
  change (String c s) with (String c "" +:+ s).
  rewrite string_rev_app, !all_space_app, IH. apply andb_comm.
Qed.

Lemma skip_space_spec s :
  ∃ l, s = l +:+ skip_space s ∧ all_space l = true ∧
       no_leading_space (skip_space s).
Proof.
  induction s as [|c s (l & Hs & Hl & Hn)]; [by exists ""|].
  simpl. destruct (is_space c) eqn:Hc.
  - exists (String c l). rewrite string_app_cons, <- Hs. simpl.
    by rewrite Hc, Hl.
  - by exists "".
Qed.

Lemma skip_space_id s : no_leading_space s → skip_space s = s.
Proof. destruct s as [|c s]; [done|]. simpl. by intros ->. Qed.

Lemma no_leading_space_app a b :
  a ≠ "" → no_leading_space (a +:+ b) → no_leading_space a.
Proof. destruct a; [done|]. by rewrite string_app_cons. Qed.

Lemma trim_spec s :
  ∃ l r, s = l +:+ trim s +:+ r ∧ all_space l = true ∧ all_space r = true ∧
         no_leading_space (trim s) ∧ no_leading_space (String.rev (trim s)).
Proof.
  unfold trim.
  destruct (skip_space_spec s) as (l & Hs & Hl & Hx).
  set (x := skip_space s) in *.
  destruct (skip_space_spec (String.rev x)) as (r & Hr & Hrs & Hy).
  set (y := skip_space (String.rev x)) in *.
  assert (x = String.rev y +:+ String.rev r) as Hxy.
  { rewrite <- (string_rev_involutive x), Hr. apply string_rev_app. }
  exists l, (String.rev r). split_and!.
  - by rewrite <- Hxy.
  - done.
  - by rewrite all_space_rev.
  - destruct (decide (String.rev y = "")) as [->|Hne]; [done|].
    apply (no_leading_space_app _ (String.rev r)); [done|]. by rewrite <- Hxy.
  - by rewrite string_rev_involutive.
Qed.

Lemma trim_id s :
  no_leading_space s → no_leading_space (String.rev s) → trim s = s.
Proof.
  intros H1 H2. unfold trim.
  by rewrite (skip_space_id s), (skip_space_id _ H2), string_rev_involutive.
Qed.

(** X21.  [trim] cuts white space off both ends and nothing else: the
    argument is the result with white space alone before and after it, and
    the result neither begins nor ends with a white-space character.  A
    string that neither begins nor ends with white space is returned as it
    is, so trimming twice is trimming once; a string of white space only
    gives the empty string. *)
Theorem X21_trim :
  (∀ s, ∃ l r, s = l +:+ trim s +:+ r ∧
               all_space l = true ∧ all_space r = true ∧
               no_leading_space (trim s) ∧
               no_leading_space (String.rev (trim s))) ∧
  (∀ s, no_leading_space s → no_leading_space (String.rev s) → trim s = s) ∧
  (∀ s, trim (trim s) = trim s) ∧
  (∀ s, all_space s = true → trim s = "").
Proof.
  split_and!.
  - apply trim_spec.
  - apply trim_id.
  - intros s. destruct (trim_spec s) as (_ & _ & _ & _ & _ & H1 & H2).
    by apply trim_id.
  - intros s Hs. unfold trim.
    assert (skip_space s = "") as ->; [|done].
    induction s as [|c s IH]; [done|]. simpl in *.
    apply andb_true_iff in Hs as [-> Hs]. by apply IH.
Qed.

Lemma X21_trim_witness : trim "  42 " = "42" ∧ trim "42" = "42".
Proof.
  split.
  - reflexivity.
  - apply (proj1 (proj2 X21_trim) "42"); vm_compute; reflexivity.
Defined.

(** ** utils.cpp: numbers written and read back *)

Lemma pretty_N_char_digit x :
  (x < 10)%N →
  is_digit (pretty_N_char x) = true ∧
  digit_value (pretty_N_char x) = Z.of_N x.
Proof.
  intros Hx.
  assert (x = 0 ∨ x = 1 ∨ x = 2 ∨ x = 3 ∨ x = 4 ∨ x = 5 ∨ x = 6 ∨ x = 7
          ∨ x = 8 ∨ x = 9)%N as Hcases by lia.
  repeat (destruct Hcases as [->|Hcases]; [by vm_compute|]).
  subst. by vm_compute.
Qed.

Lemma pretty_N_go_digits x : ∀ s,
  all_digits s = true → all_digits (pretty_N_go x s) = true.
Proof.
  induction (N.lt_wf_0 x) as [x _ IH]; intros s Hs.
  assert (x = 0 ∨ 0 < x)%N as [->|Hpos] by lia; [done|].
  rewrite pretty_N_go_step by done. apply IH; [by apply N.div_lt|].
  simpl. rewrite Hs, andb_true_r.
  apply pretty_N_char_digit. by apply N.mod_lt.
Qed.

Lemma pretty_N_go_value x : ∀ s,
  digits_value (pretty_N_go x s) 0 = digits_value s (Z.of_N x).
Proof.
  induction (N.lt_wf_0 x) as [x _ IH]; intros s.
  assert (x = 0 ∨ 0 < x)%N as [->|Hpos] by lia; [done|].
  rewrite pretty_N_go_step by done. rewrite IH by (by apply N.div_lt).
  simpl. f_equal.
  rewrite (proj2 (pretty_N_char_digit (x `mod` 10)%N
                    ltac:(by apply N.mod_lt))).
  rewrite N2Z.inj_div, N2Z.inj_mod. simpl.
  pose proof (Z.div_mod (Z.of_N x) 10). lia.
Qed.

Lemma pretty_N_go_nonempty x : ∀ s, s ≠ "" → pretty_N_go x s ≠ "".
Proof.
  induction (N.lt_wf_0 x) as [x _ IH]; intros s Hs.
  assert (x = 0 ∨ 0 < x)%N as [->|Hpos] by lia; [done|].
  rewrite pretty_N_go_step by done. apply IH; [by apply N.div_lt|done].
Qed.

(** The decimal rendering of a natural number: digits only, at least one,
    denoting the number. *)
Lemma pretty_N_digits (x : N) :
  all_digits (pretty x) = true ∧ pretty x ≠ "" ∧
  digits_value (pretty x) 0 = Z.of_N x.
Proof.
  unfold pretty, pretty_N. case_decide as Hx; [by subst|].
  split_and!.
  - by apply pretty_N_go_digits.
  - rewrite pretty_N_go_step by lia. by apply pretty_N_go_nonempty.
  - by rewrite pretty_N_go_value.
Qed.

Lemma read_digits_all s : ∀ acc,
  all_digits s = true → s ≠ "" →
  read_digits s acc = Some (digits_value s (default 0%Z acc)).
Proof.
  induction s as [|c s IH]; intros acc Hs Hne; [done|].
  simpl in *. apply andb_true_iff in Hs as [Hc Hs]. rewrite Hc.
  destruct s as [|c' s']; [done|]. by rewrite IH.
Qed.

Lemma digit_not_space c : is_digit c = true → is_space c = false.
Proof.
  unfold is_digit, is_space. cbv zeta. intros H.
  apply andb_true_iff in H as [H1%N.leb_le H2%N.leb_le].
  apply orb_false_iff. split.
  - apply N.eqb_neq. lia.
  - apply andb_false_iff. right. apply N.leb_gt. lia.
Qed.

Lemma digit_not_sign c :
  is_digit c = true → c ≠ "-"%char ∧ c ≠ "+"%char.
Proof. intros H. split; intros ->; by vm_compute in H. Qed.

Lemma all_digits_app a b :
  all_digits (a +:+ b) = all_digits a && all_digits b.
Proof.
  induction a as [|c a IH]; [done|].
  rewrite string_app_cons. simpl. by rewrite IH, andb_assoc.
Qed.

Lemma all_digits_rev s : all_digits (String.rev s) = all_digits s.
Proof.
  induction s as [|c s IH]; [done|].
  change (String c s) with (String c "" +:+ s).
  rewrite string_rev_app, !all_digits_app, IH. apply andb_comm.
Qed.

Lemma all_digits_no_leading_space s :
  all_digits s = true → no_leading_space s.
Proof.
  destruct s as [|c s]; [done|]. simpl.
  intros [Hc _]%andb_true_iff. by apply digit_not_space.
Qed.

Lemma stoi_digits s :
  all_digits s = true → s ≠ "" →
  stoi s = let v := digits_value s 0 in
           if decide (INT_MIN ≤ v ≤ INT_MAX)%Z then Some v else None.
Proof.
  intros Hs Hne. unfold stoi.
  rewrite skip_space_id by (by apply all_digits_no_leading_space).
  destruct s as [|c s]; [done|].
  pose proof Hs as Hc. simpl in Hc. apply andb_true_iff in Hc as [Hc _].
  destruct (digit_not_sign c Hc) as [Hm Hp].
  assert (match String c s with
          | String "-"%char r => (true, r)
          | String "+"%char r => (false, r)
          | _ => (false, String c s)
          end = (false, String c s)) as ->.
  { destruct c as [[] [] [] [] [] [] [] []]; done. }
  rewrite read_digits_all by done. done.
Qed.

Lemma stoi_negative s :
  all_digits s = true → s ≠ "" →
  stoi ("-" +:+ s) = let v := (- digits_value s 0)%Z in
                     if decide (INT_MIN ≤ v ≤ INT_MAX)%Z then Some v else None.
Proof.
  intros Hs Hne. unfold stoi. change ("-" +:+ s) with (String "-"%char s).
  cbn [skip_space]. change (is_space "-") with false. cbv iota.
  rewrite read_digits_all by done. done.
Qed.

Lemma trim_digits s : all_digits s = true → trim s = s.
Proof.
  intros Hs. apply trim_id.
  - by apply all_digits_no_leading_space.
  - apply all_digits_no_leading_space. by rewrite all_digits_rev.
Qed.

Lemma no_leading_space_app_l a b :
  a ≠ "" → no_leading_space a → no_leading_space (a +:+ b).
Proof. destruct a; [done|]. by rewrite string_app_cons. Qed.

Lemma trim_negative s :
  all_digits s = true → s ≠ "" → trim ("-" +:+ s) = "-" +:+ s.
Proof.
  intros Hs Hne. apply trim_id; [done|].
  rewrite string_rev_app. apply no_leading_space_app_l.
  - intros Hr. apply (f_equal String.rev) in Hr.
    by rewrite string_rev_involutive in Hr.
  - apply all_digits_no_leading_space. by rewrite all_digits_rev.
Qed.

Lemma parseInt_pretty_N (x : N) :
  parseInt (pretty x)
  = λ d, if decide (INT_MIN ≤ Z.of_N x ≤ INT_MAX)%Z then Z.of_N x else d.
Proof.
  destruct (pretty_N_digits x) as (Hd & Hne & Hv).
  unfold parseInt. rewrite trim_digits, stoi_digits by done.
  cbv zeta. rewrite Hv. by case_decide.
Qed.

Lemma parseInt_to_string_nat (n : nat) d :
  (Z.of_nat n ≤ INT_MAX)%Z → parseInt (to_string_nat n) d = Z.of_nat n.
Proof.
  intros Hn. change (to_string_nat n) with (pretty (N.of_nat n)).
  rewrite parseInt_pretty_N, nat_N_Z. rewrite decide_True; [done|].
  unfold INT_MIN. lia.
Qed.

(** X22.  What [std::to_string] writes for an integer, [parseInt] reads
    back: for every natural number up to INT_MAX and every integer from
    INT_MIN to INT_MAX the round trip gives the number, whatever the
    default is.  A natural number above INT_MAX does not fit an [int]:
    [stoi] throws and [parseInt] returns the default.  The empty string
    and a string of white space give the default as well. *)
Theorem X22_parseInt_round_trip :
  (∀ (n : nat) d, (Z.of_nat n ≤ INT_MAX)%Z →
     parseInt (to_string_nat n) d = Z.of_nat n) ∧
  (∀ z d, (INT_MIN ≤ z ≤ INT_MAX)%Z → parseInt (to_string_Z z) d = z) ∧
  (∀ (n : nat) d, (INT_MAX < Z.of_nat n)%Z →
     parseInt (to_string_nat n) d = d) ∧
  (∀ s d, all_space s = true → parseInt s d = d).
Proof.
  pose proof parseInt_pretty_N as Hnat.
  split_and!.
  - apply parseInt_to_string_nat.
  - intros z d Hz. destruct z as [|p|p].
    + done.
    + change (to_string_Z (Z.pos p)) with (pretty (N.pos p)).
      rewrite Hnat. by rewrite decide_True.
    + change (to_string_Z (Z.neg p)) with ("-" +:+ pretty (N.pos p)).
      destruct (pretty_N_digits (N.pos p)) as (Hd & Hne & Hv).
      unfold parseInt. rewrite trim_negative, stoi_negative by done.
      cbv zeta. rewrite Hv. by rewrite decide_True.
  - intros n d Hn. change (to_string_nat n) with (pretty (N.of_nat n)).
    rewrite Hnat, nat_N_Z. rewrite decide_False; [done|]. lia.
  - intros s d Hs. unfold parseInt.
    assert (trim s = "") as ->; [|done].
    unfold trim. assert (skip_space s = "") as ->; [|done].
    induction s as [|c s IH]; [done|]. simpl in *.
    apply andb_true_iff in Hs as [-> Hs]. by apply IH.
Qed.

Lemma X22_parseInt_round_trip_witness :
  parseInt (to_string_nat 7) 0 = 7%Z ∧ parseInt (to_string_Z (-12)) 0 = (-12)%Z.
Proof.
  split.
  - apply (proj1 X22_parseInt_round_trip 7 0%Z). vm_compute. discriminate.
  - apply (proj1 (proj2 X22_parseInt_round_trip) (-12)%Z 0%Z).
    vm_compute. split; discriminate.
Defined.

(** ** The handlers on one shared context *)

Lemma plan_is_plain goal :
  mentions ","%char goal = false → plain_plan ("plan_for_" +:+ goal).
Proof.
  intros Hg. split; [done|]. by rewrite mentions_app, Hg.
Qed.

(** X23.  The handlers of Planning, Execution and Learning pass their
    results through the scratch context.  Called one after the other on
    the same context, for a registered agent whose goals contain no
    comma: Planning writes one plan per goal, Execution counts exactly
    that many, and Learning then adds one procedural memory node whose
    value is [Executed <n> actions successfully] when the agent has at
    least one goal, and adds nothing when it has none. *)
Theorem X23_handlers_on_shared_context e e' id c s st :
  agent_states_ (kernel s) !! id = Some st →
  Forall (λ goal, mentions ","%char goal = false) (goals st) →
  (Z.of_nat (length (goals st)) ≤ INT_MAX)%Z →
  let n := length (goals st) in
  let planned := createActionPlans e id c s in
  let executed := executeActions id planned.1 in
  let learned := updateKnowledge e' id executed planned.2 in
  executed_count executed = Some (to_string_nat n) ∧
  (goals st = [] →
     world learned.2 = world s ∧
     variables learned.1 !! "learning_outcome"
       = variables c !! "learning_outcome") ∧
  (goals st ≠ [] →
     variables learned.1 !! "learning_outcome" = Some "knowledge_updated" ∧
     ∃ p a,
       getAtom (env_uuid e') (space (world learned.2)) = Some p ∧
       heap (world learned.2) !! p = Some a ∧
       type_ a = MEMORY_NODE ∧
       payload_ a = NodeData ("Executed " +:+ to_string_nat n
                                +:+ " actions successfully") ∧
       Atom_getMetadata "memory_type" a = "procedural").
Proof.
  intros Hst Hplain Hfit n planned executed learned.
  set (plans := map (λ goal, "plan_for_" +:+ goal) (goals st)).
  assert (planned.1 = set_var "action_plans" (join plans ",") c) as Hc1.
  { subst planned. unfold createActionPlans, getCognitiveState.
    by rewrite Hst. }
  assert (world planned.2 = world s) as Hw1 by done.
  assert (Forall plain_plan plans) as Hplans.
  { subst plans. apply Forall_fmap. eapply Forall_impl; [exact Hplain|].
    intros goal Hg. by apply plan_is_plain. }
  assert (length plans = n) as Hlen by (subst plans; apply length_map).
  assert (executed
          = set_var "actions_executed" (to_string_nat n)
              (set_var "action_plans" (join plans ",") planned.1)) as Hc2.
  { subst executed. unfold executeActions, get_var. rewrite Hc1.
    cbn [variables set_var set_variables]. rewrite lookup_insert_eq.
    change (default "" (Some (join plans ","))) with (join plans ",").
    rewrite split_join by done. by rewrite Hlen. }
  assert (executed_count executed = Some (to_string_nat n)) as Hcount.
  { rewrite Hc2. unfold executed_count, set_var. simpl.
    apply lookup_insert_eq. }
  assert (parseInt (to_string_nat n) 0 = Z.of_nat n) as Hparse
    by (by apply parseInt_to_string_nat).
  split; [done|].
  subst learned. unfold updateKnowledge, get_var.
  unfold executed_count in Hcount. rewrite Hcount.
  change (default "" (Some (to_string_nat n))) with (to_string_nat n).
  rewrite Hparse.
  split.
  - intros Hnil. assert (n = 0) as Hn by (subst n; by rewrite Hnil).
    rewrite Hn. rewrite decide_False by lia. cbn [fst snd].
    split; [done|]. rewrite Hc2, Hc1.
    cbn [variables set_var set_variables].
    by rewrite !lookup_insert_ne.
  - intros Hne. assert (0 < n) as Hn.
    { subst n. destruct (goals st); [done|]. simpl. lia. }
    rewrite decide_True by lia. cbn [fst snd].
    split.
    { cbn [variables set_var set_variables]. apply lookup_insert_eq. }
    unfold addMemoryNode. set (a := Atom_setAttentionValue _ _).
    pose proof (make_and_add_lookup a (world planned.2)) as [Hh Ha].
    exists (make_and_add a (world planned.2)).1, a.
    cbn [world set_world].
    split_and!; [exact Ha|exact Hh|done| |done].
    subst a. cbn [payload_ Atom_setAttentionValue Atom_setMetadata
                  Node_ctor Atom_ctor].
    do 2 f_equal. unfold to_string_Z, to_string_nat.
    f_equal. clear. by destruct n.
Qed.

Lemma X23_handlers_on_shared_context_witness :
  executed_count
    (executeActions "a1"
       (createActionPlans (env_at 3) "a1" (CognitiveContext_ctor "a1")
          cycle_sys).1)
  = Some (to_string_nat 1).
Proof.
  destruct (X23_handlers_on_shared_context (env_at 3) (env_at 5) "a1"
              (CognitiveContext_ctor "a1") cycle_sys a1_state) as (H & _).
  - vm_compute. reflexivity.
  - apply (bool_decide_unpack _). vm_compute. exact I.
  - vm_compute. discriminate.
  - exact H.
Defined.

(** ** Links and metadata *)

(** X24.  The constructor of [Link] takes the outgoing vector as it is,
    null entries included, whereas [addOutgoing] ignores a null pointer and
    appends any other at the end, growing the arity by one.
    [removeOutgoing] erases every occurrence of the pointer and leaves the
    order of the rest, so it undoes an [addOutgoing] of a pointer the link
    did not hold.  None of the setters of an atom changes its id or its
    type; [getMetadata] returns what [setMetadata] stored under the key
    and the empty string for a key never set. *)
Theorem X24_links_and_metadata :
  (∀ uuid now type out name,
     Link_getOutgoing (Link_ctor uuid now type out name) = Some out ∧
     Link_getArity (Link_ctor uuid now type out name) = length out) ∧
  (∀ a, Link_addOutgoing None a = a) ∧
  (∀ a out p,
     Link_getOutgoing a = Some out →
     Link_getOutgoing (Link_addOutgoing (Some p) a) = Some (out ++ [Some p]) ∧
     Link_getArity (Link_addOutgoing (Some p) a) = S (Link_getArity a)) ∧
  (∀ a out p,
     Link_getOutgoing a = Some out →
     Link_getOutgoing (Link_removeOutgoing p a)
       = Some (filter (λ q, q ≠ p) out) ∧
     (p ∉ filter (λ q, q ≠ p) out) ∧
     (Link_getArity (Link_removeOutgoing p a) ≤ Link_getArity a)%nat ∧
     (p ∉ out → Link_removeOutgoing p a = a)) ∧
  (∀ a out p,
     Link_getOutgoing a = Some out → Some p ∉ out →
     Link_removeOutgoing (Some p) (Link_addOutgoing (Some p) a) = a) ∧
  (∀ m a, id_ (mutate m a) = id_ a ∧ type_ (mutate m a) = type_ a ∧
          payload_ (mutate m a) = payload_ a) ∧
  (∀ key value a,
     Atom_getMetadata key (Atom_setMetadata key value a) = value ∧
     ∀ key', key' ≠ key →
       Atom_getMetadata key' (Atom_setMetadata key value a)
       = Atom_getMetadata key' a) ∧
  (∀ uuid now type name pl key,
     Atom_getMetadata key (Atom_ctor uuid now type name pl) = "").
Proof.
  assert (∀ (p : AtomPtr) (out : list AtomPtr),
            p ∉ out → filter (λ q, q ≠ p) out = out)
    as Hfilter.
  { intros p out. induction out as [|q out IH]; [done|].
    intros [Hq Hout]%not_elem_of_cons.
    rewrite filter_cons_True by done. by rewrite IH. }
  split_and!.
  - done.
  - intros a. unfold Link_addOutgoing. by destruct (payload_ a).
  - intros a out p Hout. unfold Link_getOutgoing, Link_addOutgoing,
      Link_getArity in *.
    destruct (payload_ a); simplify_eq. simpl.
    split; [done|]. rewrite length_app. simpl. lia.
  - intros a out p Hout. unfold Link_getOutgoing, Link_removeOutgoing,
      Link_getArity in *.
    destruct a as [i t n tv av ts md pl]. simpl in *.
    destruct pl; simplify_eq. simpl. split_and!.
    + done.
    + rewrite list_elem_of_filter. by intros [? _].
    + apply length_filter.
    + intros Hp. by rewrite Hfilter.
  - intros a out p Hout Hp. unfold Link_getOutgoing, Link_removeOutgoing,
      Link_addOutgoing in *.
    destruct a as [i t n tv av ts md pl]. simpl in *.
    destruct pl; simplify_eq. simpl. unfold set_payload. simpl.
    rewrite filter_app, Hfilter by done.
    rewrite filter_cons_False by (by intros ?). simpl.
    by rewrite app_nil_r.
  - intros m a. by destruct m.
  - intros key value a. unfold Atom_getMetadata, Atom_setMetadata. simpl.
    rewrite lookup_insert_eq. split; [done|].
    intros key' Hne. by rewrite lookup_insert_ne.
  - done.
Qed.

Lemma X24_links_and_metadata_witness :
  Link_removeOutgoing (Some alice_ptr)
    (Link_addOutgoing (Some alice_ptr)
       (Link_ctor trust_uuid 0 TRUST_LINK [Some bob_ptr; None] ""))
  = Link_ctor trust_uuid 0 TRUST_LINK [Some bob_ptr; None] "".
Proof.
  apply (proj1 (proj2 (proj2 (proj2 (proj2 X24_links_and_metadata))))
           _ [Some bob_ptr; None] alice_ptr).
  - reflexivity.
  - apply (bool_decide_unpack _). vm_compute. exact I.
Defined.

(** ** Agent nodes *)

Lemma make_and_add_named a w :
  getAtomsByName (name_ a) (space (make_and_add a w).2) ≠ [].
Proof.
  unfold make_and_add, heap_alloc, addAtom, getAtomsByName.
  cbn [fst snd space]. rewrite lookup_insert_eq.
  cbn [snd atoms_by_name_ atoms_ set_atom_counter addAtomToIndices set_atoms].
  set (ids := index_set (index_insert _ _ _) _).
  assert (id_ a ∈ elements ids) as Hin.
  { apply elem_of_elements. subst ids. unfold index_insert, index_set.
    rewrite lookup_insert_eq. simpl. set_solver. }
  intros Hnil.
  assert (fresh (dom (heap w)) ∈
            omap (λ id, <[id_ a := fresh (dom (heap w))]> (atoms_ (space w))
                          !! id) (elements ids)) as Hp.
  { apply list_elem_of_omap. exists (id_ a). split; [done|].
    apply lookup_insert_eq. }
  rewrite Hnil in Hp. by apply elem_of_nil in Hp.
Qed.

Lemma make_and_add_name_index_size a w :
  (size (atoms_by_name_ (space (make_and_add a w).2))
   ≤ S (size (atoms_by_name_ (space w))))%nat.
Proof.
  unfold make_and_add, heap_alloc, addAtom.
  cbn [fst snd space]. rewrite lookup_insert_eq.
  cbn [snd atoms_by_name_ set_atom_counter addAtomToIndices set_atoms].
  unfold index_insert.
  destruct (atoms_by_name_ (space w) !! name_ a) eqn:E.
  - rewrite map_size_insert_Some by done. lia.
  - by rewrite map_size_insert_None.
Qed.

Lemma candidate_name_nonempty base j : base ≠ "" → candidate_name base j ≠ "".
Proof. destruct j; [done|]. simpl. by destruct base. Qed.

Lemma candidate_name_first_free base s j :
  getAtomsByName (candidate_name base j) s = [] →
  (∀ i, (i < j)%nat → getAtomsByName (candidate_name base i) s ≠ []) →
  first_free_name base s (candidate_name base j).
Proof.
  intros Hfree Htaken. destruct j as [|j].
  - left. by split.
  - right. exists (S j). split_and!; [lia|done| | |done].
    + apply (Htaken 0). lia.
    + intros [|i] Hi; [lia|]. apply (Htaken (S i)). lia.
Qed.

Lemma addAgentNode_spec fuel uuid now base caps w :
  base ≠ "" →
  (size (atoms_by_name_ (space w)) < fuel)%nat →
  ∃ j,
    let a := Atom_setMetadata "capabilities" (join caps ",")
               (Atom_setMetadata "creation_time" (timestampToString now)
                  (Atom_setMetadata "type" "cognitive_agent"
                     (Node_ctor uuid now AGENT_NODE
                        (candidate_name base j) ""))) in
    addAgentNode fuel uuid now base caps w = Some (make_and_add a w) ∧
    name_ a = candidate_name base j ∧
    getAtomsByName (candidate_name base j) (space w) = [] ∧
    first_free_name base (space w) (candidate_name base j).
Proof.
  intros Hbase Hfuel.
  pose proof (unique_name_go_spec (S (size (atoms_by_name_ (space w)))) base
                (space w) 0) as Hspec.
  change (candidate_name base 0) with base in Hspec.
  destruct (unique_name_search_succeeds base (space w)) as [name E].
  rewrite E in Hspec. destruct Hspec as (j & _ & -> & Hfree & Htaken).
  assert (generateUniqueNodeName fuel base (space w)
          = Some (candidate_name base j)) as Hgen.
  { unfold generateUniqueNodeName.
    eapply unique_name_go_more_fuel; [|exact E]. lia. }
  exists j. cbv zeta. unfold addAgentNode. rewrite Hgen. simpl.
  split_and!; [done| |done|].
  - by rewrite decide_False by (by apply candidate_name_nonempty).
  - apply candidate_name_first_free; [done|].
    intros i Hi. apply Htaken. lia.
Qed.

(** X25.  [addAgentNode], called with a non-empty name, creates an agent
    node named by the first free one of the names [base], [base_1],
    [base_2], ...: the name asked for when [getAtomsByName] lists no atom
    under it, and else the name with the least suffix [_k], k = 1, 2,
    ..., under which it lists none, every earlier one being taken.  The
    node carries the metadata [type = cognitive_agent] and the
    comma-joined capabilities, and is found under its id.  Two agents
    created one after the other under the same name therefore get
    different node names, the second chosen in the same way in the store
    that holds the first. *)
Theorem X25_addAgentNode fuel1 fuel2 uuid1 uuid2 now1 now2 base caps1 caps2 w :
  base ≠ "" →
  (size (atoms_by_name_ (space w)) < fuel1)%nat →
  (S (size (atoms_by_name_ (space w))) < fuel2)%nat →
  ∃ p1 w1 a1 p2 w2 a2,
    addAgentNode fuel1 uuid1 now1 base caps1 w = Some (p1, w1) ∧
    heap w1 !! p1 = Some a1 ∧ getAtom uuid1 (space w1) = Some p1 ∧
    type_ a1 = AGENT_NODE ∧
    first_free_name base (space w) (name_ a1) ∧
    getAtomsByName (name_ a1) (space w) = [] ∧
    Atom_getMetadata "type" a1 = "cognitive_agent" ∧
    Atom_getMetadata "capabilities" a1 = join caps1 "," ∧
    addAgentNode fuel2 uuid2 now2 base caps2 w1 = Some (p2, w2) ∧
    heap w2 !! p2 = Some a2 ∧ heap w2 !! p1 = Some a1 ∧
    first_free_name base (space w1) (name_ a2) ∧
    p1 ≠ p2 ∧ name_ a1 ≠ name_ a2.
Proof.
  intros Hbase Hf1 Hf2.
  destruct (addAgentNode_spec fuel1 uuid1 now1 base caps1 w Hbase Hf1)
    as (j1 & Hadd1 & Hname1 & Hfree1 & Hfirst1). cbv zeta in *.
  set (a1 := Atom_setMetadata "capabilities" (join caps1 ",")
               (Atom_setMetadata "creation_time" (timestampToString now1)
                  (Atom_setMetadata "type" "cognitive_agent"
                     (Node_ctor uuid1 now1 AGENT_NODE
                        (candidate_name base j1) "")))) in *.
  pose proof (make_and_add_lookup a1 w) as [Hh1 Hs1].
  pose proof (make_and_add_named a1 w) as Hnamed.
  pose proof (make_and_add_name_index_size a1 w) as Hsize.
  destruct (make_and_add a1 w) as [p1 w1] eqn:E1. cbn [fst snd] in *.
  destruct (addAgentNode_spec fuel2 uuid2 now2 base caps2 w1 Hbase)
    as (j2 & Hadd2 & Hname2 & Hfree2 & Hfirst2); [lia|]. cbv zeta in *.
  set (a2 := Atom_setMetadata "capabilities" (join caps2 ",")
               (Atom_setMetadata "creation_time" (timestampToString now2)
                  (Atom_setMetadata "type" "cognitive_agent"
                     (Node_ctor uuid2 now2 AGENT_NODE
                        (candidate_name base j2) "")))) in *.
  pose proof (make_and_add_lookup a2 w1) as [Hh2 _].
  pose proof (make_and_add_heap_old a2 w1 p1 a1 Hh1) as Hold.
  destruct (make_and_add a2 w1) as [p2 w2] eqn:E2. cbn [fst snd] in *.
  exists p1, w1, a1, p2, w2, a2.
  split_and!; try done.
  - by rewrite Hname1.
  - by rewrite Hname1.
  - by rewrite Hname2.
  - intros ->. unfold make_and_add, heap_alloc in E2.
    injection E2 as Hp _.
    pose proof (is_fresh (dom (heap w1))) as Hfresh. rewrite Hp in Hfresh.
    apply Hfresh. by apply elem_of_dom.
  - rewrite Hname1, Hname2. intros Heq. rewrite <- Heq in Hfree2.
    by rewrite <- Hname1 in Hfree2.
Qed.

Lemma X25_addAgentNode_witness :
  ∃ p1 w1 a1,
    addAgentNode 3 trust_uuid 0 "alice" ["plan"; "talk"] agents_world
      = Some (p1, w1) ∧
    heap w1 !! p1 = Some a1 ∧
    name_ a1 = "alice_1".
Proof.
  destruct (X25_addAgentNode 3 4 trust_uuid memory_uuid 0%Z 1%Z "alice"
              ["plan"; "talk"] [] agents_world)
    as (p1 & w1 & a1 & p2 & w2 & a2 & H1 & H2 & _ & _ & H3 & _).
  - discriminate.
  - vm_compute. lia.
  - vm_compute. lia.
  - exists p1, w1, a1. split_and!; [exact H1|exact H2|].
    destruct H3 as [[_ Hfree]|(k & Hk & Hname & _ & Htaken & _)].
    + by vm_compute in Hfree.
    + destruct k as [|[|k]]; [lia|exact Hname|].
      exfalso. apply (Htaken 1); [lia|]. vm_compute. reflexivity.
Defined.

(** ** Trust relationships of an agent *)

Lemma MathUtils_clamp_unit v :
  (0 <= MathUtils_clamp v 0 1 <= 1)%Q ∧
  ((0 <= v <= 1)%Q → (MathUtils_clamp v 0 1 == v)%Q).
Proof.
  unfold MathUtils_clamp, std_max, std_min.
  destruct (Qlt_le_dec 1 v); destruct (Qlt_le_dec 0 _); split; lra.
Qed.

Lemma foldl_Qplus_acc l : ∀ acc,
  (foldl Qplus acc l == acc + foldl Qplus 0 l)%Q.
Proof.
  induction l as [|x l IH]; intros acc; simpl; [lra|].
  rewrite (IH (acc + x)%Q), (IH (0 + x)%Q). lra.
Qed.

Lemma sum_Q_bounds l :
  all_in_unit l → (0 <= sum_Q l <= inject_Z (Z.of_nat (length l)))%Q.
Proof.
  unfold sum_Q. induction 1 as [|x l Hx Hall IH].
  - change (0 <= 0 <= 0)%Q. lra.
  - cbn [foldl length]. rewrite foldl_Qplus_acc, Nat2Z.inj_succ.
    unfold Z.succ. rewrite inject_Z_plus. change (inject_Z 1) with 1%Q. lra.
Qed.

Lemma mean_in_unit l :
  all_in_unit l → l ≠ [] →
  (0 <= sum_Q l / inject_Z (Z.of_nat (length l)) <= 1)%Q.
Proof.
  intros Hall Hne. pose proof (sum_Q_bounds l Hall) as [Hlo Hhi].
  assert (0 < inject_Z (Z.of_nat (length l)))%Q as Hpos.
  { change 0%Q with (inject_Z 0). rewrite <- Zlt_Qlt.
    destruct l; [done|]. simpl. lia. }
  split.
  - apply Qle_shift_div_l; [done|]. lra.
  - apply Qle_shift_div_r; [done|]. lra.
Qed.

Lemma updateTrust_iter_history now levels : ∀ r,
  let r' := foldl (λ r0 v, updateTrust now v r0) r levels in
  tr_interaction_count r' = tr_interaction_count r + length levels ∧
  length (tr_trust_history r')
    = length (tr_trust_history r) + length levels ∧
  (all_in_unit (tr_trust_history r) → (0 <= tr_trust_level r <= 1)%Q →
   all_in_unit (tr_trust_history r') ∧ (0 <= tr_trust_level r' <= 1)%Q).
Proof.
  induction levels as [|v levels IH]; intros r.
  - simpl. split_and!; [lia|lia|done].
  - cbn [foldl]. destruct (IH (updateTrust now v r)) as (Hc & Hl & Hu).
    cbv zeta in *. rewrite Hc, Hl. simpl. rewrite length_app. simpl.
    split_and!; [lia|lia|].
    intros Hall Hlevel. apply Hu.
    + apply Forall_app. split; [done|]. by constructor.
    + apply MathUtils_clamp_unit.
Qed.

(** X26.  [TrustRelationship::updateTrust] pushes the level held so far
    onto the history, stores the new level clamped into [0,1] and counts
    the interaction; the confidence never decreases and, once at most 1,
    stays at most 1.  The constructor stores its level unclamped, so it is
    the first [updateTrust] that brings the level into range; from a
    level in [0,1] on, every entry of the history is in [0,1] after any
    number of updates.  [getTrustTrend] is 0 for a history of fewer than
    two entries and lies in [-1,1] for a history of entries in [0,1]. *)
Theorem X26_trust_relationship :
  (∀ now v r,
     let r' := updateTrust now v r in
     (0 <= tr_trust_level r' <= 1)%Q ∧
     ((0 <= v <= 1)%Q → (tr_trust_level r' == v)%Q) ∧
     tr_trust_history r' = tr_trust_history r ++ [tr_trust_level r] ∧
     tr_interaction_count r' = S (tr_interaction_count r) ∧
     (tr_confidence r <= 1 → tr_confidence r <= tr_confidence r' <= 1)%Q) ∧
  (∀ now target level,
     tr_trust_level (TrustRelationship_ctor now target level) = level ∧
     tr_trust_history (TrustRelationship_ctor now target level) = []) ∧
  (∀ now target level levels,
     (0 <= level <= 1)%Q →
     let r := foldl (λ r0 v, updateTrust now v r0)
                    (TrustRelationship_ctor now target level) levels in
     tr_interaction_count r = length levels ∧
     length (tr_trust_history r) = length levels ∧
     all_in_unit (tr_trust_history r) ∧
     (0 <= tr_trust_level r <= 1)%Q ∧
     (-1 <= getTrustTrend r <= 1)%Q) ∧
  (∀ r, (length (tr_trust_history r) < 2)%nat → getTrustTrend r = 0%Q).
Proof.
  assert (∀ r, all_in_unit (tr_trust_history r) →
               (-1 <= getTrustTrend r <= 1)%Q) as Htrend.
  { intros r Hall. unfold getTrustTrend. cbv zeta.
    case_decide as Hlen; [lra|].
    set (h := tr_trust_history r) in *.
    set (half := (length h / 2)%nat).
    assert (0 < half < length h)%nat as Hhalf.
    { subst half. split.
      - apply Nat.div_str_pos. lia.
      - apply Nat.div_lt; lia. }
    pose proof (mean_in_unit (take half h)) as Hold.
    pose proof (mean_in_unit (drop half h)) as Hnew.
    rewrite length_take in Hold. rewrite length_drop in Hnew.
    replace (half `min` length h)%nat with half in Hold by lia.
    destruct Hold as [Ho1 Ho2].
    { by apply Forall_take. }
    { intros Hnil. apply (f_equal length) in Hnil.
      rewrite length_take in Hnil. simpl in Hnil. lia. }
    destruct Hnew as [Hn1 Hn2].
    { by apply Forall_drop. }
    { intros Hnil. apply (f_equal length) in Hnil.
      rewrite length_drop in Hnil. simpl in Hnil. lia. }
    lra. }
  split_and!.
  - intros now v r. cbv zeta. unfold updateTrust. simpl.
    pose proof (MathUtils_clamp_unit v) as [Hin Hid].
    split; [exact Hin|]. split; [exact Hid|]. split; [done|].
    split; [done|].
    unfold std_min. intros Hc. destruct (Qlt_le_dec _ 1); lra.
  - done.
  - intros now target level levels Hlevel.
    destruct (updateTrust_iter_history now levels
                (TrustRelationship_ctor now target level))
      as (Hc & Hl & Hu).
    cbv zeta in *. simpl in Hc, Hl.
    destruct Hu as [Hall Hlev]; [constructor|done|].
    split; [done|]. split; [done|]. split; [done|]. split; [done|].
    by apply Htrend.
  - intros r Hlen. unfold getTrustTrend. cbv zeta. by rewrite decide_True.
Qed.

Lemma X26_trust_relationship_witness :
  all_in_unit
    (tr_trust_history
       (foldl (λ r0 v, updateTrust 1 v r0)
              (TrustRelationship_ctor 0 "bob" (1 # 2))
              [(3 # 2)%Q; (-1)%Q; (1 # 4)%Q])).
Proof.
  destruct (proj1 (proj2 (proj2 X26_trust_relationship)) 1%Z "bob"
              (1 # 2)%Q [(3 # 2)%Q; (-1)%Q; (1 # 4)%Q])
    as (_ & _ & H & _).
  - split; vm_compute; congruence.
  - exact H.
Defined.

Lemma isValidTrustLevel_spec v :
  isValidTrustLevel v = true ↔ (0 <= v <= 1)%Q.
Proof.
  unfold isValidTrustLevel. rewrite andb_true_iff, !Qle_bool_iff. done.
Qed.

(** X27.  [CognitiveAgent::establishTrust] checks the level first: a
    level outside [0,1] changes neither the agent nor the store.  With a
    valid level the agent's own record of the target is replaced by a
    new one (level as given, no history, no interaction counted, whatever
    was recorded before), and [getTrustLevel] of the agent returns the
    level.  The store is asked for a link between the agent's id and the
    target's id: when the store has no atom under the agent's id, it
    creates nothing, and the store is left as it was. *)
Theorem X27_establishTrust :
  (∀ uuid now target v ag w,
     ((v < 0)%Q ∨ (1 < v)%Q) →
     CognitiveAgent_establishTrust uuid now target v ag w = (ag, w)) ∧
  (∀ uuid now target v ag w,
     (0 <= v <= 1)%Q →
     let r := CognitiveAgent_establishTrust uuid now target v ag w in
     CognitiveAgent_getTrustLevel target r.1 = v ∧
     trust_relationships_ r.1 !! target
       = Some (TrustRelationship_ctor now target v) ∧
     (∀ other, other ≠ target →
        CognitiveAgent_getTrustLevel other r.1
        = CognitiveAgent_getTrustLevel other ag) ∧
     goals_ r.1 = goals_ ag ∧ beliefs_ r.1 = beliefs_ ag ∧
     (getAtom (agent_id_ ag) (space w) = None ∨
      getAtom target (space w) = None → r.2 = w)) ∧
  (∀ target ag, trust_relationships_ ag !! target = None →
                CognitiveAgent_getTrustLevel target ag = 0%Q).
Proof.
  split_and!.
  - intros uuid now target v ag w Hout. unfold CognitiveAgent_establishTrust.
    destruct (isValidTrustLevel v) eqn:Hv; [|done].
    apply isValidTrustLevel_spec in Hv. lra.
  - intros uuid now target v ag w Hin. cbv zeta.
    unfold CognitiveAgent_establishTrust.
    rewrite (proj2 (isValidTrustLevel_spec v) Hin).
    unfold CognitiveAgent_getTrustLevel. cbn [fst snd trust_relationships_
      set_trust_relationships_ goals_ beliefs_].
    rewrite lookup_insert_eq. split_and!; try done.
    + intros other Hne. by rewrite lookup_insert_ne.
    + intros Hnone. unfold addTrustRelationship, add_link.
      destruct Hnone as [-> | ->]; [done|].
      by destruct (getAtom (agent_id_ ag) (space w)).
  - intros target ag Hnone. unfold CognitiveAgent_getTrustLevel.
    by rewrite Hnone.
Qed.

Lemma X27_establishTrust_witness :
  CognitiveAgent_establishTrust trust_uuid 3 "bob" (3 # 2) a1_agent
    agents_world
  = (a1_agent, agents_world) ∧
  (CognitiveAgent_establishTrust trust_uuid 3 "bob" (1 # 2) a1_agent
     agents_world).2
  = agents_world.
Proof.
  split.
  - apply (proj1 X27_establishTrust). right. vm_compute. reflexivity.
  - destruct (proj1 (proj2 X27_establishTrust) trust_uuid 3%Z "bob"
                (1 # 2)%Q a1_agent agents_world) as (_ & _ & _ & _ & _ & H).
    + split; vm_compute; congruence.
    + apply H. left. vm_compute. reflexivity.
Defined.

(** ** Goals and beliefs of an agent *)

(** X28.  [CognitiveAgent::addGoal] with a goal the agent already has
    does nothing at all.  A new goal is appended to the agent's goals,
    one goal node named after it (truth value: the priority clamped into
    [0,1], confidence 0.8) is added to the store, and the microkernel is
    told.  [CognitiveAgent::updateBelief] writes the belief in the agent
    and in the microkernel.  An agent whose goals and beliefs agree with
    its state in the microkernel stays in agreement under both, and its
    goals stay free of duplicates. *)
Theorem X28_agent_goals_and_beliefs :
  (∀ uuid now now' goal priority ag s,
     goal ∈ goals_ ag →
     CognitiveAgent_addGoal uuid now now' goal priority ag s = (ag, s)) ∧
  (∀ uuid now now' goal priority ag s,
     goal ∉ goals_ ag →
     let r := CognitiveAgent_addGoal uuid now now' goal priority ag s in
     goals_ r.1 = goals_ ag ++ [goal] ∧
     (NoDup (goals_ ag) → NoDup (goals_ r.1)) ∧
     (∃ p a, getAtom uuid (space (world r.2)) = Some p ∧
             heap (world r.2) !! p = Some a ∧ type_ a = GOAL_NODE ∧
             name_ a = (if decide (goal = "")
                        then "atom_" +:+ String.substring 0 8 uuid
                        else goal) ∧
             strength (truth_value_ a) = clamp priority 0 1 ∧
             confidence (truth_value_ a) = (8 # 10)%Q) ∧
     (agent_in_sync ag (kernel s) → agent_in_sync r.1 (kernel r.2)) ∧
     CognitiveAgent_addGoal uuid now now' goal priority r.1 r.2 = r) ∧
  (∀ now key value ag s,
     let r := CognitiveAgent_updateBelief now key value ag s in
     beliefs_ r.1 !! key = Some value ∧ world r.2 = world s ∧
     (agent_in_sync ag (kernel s) → agent_in_sync r.1 (kernel r.2))).
Proof.
  split_and!.
  - intros uuid now now' goal priority ag s Hin.
    unfold CognitiveAgent_addGoal. by rewrite decide_True.
  - intros uuid now now' goal priority ag s Hnot. cbv zeta.
    assert (CognitiveAgent_addGoal uuid now now' goal priority ag s
            = (set_goals_ (goals_ ag ++ [goal]) ag,
               {| world := (addGoalNode uuid now goal priority (world s)).2;
                  kernel := addGoal now' (agent_id_ ag) goal (kernel s) |}))
      as ->.
    { unfold CognitiveAgent_addGoal. by rewrite decide_False. }
    cbn [fst snd goals_ set_goals_ world kernel].
    split_and!.
    + done.
    + intros Hnd. apply NoDup_app. split_and!; [done| |apply NoDup_singleton].
      by intros x Hx ->%list_elem_of_singleton.
    + unfold addGoalNode. set (a := Atom_setTruthValue _ _).
      pose proof (make_and_add_lookup a (world s)) as [Hh Ha].
      exists (make_and_add a (world s)).1, a.
      split_and!; [exact Ha|exact Hh|done..].
    + intros (st & Hst & Hg & Hb).
      exists (set_last_update now' (set_goals (goals st ++ [goal]) st)).
      unfold addGoal. cbn [agent_id_ set_goals_ goals_ beliefs_].
      rewrite Hst. rewrite decide_False by (by rewrite Hg).
      cbn [agent_states_ set_agent_states].
      rewrite lookup_insert_eq. split; [done|]. simpl. by rewrite Hg, Hb.
    + unfold CognitiveAgent_addGoal.
      cbn [goals_ set_goals_]. rewrite decide_True; [done|].
      apply elem_of_app. right. left.
  - intros now key value ag s. cbv zeta. unfold CognitiveAgent_updateBelief.
    cbn [fst snd beliefs_ set_beliefs_ world kernel set_kernel].
    split_and!; [apply lookup_insert_eq|done|].
    intros (st & Hst & Hg & Hb).
    exists (set_last_update now
              (set_beliefs (<[key := value]> (beliefs st)) st)).
    unfold updateBelief. cbn [agent_id_ set_beliefs_ goals_ beliefs_].
    rewrite Hst. cbn [agent_states_ set_agent_states].
    rewrite lookup_insert_eq. split; [done|]. simpl. by rewrite Hg, Hb.
Qed.

Lemma X28_agent_goals_and_beliefs_witness :
  CognitiveAgent_addGoal memory_uuid 8 9 "g1" (1 # 2) a1_agent cycle_sys
  = (a1_agent, cycle_sys) ∧
  agent_in_sync
    (CognitiveAgent_addGoal memory_uuid 8 9 "g2" (1 # 2) a1_agent cycle_sys).1
    (kernel
       (CognitiveAgent_addGoal memory_uuid 8 9 "g2" (1 # 2) a1_agent
          cycle_sys).2).
Proof.
  split.
  - apply (proj1 X28_agent_goals_and_beliefs).
    apply (bool_decide_unpack _). vm_compute. exact I.
  - destruct (proj1 (proj2 X28_agent_goals_and_beliefs) memory_uuid 8%Z 9%Z
                "g2" (1 # 2)%Q a1_agent cycle_sys) as (_ & _ & _ & H & _).
    + apply (bool_decide_unpack _). vm_compute. exact I.
    + apply H. exists a1_state. vm_compute. done.
Defined.

(** ** Tasks of agents that are not registered *)

(** X29.  [scheduleCognitivePhase] does not ask whether the agent is
    registered: it always queues one task of priority 0 and leaves the
    counters alone, whereas [runCognitiveCycle] does nothing for an
    unknown agent.  Removing an agent does not remove its queued tasks:
    after a cycle was scheduled and the agent removed, the seven tasks
    are still queued, a worker runs the first of them and counts it as
    completed, and the agent stays absent. *)
Theorem X29_tasks_without_agent :
  (∀ short now id phase params k,
     let k' := scheduleCognitivePhase short now id phase params k in
     task_queue_ k'
       = task_queue_ k ++ [make_phase_task short now id phase params] ∧
     priority (make_phase_task short now id phase params) = 0%Z ∧
     stats_ k' = stats_ k ∧ agent_states_ k' = agent_states_ k) ∧
  (∀ short now id k,
     hasAgent id k = false → runCognitiveCycle short now id k = k) ∧
  (∀ short now id k w e,
     hasAgent id k = true → running_ k = true → task_queue_ k = [] →
     let k1 := (removeCognitiveAgent id (runCognitiveCycle short now id k)).2 in
     task_queue_ k1 = cycle_tasks short now id ∧
     hasAgent id k1 = false ∧
     ∃ s', worker_step e 0 {| world := w; kernel := k1 |} = Some s' ∧
           hasAgent id (kernel s') = false ∧
           length (task_queue_ (kernel s')) = 6 ∧
           completed_tasks (stats_ (kernel s'))
             = S (completed_tasks (stats_ k))).
Proof.
  split_and!.
  - done.
  - intros short now id k Hno. apply runCognitiveCycle_unknown.
    unfold hasAgent in Hno. apply bool_decide_eq_false in Hno.
    destruct (agent_states_ k !! id); [|done]. exfalso. apply Hno. by eexists.
  - intros short now id k w e Hreg Hrun Hq. cbv zeta.
    unfold hasAgent in Hreg. apply bool_decide_eq_true in Hreg.
    rewrite runCognitiveCycle_spec by done. destruct Hreg as [st Hst].
    unfold removeCognitiveAgent.
    cbn [agent_states_ set_stats set_task_queue]. rewrite Hst.
    cbn [snd]. rewrite Hq. cbn [app].
    set (k1 := set_agent_callbacks _ _).
    assert (task_queue_ k1 = cycle_tasks short now id) as Hq1 by done.
    assert (agent_states_ k1 !! id = None) as Hnone.
    { subst k1. cbn [agent_states_ set_agent_callbacks set_agent_states].
      apply lookup_delete_eq. }
    assert (hasAgent id k1 = false) as Hno.
    { unfold hasAgent. apply bool_decide_eq_false_2. rewrite Hnone.
      by intros [? ?]. }
    split; [done|]. split; [done|].
    set (s := {| world := w; kernel := k1 |}).
    destruct (cycle_tasks short now id) as [|t rest] eqn:Hct; [done|].
    assert (Forall (λ t', priority t' = 0%Z ∧ task_agent_id t' = id ∧
                          parameters t' = ∅) (t :: rest)) as Hall.
    { rewrite <- Hct. apply cycle_tasks_Forall. }
    apply Forall_cons in Hall as [(Hp & Hid & _) Hall].
    rewrite (worker_step_front e t rest s); [|done|done|].
    2:{ eapply Forall_impl; [exact Hall|]. simpl. intros t' (-> & _). done. }
    eexists. split; [done|].
    set (s0 := set_kernel _ s).
    pose proof (processTask_kernel e t s0) as (_ & Hs & Hq' & _ & _ & Hstats).
    rewrite Hid in Hs. specialize (Hs Hnone).
    split_and!.
    + unfold hasAgent. apply bool_decide_eq_false_2. rewrite Hs.
      change (agent_states_ (kernel s0)) with (agent_states_ k1).
      rewrite Hnone. by intros [? ?].
    + rewrite Hq'. subst s0. simpl.
      apply (f_equal length) in Hct. unfold cycle_tasks, cycle_phases in Hct.
      simpl in Hct. lia.
    + rewrite Hstats. done.
Qed.

Lemma X29_tasks_without_agent_witness :
  task_queue_
    (removeCognitiveAgent "a1" (runCognitiveCycle a1_short 7 "a1"
                                  running_kernel)).2
  = cycle_tasks a1_short 7 "a1".
Proof.
  destruct (proj2 (proj2 X29_tasks_without_agent) a1_short 7%Z "a1"
              running_kernel (empty_world "default_space") (env_at 0))
    as (H & _).
  - vm_compute. reflexivity.
  - reflexivity.
  - reflexivity.
  - exact H.
Defined.

(** ** Relationships after an endpoint is removed *)

Lemma link_survives_removal a w p2 a2 :
  index_set (atoms_by_type_ (space w)) (type_ a) = ∅ →
  atoms_ (space w) !! id_ a2 = Some p2 → heap w !! p2 = Some a2 →
  id_ a ≠ id_ a2 →
  let w' := (make_and_add a w).2 in
  let w'' := after_removeAtom (id_ a2) w' in
  getAtomsByType (type_ a) (space w'') = [(make_and_add a w).1] ∧
  heap w'' = heap w' ∧
  getAtom (id_ a2) (space w'') = None ∧
  (∀ id, id ≠ id_ a2 → getAtom id (space w'') = getAtom id (space w')).
Proof.
  intros Hempty Hp2 Ha2 Hne. cbv zeta.
  pose proof (make_and_add_heap_old a w p2 a2 Ha2) as Hold.
  pose proof (make_and_add_lookup a w) as [_ Hnew].
  assert (atoms_ (space (make_and_add a w).2) !! id_ a2 = Some p2) as Hp2'.
  { unfold make_and_add, heap_alloc, addAtom. cbn [fst snd space].
    rewrite lookup_insert_eq.
    cbn [snd atoms_ set_atom_counter addAtomToIndices set_atoms].
    by rewrite lookup_insert_ne. }
  assert (index_set (atoms_by_type_ (space (make_and_add a w).2)) (type_ a)
          = {[id_ a]}) as Hidx.
  { unfold make_and_add, heap_alloc, addAtom. cbn [fst snd space].
    rewrite lookup_insert_eq.
    cbn [snd atoms_by_type_ set_atom_counter addAtomToIndices set_atoms].
    apply set_eq. intros x. rewrite elem_of_index_insert, Hempty. set_solver. }
  destruct (make_and_add a w) as [p w'] eqn:E. cbn [fst snd] in *.
  unfold after_removeAtom, removeAtom, getAtomsByType, getAtom.
  rewrite Hp2', Hold.
  cbn [snd space heap set_space atoms_ atoms_by_type_ set_atoms
       removeAtomFromIndices].
  split_and!.
  - assert (index_set (index_erase (type_ a2) (id_ a2)
                         (atoms_by_type_ (space w'))) (type_ a)
            = {[id_ a]}) as ->.
    { apply set_eq. intros x. rewrite elem_of_index_erase, Hidx. set_solver. }
    rewrite elements_singleton. simpl.
    rewrite lookup_delete_ne by done. by rewrite Hnew.
  - done.
  - apply lookup_delete_eq.
  - intros id Hid. by rewrite lookup_delete_ne.
Qed.

(** X30.  Relationships outlive their endpoints.  After
    [addTrustRelationship(a, b, v)] and [addCollaborationLink(a, b)] in a
    store that held no such links, removing b with [removeAtom] leaves
    both links in place: [getAtom(b)] is null, yet [getTrustLevel(a, b)]
    is still v clamped into [0,1] and [getCollaborators(a)] still lists b,
    while [getCollaborators(b)] is empty. *)
Theorem X30_links_outlive_endpoints uuid now id1 id2 w p1 p2 :
  store_wf w →
  getAtom id1 (space w) = Some p1 →
  getAtom id2 (space w) = Some p2 →
  id1 ≠ id2 → uuid ≠ id2 →
  (∀ v,
     index_set (atoms_by_type_ (space w)) TRUST_LINK = ∅ →
     let w' := (addTrustRelationship uuid now id1 id2 v w).2 in
     let w'' := after_removeAtom id2 w' in
     getAtom id2 (space w'') = None ∧
     getTrustLevel id1 id2 w'' = Some (clamp v 0 1)) ∧
  (∀ type,
     index_set (atoms_by_type_ (space w)) COLLABORATION_LINK = ∅ →
     let w' := (addCollaborationLink uuid now id1 id2 type w).2 in
     let w'' := after_removeAtom id2 w' in
     getAtom id2 (space w'') = None ∧
     getCollaborators id1 w'' = Some [id2] ∧
     getCollaborators id2 w'' = Some []).
Proof.
  intros Hwf H1 H2 Hne Hu.
  destruct (Hwf id1 p1 H1) as (a1 & Ha1 & Hid1).
  destruct (Hwf id2 p2 H2) as (a2 & Ha2 & Hid2).
  split.
  - intros v Hempty. cbv zeta.
    unfold addTrustRelationship, add_link. rewrite H1, H2.
    set (a := Atom_setMetadata _ _ _).
    destruct (link_survives_removal a w p2 a2 Hempty) as (Hl & Hh & Hg & _);
      [by rewrite Hid2|done|by rewrite Hid2|].
    pose proof (make_and_add_lookup a w) as [Hhp _].
    pose proof (link_endpoints_fresh a w p1 p2 a1 a2 eq_refl Ha1 Ha2) as Hends.
    rewrite Hid1, Hid2 in Hends. rewrite Hid2 in Hl, Hh, Hg.
    destruct (make_and_add a w) as [p w'] eqn:E. cbn [fst snd] in *.
    split; [done|]. unfold getTrustLevel.
    change (type_ a) with TRUST_LINK in Hl. rewrite Hl, Hh. simpl.
    rewrite Hhp, Hends. rewrite decide_True; [done|by left].
  - intros type Hempty. cbv zeta.
    unfold addCollaborationLink, add_link. rewrite H1, H2.
    set (a := Atom_setMetadata _ _ _).
    destruct (link_survives_removal a w p2 a2 Hempty) as (Hl & Hh & Hg & Ho);
      [by rewrite Hid2|done|by rewrite Hid2|].
    pose proof (make_and_add_lookup a w) as [Hhp Hsp].
    pose proof (link_endpoints_fresh a w p1 p2 a1 a2 eq_refl Ha1 Ha2) as Hends.
    rewrite Hid1, Hid2 in Hends. rewrite Hid2 in Hl, Hh, Hg, Ho.
    assert (is_Some (getAtom id1 (space (make_and_add a w).2))) as [q1 Hq1].
    { unfold make_and_add, heap_alloc, addAtom, getAtom.
      cbn [fst snd space]. rewrite lookup_insert_eq.
      cbn [snd atoms_ set_atom_counter addAtomToIndices set_atoms].
      destruct (decide (id_ a = id1)) as [->|Hd].
      - rewrite lookup_insert_eq. by eexists.
      - rewrite lookup_insert_ne by done. by eexists. }
    destruct (make_and_add a w) as [p w'] eqn:E. cbn [fst snd] in *.
    split; [done|]. unfold getCollaborators.
    rewrite Hg, (Ho id1 Hne), Hq1.
    change (type_ a) with COLLABORATION_LINK in Hl. rewrite Hl, Hh.
    cbn [collaborators_go]. rewrite Hhp. cbn [mbind option_bind].
    rewrite Hends. simpl. by rewrite decide_True.
Qed.

Lemma X30_links_outlive_endpoints_witness :
  getTrustLevel (id_ alice) (id_ bob)
    (after_removeAtom (id_ bob)
       (addTrustRelationship trust_uuid 0 (id_ alice) (id_ bob) (8 # 10)
          agents_world).2)
  = Some (clamp (8 # 10) 0 1).
Proof.
  destruct (proj1 (X30_links_outlive_endpoints trust_uuid 0%Z (id_ alice)
                     (id_ bob) agents_world alice_ptr bob_ptr
                     ltac:(apply (bool_decide_unpack _); vm_compute; exact I)
                     eq_refl eq_refl
                     ltac:(apply (bool_decide_unpack _); vm_compute; exact I)
                     ltac:(apply (bool_decide_unpack _); vm_compute; exact I))
              (8 # 10)%Q) as (_ & H).
  - vm_compute. reflexivity.
  - exact H.
Defined.
